(** * Process table, lifecycle and scheduling of the kernel (kernel/proc.c)

    A shallow embedding of [kernel/proc.c]: the process table is a list of
    process control blocks, kernel routines are state transformers in a small
    monad whose outcomes are "returned", "panicked" and "switched context",
    and the four scheduling policies selected by the build ([DEFAULT], [FCFS],
    [PBS], [MLFQ]) are the values of one parameter.

    Conventions.
    - [struct proc *] is an index into the table ([option nat], [None] is the
      null pointer); a sleep channel ([void *]) is a [chan_t].
    - C [int] and [uint] are 32 bits wide: values are kept in [Z] and every
      arithmetic result is wrapped ([wrap32], [wrapu32]) where it is stored.
      [proc.h] is not part of the sources; the width and signedness of each
      field are the ones its uses in [proc.c] fit ([-1] sentinels are [int],
      tick stamps compared with a [uint] are [uint]).
    - [NPROC] is the length of the table. *)

From Stdlib Require Import ZArith Lia Bool List String.
From stdpp Require Import base numbers list.

Local Open Scope Z_scope.

(** ** Machine integers *)

Definition wrap32 (x : Z) : Z := (x + 2 ^ 31) mod 2 ^ 32 - 2 ^ 31.
Definition wrapu32 (x : Z) : Z := x mod 2 ^ 32.

Definition is_int (x : Z) : Prop := - 2 ^ 31 <= x < 2 ^ 31.
Definition is_uint (x : Z) : Prop := 0 <= x < 2 ^ 32.

(** Signed division of C: truncates toward zero; a zero divisor has no
    result. *)
Definition int_div (a b : Z) : option Z :=
  if b =? 0 then None else Some (wrap32 (Z.quot a b)).

(** ** Data model *)

Inductive procstate : Type :=
  UNUSED | USED | SLEEPING | RUNNABLE | RUNNING | ZOMBIE.

(** A [void *] used as a sleep channel: null, the address of a table slot,
    or any other kernel address. *)
Inductive chan_t : Type :=
| CNull
| CProc (i : nat)
| CAddr (a : Z).

Definition chan_of (p : option nat) : chan_t :=
  match p with
  | Some i => CProc i
  | None => CNull
  end.

#[global] Instance procstate_eq_dec : EqDecision procstate.
Proof. solve_decision. Defined.
#[global] Instance chan_eq_dec : EqDecision chan_t.
Proof. solve_decision. Defined.

(** [struct proc].  [lock] is the held bit of the slot's spinlock; pointers to
    collaborators' objects (page table, trapframe, files, inode) are
    addresses, [0] being null; [name] is the [char] array.  The saved
    register context and the kernel stack address are not represented. *)
Record proc : Type := mkProc {
  lock : bool;
  state : procstate;
  chan : chan_t;
  killed : Z;
  xstate : Z;
  pid : Z;
  parent : option nat;
  sz : Z;
  pagetable : Z;
  trapframe : Z;
  ofile : list Z;
  cwd : Z;
  name : list Z;
  Trace : Z;
  rtime : Z;
  etime : Z;
  ctime : Z;
  (* FCFS, PBS *)
  start_time : Z;
  (* PBS *)
  Static_priority : Z;
  Times_scheduled : Z;
  running_time : Z;
  sleeping_time : Z;
  (* MLFQ *)
  priority_number : Z;
  time_added : Z;
  no_of_ticks : Z;
  No_times : Z
}.

(** Calls into the collaborators (memory, file system) and the entries of
    [wakeup], in the order they happen. *)
Inductive event : Type :=
| EKfree (pa : Z)
| EFreePagetable (pt : Z) (size : Z)
| ECopyout (pt : Z) (dst : Z) (val : Z)
| EFileclose (f : Z)
| EBeginOp
| EIput (ip : Z)
| EEndOp
| EWakeup (c : chan_t).

(** The globals of [proc.c], the tick counter, and this CPU's [struct cpu]:
    [cpu_proc] is [c->proc], [intena] the saved interrupt state that [sched]
    carries over a switch, [intr] whether interrupts have been switched on. *)
Record kstate : Type := mkKstate {
  procs : list proc;
  initproc : option nat;
  nextpid : Z;
  ticks : Z;
  wait_lock : bool;
  pid_lock : bool;
  cpu_proc : option nat;
  intena : bool;
  intr : bool;
  klog : list event
}.

Definition NPROC (s : kstate) : nat := length (procs s).

(** Field assignments. *)
Definition set_lock (v : bool) (p : proc) : proc :=
  mkProc v (state p) (chan p) (killed p) (xstate p) (pid p) (parent p) (sz p)
    (pagetable p) (trapframe p) (ofile p) (cwd p) (name p) (Trace p) (rtime p) (etime p)
    (ctime p) (start_time p) (Static_priority p) (Times_scheduled p) (running_time p)
    (sleeping_time p) (priority_number p) (time_added p) (no_of_ticks p) (No_times p).
Definition set_state (v : procstate) (p : proc) : proc :=
  mkProc (lock p) v (chan p) (killed p) (xstate p) (pid p) (parent p) (sz p)
    (pagetable p) (trapframe p) (ofile p) (cwd p) (name p) (Trace p) (rtime p) (etime p)
    (ctime p) (start_time p) (Static_priority p) (Times_scheduled p) (running_time p)
    (sleeping_time p) (priority_number p) (time_added p) (no_of_ticks p) (No_times p).
Definition set_chan (v : chan_t) (p : proc) : proc :=
  mkProc (lock p) (state p) v (killed p) (xstate p) (pid p) (parent p) (sz p)
    (pagetable p) (trapframe p) (ofile p) (cwd p) (name p) (Trace p) (rtime p) (etime p)
    (ctime p) (start_time p) (Static_priority p) (Times_scheduled p) (running_time p)
    (sleeping_time p) (priority_number p) (time_added p) (no_of_ticks p) (No_times p).
Definition set_killed (v : Z) (p : proc) : proc :=
  mkProc (lock p) (state p) (chan p) v (xstate p) (pid p) (parent p) (sz p)
    (pagetable p) (trapframe p) (ofile p) (cwd p) (name p) (Trace p) (rtime p) (etime p)
    (ctime p) (start_time p) (Static_priority p) (Times_scheduled p) (running_time p)
    (sleeping_time p) (priority_number p) (time_added p) (no_of_ticks p) (No_times p).
Definition set_xstate (v : Z) (p : proc) : proc :=
  mkProc (lock p) (state p) (chan p) (killed p) v (pid p) (parent p) (sz p)
    (pagetable p) (trapframe p) (ofile p) (cwd p) (name p) (Trace p) (rtime p) (etime p)
    (ctime p) (start_time p) (Static_priority p) (Times_scheduled p) (running_time p)
    (sleeping_time p) (priority_number p) (time_added p) (no_of_ticks p) (No_times p).
Definition set_pid (v : Z) (p : proc) : proc :=
  mkProc (lock p) (state p) (chan p) (killed p) (xstate p) v (parent p) (sz p)
    (pagetable p) (trapframe p) (ofile p) (cwd p) (name p) (Trace p) (rtime p) (etime p)
    (ctime p) (start_time p) (Static_priority p) (Times_scheduled p) (running_time p)
    (sleeping_time p) (priority_number p) (time_added p) (no_of_ticks p) (No_times p).
Definition set_parent (v : option nat) (p : proc) : proc :=
  mkProc (lock p) (state p) (chan p) (killed p) (xstate p) (pid p) v (sz p)
    (pagetable p) (trapframe p) (ofile p) (cwd p) (name p) (Trace p) (rtime p) (etime p)
    (ctime p) (start_time p) (Static_priority p) (Times_scheduled p) (running_time p)
    (sleeping_time p) (priority_number p) (time_added p) (no_of_ticks p) (No_times p).
Definition set_sz (v : Z) (p : proc) : proc :=
  mkProc (lock p) (state p) (chan p) (killed p) (xstate p) (pid p) (parent p) v
    (pagetable p) (trapframe p) (ofile p) (cwd p) (name p) (Trace p) (rtime p) (etime p)
    (ctime p) (start_time p) (Static_priority p) (Times_scheduled p) (running_time p)
    (sleeping_time p) (priority_number p) (time_added p) (no_of_ticks p) (No_times p).
Definition set_pagetable (v : Z) (p : proc) : proc :=
  mkProc (lock p) (state p) (chan p) (killed p) (xstate p) (pid p) (parent p) (sz p) v
    (trapframe p) (ofile p) (cwd p) (name p) (Trace p) (rtime p) (etime p) (ctime p)
    (start_time p) (Static_priority p) (Times_scheduled p) (running_time p)
    (sleeping_time p) (priority_number p) (time_added p) (no_of_ticks p) (No_times p).
Definition set_trapframe (v : Z) (p : proc) : proc :=
  mkProc (lock p) (state p) (chan p) (killed p) (xstate p) (pid p) (parent p) (sz p)
    (pagetable p) v (ofile p) (cwd p) (name p) (Trace p) (rtime p) (etime p) (ctime p)
    (start_time p) (Static_priority p) (Times_scheduled p) (running_time p)
    (sleeping_time p) (priority_number p) (time_added p) (no_of_ticks p) (No_times p).
Definition set_ofile (v : list Z) (p : proc) : proc :=
  mkProc (lock p) (state p) (chan p) (killed p) (xstate p) (pid p) (parent p) (sz p)
    (pagetable p) (trapframe p) v (cwd p) (name p) (Trace p) (rtime p) (etime p)
    (ctime p) (start_time p) (Static_priority p) (Times_scheduled p) (running_time p)
    (sleeping_time p) (priority_number p) (time_added p) (no_of_ticks p) (No_times p).
Definition set_cwd (v : Z) (p : proc) : proc :=
  mkProc (lock p) (state p) (chan p) (killed p) (xstate p) (pid p) (parent p) (sz p)
    (pagetable p) (trapframe p) (ofile p) v (name p) (Trace p) (rtime p) (etime p)
    (ctime p) (start_time p) (Static_priority p) (Times_scheduled p) (running_time p)
    (sleeping_time p) (priority_number p) (time_added p) (no_of_ticks p) (No_times p).
Definition set_name (v : list Z) (p : proc) : proc :=
  mkProc (lock p) (state p) (chan p) (killed p) (xstate p) (pid p) (parent p) (sz p)
    (pagetable p) (trapframe p) (ofile p) (cwd p) v (Trace p) (rtime p) (etime p)
    (ctime p) (start_time p) (Static_priority p) (Times_scheduled p) (running_time p)
    (sleeping_time p) (priority_number p) (time_added p) (no_of_ticks p) (No_times p).
Definition set_Trace (v : Z) (p : proc) : proc :=
  mkProc (lock p) (state p) (chan p) (killed p) (xstate p) (pid p) (parent p) (sz p)
    (pagetable p) (trapframe p) (ofile p) (cwd p) (name p) v (rtime p) (etime p)
    (ctime p) (start_time p) (Static_priority p) (Times_scheduled p) (running_time p)
    (sleeping_time p) (priority_number p) (time_added p) (no_of_ticks p) (No_times p).
Definition set_rtime (v : Z) (p : proc) : proc :=
  mkProc (lock p) (state p) (chan p) (killed p) (xstate p) (pid p) (parent p) (sz p)
    (pagetable p) (trapframe p) (ofile p) (cwd p) (name p) (Trace p) v (etime p)
    (ctime p) (start_time p) (Static_priority p) (Times_scheduled p) (running_time p)
    (sleeping_time p) (priority_number p) (time_added p) (no_of_ticks p) (No_times p).
Definition set_etime (v : Z) (p : proc) : proc :=
  mkProc (lock p) (state p) (chan p) (killed p) (xstate p) (pid p) (parent p) (sz p)
    (pagetable p) (trapframe p) (ofile p) (cwd p) (name p) (Trace p) (rtime p) v
    (ctime p) (start_time p) (Static_priority p) (Times_scheduled p) (running_time p)
    (sleeping_time p) (priority_number p) (time_added p) (no_of_ticks p) (No_times p).
Definition set_ctime (v : Z) (p : proc) : proc :=
  mkProc (lock p) (state p) (chan p) (killed p) (xstate p) (pid p) (parent p) (sz p)
    (pagetable p) (trapframe p) (ofile p) (cwd p) (name p) (Trace p) (rtime p) (etime p)
    v (start_time p) (Static_priority p) (Times_scheduled p) (running_time p)
    (sleeping_time p) (priority_number p) (time_added p) (no_of_ticks p) (No_times p).
Definition set_start_time (v : Z) (p : proc) : proc :=
  mkProc (lock p) (state p) (chan p) (killed p) (xstate p) (pid p) (parent p) (sz p)
    (pagetable p) (trapframe p) (ofile p) (cwd p) (name p) (Trace p) (rtime p) (etime p)
    (ctime p) v (Static_priority p) (Times_scheduled p) (running_time p)
    (sleeping_time p) (priority_number p) (time_added p) (no_of_ticks p) (No_times p).
Definition set_Static_priority (v : Z) (p : proc) : proc :=
  mkProc (lock p) (state p) (chan p) (killed p) (xstate p) (pid p) (parent p) (sz p)
    (pagetable p) (trapframe p) (ofile p) (cwd p) (name p) (Trace p) (rtime p) (etime p)
    (ctime p) (start_time p) v (Times_scheduled p) (running_time p) (sleeping_time p)
    (priority_number p) (time_added p) (no_of_ticks p) (No_times p).
Definition set_Times_scheduled (v : Z) (p : proc) : proc :=
  mkProc (lock p) (state p) (chan p) (killed p) (xstate p) (pid p) (parent p) (sz p)
    (pagetable p) (trapframe p) (ofile p) (cwd p) (name p) (Trace p) (rtime p) (etime p)
    (ctime p) (start_time p) (Static_priority p) v (running_time p) (sleeping_time p)
    (priority_number p) (time_added p) (no_of_ticks p) (No_times p).
Definition set_running_time (v : Z) (p : proc) : proc :=
  mkProc (lock p) (state p) (chan p) (killed p) (xstate p) (pid p) (parent p) (sz p)
    (pagetable p) (trapframe p) (ofile p) (cwd p) (name p) (Trace p) (rtime p) (etime p)
    (ctime p) (start_time p) (Static_priority p) (Times_scheduled p) v (sleeping_time p)
    (priority_number p) (time_added p) (no_of_ticks p) (No_times p).
Definition set_sleeping_time (v : Z) (p : proc) : proc :=
  mkProc (lock p) (state p) (chan p) (killed p) (xstate p) (pid p) (parent p) (sz p)
    (pagetable p) (trapframe p) (ofile p) (cwd p) (name p) (Trace p) (rtime p) (etime p)
    (ctime p) (start_time p) (Static_priority p) (Times_scheduled p) (running_time p) v
    (priority_number p) (time_added p) (no_of_ticks p) (No_times p).
Definition set_priority_number (v : Z) (p : proc) : proc :=
  mkProc (lock p) (state p) (chan p) (killed p) (xstate p) (pid p) (parent p) (sz p)
    (pagetable p) (trapframe p) (ofile p) (cwd p) (name p) (Trace p) (rtime p) (etime p)
    (ctime p) (start_time p) (Static_priority p) (Times_scheduled p) (running_time p)
    (sleeping_time p) v (time_added p) (no_of_ticks p) (No_times p).
Definition set_time_added (v : Z) (p : proc) : proc :=
  mkProc (lock p) (state p) (chan p) (killed p) (xstate p) (pid p) (parent p) (sz p)
    (pagetable p) (trapframe p) (ofile p) (cwd p) (name p) (Trace p) (rtime p) (etime p)
    (ctime p) (start_time p) (Static_priority p) (Times_scheduled p) (running_time p)
    (sleeping_time p) (priority_number p) v (no_of_ticks p) (No_times p).
Definition set_no_of_ticks (v : Z) (p : proc) : proc :=
  mkProc (lock p) (state p) (chan p) (killed p) (xstate p) (pid p) (parent p) (sz p)
    (pagetable p) (trapframe p) (ofile p) (cwd p) (name p) (Trace p) (rtime p) (etime p)
    (ctime p) (start_time p) (Static_priority p) (Times_scheduled p) (running_time p)
    (sleeping_time p) (priority_number p) (time_added p) v (No_times p).
Definition set_No_times (v : Z) (p : proc) : proc :=
  mkProc (lock p) (state p) (chan p) (killed p) (xstate p) (pid p) (parent p) (sz p)
    (pagetable p) (trapframe p) (ofile p) (cwd p) (name p) (Trace p) (rtime p) (etime p)
    (ctime p) (start_time p) (Static_priority p) (Times_scheduled p) (running_time p)
    (sleeping_time p) (priority_number p) (time_added p) (no_of_ticks p) v.

Definition set_procs (v : list proc) (s : kstate) : kstate :=
  mkKstate v (initproc s) (nextpid s) (ticks s) (wait_lock s) (pid_lock s)
    (cpu_proc s) (intena s) (intr s) (klog s).
Definition set_initproc (v : option nat) (s : kstate) : kstate :=
  mkKstate (procs s) v (nextpid s) (ticks s) (wait_lock s) (pid_lock s) (cpu_proc s)
    (intena s) (intr s) (klog s).
Definition set_nextpid (v : Z) (s : kstate) : kstate :=
  mkKstate (procs s) (initproc s) v (ticks s) (wait_lock s) (pid_lock s) (cpu_proc s)
    (intena s) (intr s) (klog s).
Definition set_ticks (v : Z) (s : kstate) : kstate :=
  mkKstate (procs s) (initproc s) (nextpid s) v (wait_lock s) (pid_lock s)
    (cpu_proc s) (intena s) (intr s) (klog s).
Definition set_wait_lock (v : bool) (s : kstate) : kstate :=
  mkKstate (procs s) (initproc s) (nextpid s) (ticks s) v (pid_lock s) (cpu_proc s)
    (intena s) (intr s) (klog s).
Definition set_pid_lock (v : bool) (s : kstate) : kstate :=
  mkKstate (procs s) (initproc s) (nextpid s) (ticks s) (wait_lock s) v (cpu_proc s)
    (intena s) (intr s) (klog s).
Definition set_cpu_proc (v : option nat) (s : kstate) : kstate :=
  mkKstate (procs s) (initproc s) (nextpid s) (ticks s) (wait_lock s) (pid_lock s) v
    (intena s) (intr s) (klog s).
Definition set_intena (v : bool) (s : kstate) : kstate :=
  mkKstate (procs s) (initproc s) (nextpid s) (ticks s) (wait_lock s) (pid_lock s)
    (cpu_proc s) v (intr s) (klog s).
Definition set_intr (v : bool) (s : kstate) : kstate :=
  mkKstate (procs s) (initproc s) (nextpid s) (ticks s) (wait_lock s) (pid_lock s)
    (cpu_proc s) (intena s) v (klog s).
Definition set_klog (v : list event) (s : kstate) : kstate :=
  mkKstate (procs s) (initproc s) (nextpid s) (ticks s) (wait_lock s) (pid_lock s)
    (cpu_proc s) (intena s) (intr s) v.

(** [proc[i].field = ...] *)
Definition upd (i : nat) (f : proc -> proc) (s : kstate) : kstate :=
  set_procs (alter f i (procs s)) s.

(** The event [e] happens. *)
Definition log (e : event) (s : kstate) : kstate := set_klog (klog s ++ [e]) s.

(** ** Outcomes of kernel code

    A routine either returns, stops the kernel, or reaches [swtch]: control
    leaves for the other context, and the continuation is what runs if that
    context ever switches back.  The kernel stops on [panic], on a null or
    wild pointer, on a division C gives no meaning to, and (in this model
    only) when a loop without bound has used up its fuel. *)
Inductive stop : Type :=
| PanicMsg (msg : string)
| Fault
| DivByZero
| OutOfFuel.

Inductive run (A : Type) : Type :=
| Ret (a : A) (s : kstate)
| Stop (why : stop) (s : kstate)
| Swtch (s : kstate) (k : kstate -> run A).
Arguments Ret {A} a s.
Arguments Stop {A} why s.
Arguments Swtch {A} s k.

(** [r] is an outcome in which the routine comes back to its caller, now or
    after some resumption of a context switch. *)
Inductive may_return {A : Type} : run A -> Prop :=
| may_return_now (a : A) (s : kstate) : may_return (Ret a s)
| may_return_later (s : kstate) (k : kstate -> run A) (s' : kstate) :
    may_return (k s') -> may_return (Swtch s k).

Definition M (A : Type) : Type := kstate -> run A.

Definition ret {A} (a : A) : M A := fun s => Ret a s.

Fixpoint run_bind {A B} (r : run A) (f : A -> M B) : run B :=
  match r with
  | Ret a s => f a s
  | Stop why s => Stop why s
  | Swtch s k => Swtch s (fun s' => run_bind (k s') f)
  end.

Definition bind {A B} (m : M A) (f : A -> M B) : M B :=
  fun s => run_bind (m s) f.

Declare Scope kern_scope.
Delimit Scope kern_scope with kern.
Notation "x <- c ;; k" := (bind c (fun x => k))
  (at level 100, c at next level, right associativity) : kern_scope.
Notation "c ;;; k" := (bind c (fun _ => k))
  (at level 100, right associativity) : kern_scope.
Local Open Scope kern_scope.

Definition get : M kstate := fun s => Ret s s.
Definition modify (f : kstate -> kstate) : M unit := fun s => Ret tt (f s).
Definition halt {A} (why : stop) : M A := fun s => Stop why s.
Definition panic {A} (msg : string) : M A := halt (PanicMsg msg).
Definition swtch : M unit := fun s => Swtch s (fun s' => Ret tt s').
Definition when (b : bool) (m : M unit) : M unit := if b then m else ret tt.
Definition emit (e : event) : M unit := modify (log e).

(** [*p] for a pointer into the table; a null or wild pointer faults. *)
Definition deref (p : option nat) : M nat :=
  fun s => match p with
           | Some i => if decide (i < NPROC s)%nat then Ret i s else Stop Fault s
           | None => Stop Fault s
           end.

Definition getp (i : nat) : M proc :=
  fun s => match procs s !! i with
           | Some p => Ret p s
           | None => Stop Fault s
           end.

Definition setp (i : nat) (f : proc -> proc) : M unit := modify (upd i f).

(** A counting loop [for(i = lo; i < lo + n; i++)] with loop-carried locals
    [st]; the body answers [inl st'] to go on and [inr v] to leave the loop
    early with [v] ([break], [return], [goto]). *)
Fixpoint for_loop {St R} (body : nat -> St -> M (St + R)) (i n : nat) (st : St)
  : M (St + R) :=
  match n with
  | O => ret (inl st)
  | S n' =>
      r <- body i st ;;
      match r with
      | inl st' => for_loop body (S i) n' st'
      | inr v => ret (inr v)
      end
  end.

(** ** Spinlocks and interrupt bookkeeping *)

Inductive lockid : Type :=
| WaitLock
| PidLock
| ProcLock (i : nat).

Definition holding (l : lockid) (s : kstate) : bool :=
  match l with
  | WaitLock => wait_lock s
  | PidLock => pid_lock s
  | ProcLock i => match procs s !! i with Some p => lock p | None => false end
  end.

Definition set_held (l : lockid) (b : bool) (s : kstate) : kstate :=
  match l with
  | WaitLock => set_wait_lock b s
  | PidLock => set_pid_lock b s
  | ProcLock i => upd i (set_lock b) s
  end.

(** Modelled from the spec: [spinlock.c] is not part of the sources.  A lock
    is a mutual-exclusion bit; on this CPU a lock that is held cannot be taken
    again and a lock that is free cannot be released: the kernel stops. *)
Definition acquire (l : lockid) : M unit :=
  s <- get ;;
  if holding l s then panic "acquire"
  else modify (set_held l true).

Definition release (l : lockid) : M unit :=
  s <- get ;;
  if negb (holding l s) then panic "release"
  else modify (set_held l false).

(** Modelled from the spec: every lock held is one nesting level of
    interrupt masking, so the nesting level that [sched] inspects
    ([mycpu()->noff]) is the number of locks this CPU holds, and interrupts
    are delivered only when they have been switched on and no lock is held. *)
Definition noff (s : kstate) : Z :=
  Z.b2z (wait_lock s) + Z.b2z (pid_lock s)
  + Z.of_nat (length (filter (fun p => lock p = true) (procs s))).

Definition intr_on : M unit := modify (set_intr true).
Definition intr_get : M bool := s <- get ;; ret (intr s && (noff s =? 0)).

(** ** The routines of proc.c *)

Inductive policy : Type := DEFAULT | FCFS | PBS | MLFQ.

(** [myproc]: the current [struct proc *], or null if none (its
    [push_off]/[pop_off] pair leaves the nesting level as it was). *)
Definition myproc : M (option nat) :=
  s <- get ;;
  ret (cpu_proc s).

(** [freeproc]: the collaborators' [kfree] and [proc_freepagetable] are
    recorded as events. *)
Definition freeproc (p : nat) : M unit :=
  q <- getp p ;;
  when (negb (trapframe q =? 0)) (emit (EKfree (trapframe q))) ;;;
  setp p (set_trapframe 0) ;;;
  q <- getp p ;;
  when (negb (pagetable q =? 0)) (emit (EFreePagetable (pagetable q) (sz q))) ;;;
  setp p (set_pagetable 0) ;;;
  setp p (set_sz 0) ;;;
  setp p (set_pid 0) ;;;
  setp p (set_parent None) ;;;
  setp p (fun q => set_name (<[0%nat := 0]> (name q)) q) ;;;
  setp p (set_chan CNull) ;;;
  setp p (set_killed 0) ;;;
  setp p (set_xstate 0) ;;;
  setp p (set_state UNUSED).

(** [sched]: switch to the scheduler; the four checks are fatal. *)
Definition sched : M unit :=
  me <- myproc ;;
  p <- deref me ;;
  s <- get ;;
  if negb (holding (ProcLock p) s) then panic "sched p->lock"
  else if negb (noff s =? 1) then panic "sched locks"
  else
    q <- getp p ;;
    if decide (state q = RUNNING) then panic "sched running"
    else
      i <- intr_get ;;
      if i then panic "sched interruptible"
      else
        let intena0 := intena s in
        swtch ;;;
        modify (set_intena intena0).

Definition yield : M unit :=
  me <- myproc ;;
  p <- deref me ;;
  acquire (ProcLock p) ;;;
  setp p (set_state RUNNABLE) ;;;
  sched ;;;
  release (ProcLock p).

Section Kernel.

(** The scheduling policy the kernel is built with (the [#ifdef]s). *)
Variable pol : policy.

(** [copyout(pagetable, dstva, &value, sizeof value)] of the memory
    collaborator: [0] on success, [-1] on failure. *)
Variable copyout : Z -> Z -> Z -> Z.

(** [sleep]: atomically release [lk] and sleep on [c]; reacquires [lk] when
    awakened. *)
Definition sleep (c : chan_t) (lk : lockid) : M unit :=
  me <- myproc ;;
  p <- deref me ;;
  acquire (ProcLock p) ;;;
  release lk ;;;
  setp p (set_chan c) ;;;
  setp p (set_state SLEEPING) ;;;
  match pol with
  | PBS =>
      s <- get ;;
      setp p (fun q => set_running_time (wrap32 (ticks s - running_time q)) q) ;;;
      setp p (set_sleeping_time (wrap32 (ticks s)))
  | _ => ret tt
  end ;;;
  sched ;;;
  setp p (set_chan CNull) ;;;
  release (ProcLock p) ;;;
  acquire lk.

(** The body of [wakeup]'s loop under the slot's lock. *)
Definition wakeup_slot (c : chan_t) (i : nat) : M unit :=
  q <- getp i ;;
  when (bool_decide (state q = SLEEPING /\ chan q = c))
    (setp i (set_state RUNNABLE) ;;;
     match pol with
     | PBS =>
         s <- get ;;
         setp i (fun q => set_sleeping_time (wrap32 (ticks s - sleeping_time q)) q)
     | MLFQ =>
         s <- get ;;
         setp i (set_time_added (ticks s)) ;;;
         setp i (set_no_of_ticks 0)
     | _ => ret tt
     end).

Definition wakeup_body (c : chan_t) (p : nat) (_ : unit) : M (unit + unit) :=
  me <- myproc ;;
  if decide (Some p = me) then ret (inl tt)
  else
    acquire (ProcLock p) ;;;
    wakeup_slot c p ;;;
    release (ProcLock p) ;;;
    ret (inl tt).

(** [wakeup]: wake up all processes sleeping on [c]. *)
Definition wakeup (c : chan_t) : M unit :=
  emit (EWakeup c) ;;;
  s <- get ;;
  for_loop (wakeup_body c) 0 (NPROC s) tt ;;;
  ret tt.

Definition kill_body (pid0 : Z) (p : nat) (_ : unit) : M (unit + Z) :=
  acquire (ProcLock p) ;;;
  q <- getp p ;;
  if pid q =? pid0 then
    setp p (set_killed 1) ;;;
    when (bool_decide (state q = SLEEPING)) (setp p (set_state RUNNABLE)) ;;;
    release (ProcLock p) ;;;
    ret (inr 0)
  else
    release (ProcLock p) ;;;
    ret (inl tt).

(** [kill]: [0] when a slot carries [pid], [-1] otherwise. *)
Definition kill (pid0 : Z) : M Z :=
  s <- get ;;
  r <- for_loop (kill_body pid0) 0 (NPROC s) tt ;;
  match r with
  | inr v => ret v
  | inl _ => ret (-1)
  end.

Definition reparent_body (p : option nat) (pp : nat) (_ : unit) : M (unit + unit) :=
  q <- getp pp ;;
  if decide (parent q = p) then
    s <- get ;;
    setp pp (set_parent (initproc s)) ;;;
    wakeup (chan_of (initproc s)) ;;;
    ret (inl tt)
  else ret (inl tt).

(** [reparent]: pass [p]'s abandoned children to init. *)
Definition reparent (p : option nat) : M unit :=
  s <- get ;;
  for_loop (reparent_body p) 0 (NPROC s) tt ;;;
  ret tt.

Definition close_files_body (p : nat) (fd : nat) (_ : unit) : M (unit + unit) :=
  q <- getp p ;;
  match ofile q !! fd with
  | Some f =>
      when (negb (f =? 0))
        (emit (EFileclose f) ;;;
         setp p (fun q => set_ofile (<[fd := 0]> (ofile q)) q))
  | None => halt Fault
  end ;;;
  ret (inl tt).

(** The file loop of [exit] ([NOFILE] is the length of [ofile]);
    [fileclose] is the file collaborator's. *)
Definition close_files (p : nat) : M unit :=
  q <- getp p ;;
  for_loop (close_files_body p) 0 (length (ofile q)) tt ;;;
  ret tt.

(** [exit]: the result type is the one of a C function that could return. *)
Definition exit (status : Z) : M unit :=
  me <- myproc ;;
  s <- get ;;
  if decide (me = initproc s) then panic "init exiting"
  else
    p <- deref me ;;
    close_files p ;;;
    emit EBeginOp ;;;
    q <- getp p ;;
    emit (EIput (cwd q)) ;;;
    emit EEndOp ;;;
    setp p (set_cwd 0) ;;;
    acquire WaitLock ;;;
    reparent me ;;;
    q <- getp p ;;
    wakeup (chan_of (parent q)) ;;;
    acquire (ProcLock p) ;;;
    setp p (set_xstate status) ;;;
    setp p (set_state ZOMBIE) ;;;
    s <- get ;;
    setp p (set_etime (ticks s)) ;;;
    release WaitLock ;;;
    sched ;;;
    panic "zombie exit".

(** The test [addr != 0 && copyout(p->pagetable, addr, &np->xstate, ...) < 0]
    of [wait] and [waitx]; a successful copy is recorded. *)
Definition copy_status_fails (me : option nat) (addr : Z) (np : proc) : M bool :=
  if addr =? 0 then ret false
  else
    p <- deref me ;;
    q <- getp p ;;
    let r := copyout (pagetable q) addr (xstate np) in
    when (negb (r <? 0)) (emit (ECopyout (pagetable q) addr (xstate np))) ;;;
    ret (r <? 0).

Definition wait_body (me : option nat) (addr : Z) (i : nat) (havekids : Z)
  : M (Z + Z) :=
  np <- getp i ;;
  if decide (parent np = me) then
    acquire (ProcLock i) ;;;
    np <- getp i ;;
    if decide (state np = ZOMBIE) then
      let pid0 := pid np in
      bad <- copy_status_fails me addr np ;;
      if bad then
        release (ProcLock i) ;;;
        release WaitLock ;;;
        ret (inr (-1))
      else
        freeproc i ;;;
        release (ProcLock i) ;;;
        release WaitLock ;;;
        ret (inr pid0)
    else
      release (ProcLock i) ;;;
      ret (inl 1)
  else ret (inl havekids).

(** One scan of the table by [wait]: [inl havekids], or [inr v] when the
    function returned [v] from inside the scan. *)
Definition wait_scan (me : option nat) (addr : Z) : M (Z + Z) :=
  s <- get ;;
  for_loop (wait_body me addr) 0 (NPROC s) 0.

(** The test [!havekids || p->killed]. *)
Definition no_point_waiting (me : option nat) (havekids : Z) : M bool :=
  if havekids =? 0 then ret true
  else
    p <- deref me ;;
    q <- getp p ;;
    ret (negb (killed q =? 0)).

(** The [for(;;)] of [wait]: each turn of the loop that does not return ends
    in [sleep]; [fuel] bounds the number of turns. *)
Fixpoint wait_loop (fuel : nat) (me : option nat) (addr : Z) : M Z :=
  match fuel with
  | O => halt OutOfFuel
  | S fuel' =>
      r <- wait_scan me addr ;;
      match r with
      | inr v => ret v
      | inl havekids =>
          stop_waiting <- no_point_waiting me havekids ;;
          if stop_waiting then
            release WaitLock ;;;
            ret (-1)
          else
            sleep (chan_of me) WaitLock ;;;
            wait_loop fuel' me addr
      end
  end.

Definition wait (fuel : nat) (addr : Z) : M Z :=
  me <- myproc ;;
  acquire WaitLock ;;;
  wait_loop fuel me addr.

(** [waitx]: as [wait]; [out] is the contents of [*rtime] and [*wtime]. *)
Definition waitx_body (me : option nat) (addr : Z) (i : nat) (st : Z * (Z * Z))
  : M ((Z * (Z * Z)) + (Z * (Z * Z))) :=
  let '(havekids, out) := st in
  np <- getp i ;;
  if decide (parent np = me) then
    acquire (ProcLock i) ;;;
    np <- getp i ;;
    if decide (state np = ZOMBIE) then
      let pid0 := pid np in
      let out := (rtime np, wrapu32 (etime np - ctime np - rtime np)) in
      bad <- copy_status_fails me addr np ;;
      if bad then
        release (ProcLock i) ;;;
        release WaitLock ;;;
        ret (inr (-1, out))
      else
        freeproc i ;;;
        release (ProcLock i) ;;;
        release WaitLock ;;;
        ret (inr (pid0, out))
    else
      release (ProcLock i) ;;;
      ret (inl (1, out))
  else ret (inl (havekids, out)).

Definition waitx_scan (me : option nat) (addr : Z) (out : Z * Z)
  : M ((Z * (Z * Z)) + (Z * (Z * Z))) :=
  s <- get ;;
  for_loop (waitx_body me addr) 0 (NPROC s) (0, out).

Fixpoint waitx_loop (fuel : nat) (me : option nat) (addr : Z) (out : Z * Z)
  : M (Z * (Z * Z)) :=
  match fuel with
  | O => halt OutOfFuel
  | S fuel' =>
      r <- waitx_scan me addr out ;;
      match r with
      | inr v => ret v
      | inl (havekids, out) =>
          stop_waiting <- no_point_waiting me havekids ;;
          if stop_waiting then
            release WaitLock ;;;
            ret (-1, out)
          else
            sleep (chan_of me) WaitLock ;;;
            waitx_loop fuel' me addr out
      end
  end.

Definition waitx (fuel : nat) (addr : Z) (out : Z * Z) : M (Z * (Z * Z)) :=
  me <- myproc ;;
  acquire WaitLock ;;;
  waitx_loop fuel me addr out.


(** *** Round robin (DEFAULT) *)

(** One slot of the scan of the DEFAULT [scheduler]: a RUNNABLE slot is
    switched to; when it switches back [c->proc] is cleared before the
    slot's lock is released. *)
Definition scheduler_DEFAULT_body (p : nat) (_ : unit) : M (unit + unit) :=
  acquire (ProcLock p) ;;;
  q <- getp p ;;
  when (bool_decide (state q = RUNNABLE))
    (setp p (set_state RUNNING) ;;;
     modify (set_cpu_proc (Some p)) ;;;
     swtch ;;;
     modify (set_cpu_proc None)) ;;;
  release (ProcLock p) ;;;
  ret (inl tt).

(** One turn of the [for(;;)] of the DEFAULT [scheduler]. *)
Definition scheduler_DEFAULT : M unit :=
  intr_on ;;;
  s <- get ;;
  for_loop scheduler_DEFAULT_body 0 (NPROC s) tt ;;;
  ret tt.

(** *** Priority-based scheduling (PBS) *)

(** The niceness of [PSBPriority]; [None] when the division has a zero
    divisor. *)
Definition niceness (p : proc) : option Z :=
  if bool_decide (sleeping_time p = -1 /\ running_time p = -1) then Some 5
  else int_div (wrap32 (sleeping_time p * 10))
               (wrap32 (running_time p + sleeping_time p)).

Definition PSBPriority (p : proc) : option Z :=
  match niceness p with
  | None => None
  | Some niceness =>
      let Value := wrap32 (wrap32 (Static_priority p - niceness) + 5) in
      if Value >? 100 then Some 100
      else if Value <? 0 then Some 0
      else Some Value
  end.

(** [PcbCompare]: positive if [q] is to run before [p]. *)
Definition PcbCompare (p q : proc) : option Z :=
  match PSBPriority p, PSBPriority q with
  | Some p_priority, Some q_priority =>
      Some (if p_priority <? q_priority then -1
            else if p_priority >? q_priority then 1
            else if Times_scheduled p >? Times_scheduled q then 1
            else if Times_scheduled q >? Times_scheduled p then -1
            else if start_time p <? start_time q then -1
            else if start_time q <? start_time p then 1
            else -1)
  | _, _ => None
  end.

Definition scheduler_PBS_body (p : nat) (st : Z * option nat)
  : M ((Z * option nat) + unit) :=
  let '(intialized, ToBeScheduled) := st in
  acquire (ProcLock p) ;;;
  q <- getp p ;;
  if decide (state q = RUNNABLE) then
    if intialized =? -1 then ret (inl (0, Some p))
    else
      t <- deref ToBeScheduled ;;
      tq <- getp t ;;
      match PcbCompare tq q with
      | None => halt DivByZero
      | Some c =>
          if c >? 0 then
            release (ProcLock t) ;;;
            ret (inl (intialized, Some p))
          else
            release (ProcLock p) ;;;
            ret (inl (intialized, ToBeScheduled))
      end
  else
    release (ProcLock p) ;;;
    ret (inl (intialized, ToBeScheduled)).

(** One turn of the [while(1)] of the PBS [scheduler]; [ToBeScheduled] is the
    local that outlives the turn. *)
Definition scheduler_PBS (ToBeScheduled : option nat) : M (option nat) :=
  modify (set_cpu_proc None) ;;;
  intr_on ;;;
  s <- get ;;
  r <- for_loop scheduler_PBS_body 0 (NPROC s) (-1, ToBeScheduled) ;;
  match r with
  | inr _ => ret ToBeScheduled
  | inl (intialized, ToBeScheduled) =>
      if intialized =? -1 then ret ToBeScheduled
      else
        t <- deref ToBeScheduled ;;
        setp t (set_state RUNNING) ;;;
        setp t (fun q => set_Times_scheduled (wrap32 (Times_scheduled q + 1)) q) ;;;
        setp t (set_sleeping_time 0) ;;;
        s <- get ;;
        setp t (set_running_time (wrap32 (ticks s))) ;;;
        modify (set_cpu_proc ToBeScheduled) ;;;
        swtch ;;;
        release (ProcLock t) ;;;
        ret ToBeScheduled
  end.

(** The search loop of [set_priority_i]: [inr i] is the [break] at slot
    [i], whose lock stays held. *)
Definition set_priority_body (pid0 : Z) (i : nat) (_ : unit) : M (unit + nat) :=
  acquire (ProcLock i) ;;;
  q <- getp i ;;
  if bool_decide (state q = RUNNABLE \/ state q = SLEEPING) && (pid q =? pid0)
  then ret (inr i)
  else release (ProcLock i) ;;; ret (inl tt).

(** [set_priority_i]: [10] when the kernel is not built with PBS. *)
Definition set_priority_i (priority pid0 : Z) : M Z :=
  match pol with
  | PBS =>
      if (priority <? 0) || (priority >? 100) then ret 1
      else
        s <- get ;;
        r <- for_loop (set_priority_body pid0) 0 (NPROC s) tt ;;
        match r with
        | inl _ => ret 2
        | inr i =>
            q <- getp i ;;
            let Ppid := pid q in
            if Ppid =? -1 then ret 2
            else
              let old_priority := Static_priority q in
              setp i (set_Static_priority priority) ;;;
              setp i (set_running_time (-1)) ;;;
              setp i (set_sleeping_time (-1)) ;;;
              release (ProcLock i) ;;;
              when (priority >? old_priority) yield ;;;
              ret old_priority
        end
  | _ => ret 10
  end.

(** *** First come, first served (FCFS) *)

Definition scheduler_FCFS_body (p : nat) (st : Z * option nat)
  : M ((Z * option nat) + unit) :=
  let '(First_start, ToBeScheduled) := st in
  acquire (ProcLock p) ;;;
  q <- getp p ;;
  if decide (state q = RUNNABLE) then
    if First_start =? -1 then ret (inl (start_time q, Some p))
    else if start_time q <? First_start then
      t <- deref ToBeScheduled ;;
      release (ProcLock t) ;;;
      ret (inl (start_time q, Some p))
    else
      release (ProcLock p) ;;;
      ret (inl (First_start, ToBeScheduled))
  else
    release (ProcLock p) ;;;
    ret (inl (First_start, ToBeScheduled)).

(** One turn of the [while(1)] of the FCFS [scheduler]; [ToBeScheduled] is
    the local that outlives the turn. *)
Definition scheduler_FCFS (ToBeScheduled : option nat) : M (option nat) :=
  modify (set_cpu_proc None) ;;;
  intr_on ;;;
  s <- get ;;
  r <- for_loop scheduler_FCFS_body 0 (NPROC s) (-1, ToBeScheduled) ;;
  match r with
  | inr _ => ret ToBeScheduled
  | inl (First_start, ToBeScheduled) =>
      if First_start =? -1 then ret ToBeScheduled
      else
        t <- deref ToBeScheduled ;;
        setp t (set_state RUNNING) ;;;
        modify (set_cpu_proc ToBeScheduled) ;;;
        swtch ;;;
        release (ProcLock t) ;;;
        ret ToBeScheduled
  end.

(** *** Multi-level feedback queue (MLFQ) *)

Definition Max_wait : list Z := [0; 10; 30; 100; 150].

(** [Max_wait[n]]; outside the array the read has no meaning. *)
Definition Max_wait_at (n : Z) : M Z :=
  if n <? 0 then halt Fault
  else match Max_wait !! Z.to_nat n with
       | Some w => ret w
       | None => halt Fault
       end.

Definition UpgradePolicy_body (p : nat) (_ : unit) : M (unit + unit) :=
  q <- getp p ;;
  if bool_decide (state q = RUNNABLE /\ priority_number q <> 0) then
    w <- Max_wait_at (priority_number q) ;;
    s <- get ;;
    when (wrapu32 (ticks s - time_added q) >? w)
      (setp p (set_time_added (ticks s)) ;;;
       setp p (fun q => set_priority_number (wrap32 (priority_number q - 1)) q)) ;;;
    ret (inl tt)
  else ret (inl tt).

Definition UpgradePolicy : M unit :=
  s <- get ;;
  for_loop UpgradePolicy_body 0 (NPROC s) tt ;;;
  ret tt.

Definition level_body (i : Z) (p : nat) (st : Z * option nat)
  : M ((Z * option nat) + unit) :=
  let '(minimum_time, toSchedule) := st in
  q <- getp p ;;
  if bool_decide (state q = RUNNABLE /\ priority_number q = i) then
    if minimum_time =? 0 then ret (inl (time_added q, Some p))
    else if time_added q <? minimum_time then ret (inl (time_added q, Some p))
    else ret (inl (minimum_time, toSchedule))
  else ret (inl (minimum_time, toSchedule)).

(** The scan of one level [i]: the final [minimum_time] and [toSchedule]. *)
Definition level_scan (i : Z) (toSchedule : option nat) : M (Z * option nat) :=
  s <- get ;;
  r <- for_loop (level_body i) 0 (NPROC s) (0, toSchedule) ;;
  match r with
  | inl v => ret v
  | inr _ => ret (0, toSchedule)
  end.

(** [for(int i = 0; i < 4; i++)]: [inr t] is the [goto Schedu] with
    [toSchedule = t]. *)
Definition levels_body (i : nat) (toSchedule : option nat)
  : M (option nat + option nat) :=
  r <- level_scan (Z.of_nat i) toSchedule ;;
  let '(minimum_time, toSchedule) := r in
  if negb (minimum_time =? 0) then ret (inr toSchedule)
  else ret (inl toSchedule).

Definition levels_scan (toSchedule : option nat) : M (option nat + option nat) :=
  for_loop levels_body 0 4 toSchedule.

(** The round-robin [while(1)]: the slot found and the cursor after it;
    [fuel] bounds the number of turns. *)
Fixpoint round_robin (fuel : nat) (rr_s : nat) : M (nat * nat) :=
  match fuel with
  | O => halt OutOfFuel
  | S fuel' =>
      q <- getp rr_s ;;
      s <- get ;;
      if decide (state q = RUNNABLE) then ret (rr_s, ((rr_s + 1) mod NPROC s)%nat)
      else round_robin fuel' ((rr_s + 1) mod NPROC s)%nat
  end.

(** The label [Schedu]: the switch to [toSchedule]. *)
Definition Schedu (toSchedule : option nat) (rr_s : nat) : M (option nat * nat) :=
  t <- deref toSchedule ;;
  acquire (ProcLock t) ;;;
  modify (set_cpu_proc toSchedule) ;;;
  setp t (set_state RUNNING) ;;;
  setp t (set_time_added 0) ;;;
  setp t (fun q => set_No_times (wrap32 (No_times q + 1)) q) ;;;
  swtch ;;;
  release (ProcLock t) ;;;
  ret (toSchedule, rr_s).

(** One turn of the [for(;;)] of the MLFQ [scheduler]; [toSchedule] and the
    cursor [rr_s] are the locals that outlive the turn. *)
Definition scheduler_MLFQ (fuel : nat) (toSchedule : option nat) (rr_s : nat)
  : M (option nat * nat) :=
  intr_on ;;;
  modify (set_cpu_proc None) ;;;
  UpgradePolicy ;;;
  r <- levels_scan toSchedule ;;
  match r with
  | inr t => Schedu t rr_s
  | inl _ =>
      f <- round_robin fuel rr_s ;;
      Schedu (Some (fst f)) (snd f)
  end.

(** *** Allocation: [allocpid], [allocproc], [fork], [growproc] *)

(** [allocpid]: the next pid, under [pid_lock]. *)
Definition allocpid : M Z :=
  acquire PidLock ;;;
  s <- get ;;
  let pid0 := nextpid s in
  modify (set_nextpid (wrap32 (nextpid s + 1))) ;;;
  release PidLock ;;;
  ret pid0.

(** The search loop of [allocproc]: [inr p] is the [goto found], the lock
    of slot [p] held. *)
Definition allocproc_body (p : nat) (_ : unit) : M (unit + nat) :=
  acquire (ProcLock p) ;;;
  q <- getp p ;;
  if decide (state q = UNUSED) then ret (inr p)
  else release (ProcLock p) ;;; ret (inl tt).

(** [allocproc]: the new slot, its lock held, or null.  [page] is what
    [kalloc()] returns for the trapframe and [pt] what [proc_pagetable(p)]
    returns, [0] being their failure; the saved context that the function
    also sets up is not represented.  [start_time], like the other PBS
    markers, is an [int]. *)
Definition allocproc (page pt : Z) : M (option nat) :=
  s <- get ;;
  r <- for_loop allocproc_body 0 (NPROC s) tt ;;
  match r with
  | inl _ => ret None
  | inr p =>
      pid0 <- allocpid ;;
      setp p (set_pid pid0) ;;;
      setp p (set_state USED) ;;;
      setp p (set_Trace 0) ;;;
      setp p (set_trapframe page) ;;;
      if page =? 0 then
        freeproc p ;;;
        release (ProcLock p) ;;;
        ret None
      else
        setp p (set_pagetable pt) ;;;
        if pt =? 0 then
          freeproc p ;;;
          release (ProcLock p) ;;;
          ret None
        else
          setp p (set_rtime 0) ;;;
          setp p (set_etime 0) ;;;
          s <- get ;;
          setp p (set_ctime (ticks s)) ;;;
          match pol with
          | DEFAULT => ret tt
          | FCFS => setp p (set_start_time (wrap32 (ticks s)))
          | PBS =>
              setp p (set_Static_priority 60) ;;;
              setp p (set_Times_scheduled 0) ;;;
              setp p (set_start_time (wrap32 (ticks s))) ;;;
              setp p (set_running_time (-1)) ;;;
              setp p (set_sleeping_time (-1))
          | MLFQ =>
              setp p (set_priority_number 0) ;;;
              setp p (set_time_added (ticks s)) ;;;
              setp p (set_no_of_ticks 0) ;;;
              setp p (set_No_times 0)
          end ;;;
          ret (Some p)
  end.

(** [update_time]: one tick of run time for every RUNNING process. *)
Definition update_time_body (p : nat) (_ : unit) : M (unit + unit) :=
  acquire (ProcLock p) ;;;
  q <- getp p ;;
  when (bool_decide (state q = RUNNING))
    (setp p (fun q => set_rtime (wrapu32 (rtime q + 1)) q)) ;;;
  release (ProcLock p) ;;;
  ret (inl tt).

Definition update_time : M unit :=
  s <- get ;;
  for_loop update_time_body 0 (NPROC s) tt ;;;
  ret tt.


(** The file loop of [fork]: the child gets a duplicate of every open file
    of the parent; [filedup] is the file collaborator's. *)
Definition fork_files_body (filedup : Z -> Z) (p np : nat) (fd : nat) (_ : unit)
  : M (unit + unit) :=
  q <- getp p ;;
  match ofile q !! fd with
  | Some f =>
      when (negb (f =? 0))
        (setp np (fun x => set_ofile (<[fd := filedup f]> (ofile x)) x))
  | None => halt Fault
  end ;;;
  ret (inl tt).

(** [fork].  [page] and [pt] are what [allocproc]'s collaborators return,
    [copied] is the result of [uvmcopy]; [filedup], [idup] and [safestrcpy]
    (which yields the new contents of its destination) are the
    collaborators'.  The copy of the saved user registers into the child's
    trapframe page and the zero written to its [a0] are stores to the
    collaborator's memory, which is not represented. *)
Definition fork (filedup idup : Z -> Z) (safestrcpy : list Z -> list Z -> list Z)
    (page pt copied : Z) : M Z :=
  me <- myproc ;;
  r <- allocproc page pt ;;
  match r with
  | None => ret (-1)
  | Some np =>
      p <- deref me ;;
      q <- getp p ;;
      if copied <? 0 then
        freeproc np ;;;
        release (ProcLock np) ;;;
        ret (-1)
      else
        setp np (set_sz (sz q)) ;;;
        setp np (set_Trace (Trace q)) ;;;
        for_loop (fork_files_body filedup p np) 0 (length (ofile q)) tt ;;;
        q <- getp p ;;
        setp np (set_cwd (idup (cwd q))) ;;;
        setp np (fun x => set_name (safestrcpy (name x) (name q)) x) ;;;
        nq <- getp np ;;
        let pid0 := pid nq in
        release (ProcLock np) ;;;
        acquire WaitLock ;;;
        setp np (set_parent me) ;;;
        release WaitLock ;;;
        acquire (ProcLock np) ;;;
        setp np (set_state RUNNABLE) ;;;
        release (ProcLock np) ;;;
        match pol with
        | MLFQ =>
            q <- getp p ;;
            when (negb (priority_number q =? 0))
              (setp p (set_no_of_ticks 0) ;;; yield)
        | _ => ret tt
        end ;;;
        ret pid0
  end.


(** * Verification *)

(** ** The monad *)

Lemma bind_ret {A B} (a : A) (f : A -> M B) s : bind (ret a) f s = f a s.
Proof. reflexivity. Qed.

Lemma bind_get {B} (f : kstate -> M B) s : bind get f s = f s s.
Proof. reflexivity. Qed.

Lemma bind_modify {B} g (f : unit -> M B) s : bind (modify g) f s = f tt (g s).
Proof. reflexivity. Qed.

Lemma bind_setp {B} i g (f : unit -> M B) s : bind (setp i g) f s = f tt (upd i g s).
Proof. reflexivity. Qed.

Lemma bind_emit {B} e (f : unit -> M B) s : bind (emit e) f s = f tt (log e s).
Proof. reflexivity. Qed.

Lemma bind_myproc {B} (f : option nat -> M B) s : bind myproc f s = f (cpu_proc s) s.
Proof. reflexivity. Qed.

Lemma bind_intr_get {B} (f : bool -> M B) s :
  bind intr_get f s = f (intr s && (noff s =? 0)) s.
Proof. reflexivity. Qed.

Lemma bind_getp {B} i q (f : proc -> M B) s :
  procs s !! i = Some q -> bind (getp i) f s = f q s.
Proof. intros H. unfold bind, getp. rewrite H. reflexivity. Qed.

Lemma bind_deref {B} i (f : nat -> M B) s :
  (i < NPROC s)%nat -> bind (deref (Some i)) f s = f i s.
Proof. intros H. unfold bind, deref. rewrite decide_True by exact H. reflexivity. Qed.

Lemma bind_acquire {B} l (f : unit -> M B) s :
  holding l s = false -> bind (acquire l) f s = f tt (set_held l true s).
Proof. intros H. cbv [bind acquire get run_bind]. rewrite H. reflexivity. Qed.

Lemma bind_release {B} l (f : unit -> M B) s :
  holding l s = true -> bind (release l) f s = f tt (set_held l false s).
Proof. intros H. cbv [bind release get run_bind]. rewrite H. reflexivity. Qed.

Lemma release_run l s :
  holding l s = true -> release l s = Ret tt (set_held l false s).
Proof. intros H. cbv [bind release get run_bind]. rewrite H. reflexivity. Qed.

Lemma acquire_run l s :
  holding l s = false -> acquire l s = Ret tt (set_held l true s).
Proof. intros H. cbv [bind acquire get run_bind]. rewrite H. reflexivity. Qed.

Lemma bind_eq_ret {A B} (m : M A) (f : A -> M B) s a s' :
  m s = Ret a s' -> bind m f s = f a s'.
Proof. intros H. unfold bind. rewrite H. reflexivity. Qed.

Lemma bind_eq_stop {A B} (m : M A) (f : A -> M B) s why s' :
  m s = Stop why s' -> bind m f s = Stop why s'.
Proof. intros H. unfold bind. rewrite H. reflexivity. Qed.

Lemma bind_eq_swtch {A B} (m : M A) (f : A -> M B) s s' k :
  m s = Swtch s' k -> bind m f s = Swtch s' (fun s'' => run_bind (k s'') f).
Proof. intros H. unfold bind. rewrite H. reflexivity. Qed.

(** A sequence returns only if its second part does. *)
Lemma may_return_bind {A B} (m : M A) (f : A -> M B) s :
  may_return (bind m f s) -> exists a s', may_return (f a s').
Proof.
  unfold bind. induction (m s) as [a s'|why s'|s' k IH]; cbn [run_bind]; intros H.
  - eauto.
  - inversion H.
  - inversion H as [|? ? s'' Hk]; subst. eapply IH, Hk.
Qed.

Lemma may_return_halt {A} why s : ~ may_return (@halt A why s).
Proof. intros H. inversion H. Qed.

(** The invariant rule for loops that do not switch context: [I] holds
    between turns, [Q] when the loop is left early. *)
Lemma for_loop_inv {St R} (body : nat -> St -> M (St + R))
    (I : nat -> St -> kstate -> Prop) (Q : R -> kstate -> Prop) n :
  forall i st s,
    I i st s ->
    (forall j st s, (i <= j < i + n)%nat -> I j st s ->
       match body j st s with
       | Ret (inl st') s' => I (S j) st' s'
       | Ret (inr v) s' => Q v s'
       | _ => False
       end) ->
    match for_loop body i n st s with
    | Ret (inl st') s' => I (i + n)%nat st' s'
    | Ret (inr v) s' => Q v s'
    | _ => False
    end.
Proof.
  induction n as [|n IH]; intros i st s HI Hbody.
  - cbn [for_loop ret]. rewrite Nat.add_0_r. exact HI.
  - cbn [for_loop]. unfold bind.
    pose proof (Hbody i st s ltac:(lia) HI) as Hb.
    destruct (body i st s) as [[st'|v] s'| |]; try contradiction; cbn [run_bind ret].
    + replace (i + S n)%nat with (S i + n)%nat by lia.
      apply IH; [exact Hb|]. intros j st0 s0 Hj. apply Hbody. lia.
    + exact Hb.
Qed.

(** A scan that leaves the state and the locals alone. *)
Lemma for_loop_skip {St R} (body : nat -> St -> M (St + R)) n :
  forall i st s,
    (forall j, (i <= j < i + n)%nat -> body j st s = Ret (inl st) s) ->
    for_loop body i n st s = Ret (inl st) s.
Proof.
  induction n as [|n IH]; intros i st s H; cbn [for_loop]; [reflexivity|].
  unfold bind. rewrite H by lia. cbn [run_bind].
  apply IH. intros j Hj. apply H. lia.
Qed.

(** A scan that is left at turn [k], the turns before it changing nothing. *)
Lemma for_loop_hit {St R} (body : nat -> St -> M (St + R)) n k v s' :
  forall i st s,
    (i <= k < i + n)%nat ->
    (forall j, (i <= j < k)%nat -> body j st s = Ret (inl st) s) ->
    body k st s = Ret (inr v) s' ->
    for_loop body i n st s = Ret (inr v) s'.
Proof.
  induction n as [|n IH]; intros i st s Hk Hskip Hhit; [lia|].
  cbn [for_loop]. unfold bind.
  destruct (decide (i = k)) as [->|Hne].
  - rewrite Hhit. reflexivity.
  - rewrite Hskip by lia. cbn [run_bind]. apply IH; [lia| |exact Hhit].
    intros j Hj. apply Hskip. lia.
Qed.

(** A loop that rewrites slot after slot: each turn [j] applies [g j] to
    slot [j], whatever the turns before it did to the slots below. *)
Lemma for_loop_map {R} (body : nat -> unit -> M (unit + R))
    (g : nat -> proc -> proc) (s : kstate) n :
  forall i l,
    (i + n = length l)%nat ->
    (forall j l', (i <= j < i + n)%nat -> length l' = length l ->
       l' !! j = l !! j ->
       body j tt (set_procs l' s) = Ret (inl tt) (set_procs (alter (g j) j l') s)) ->
    for_loop body i n tt (set_procs l s)
    = Ret (inl tt)
        (set_procs (imap (fun k q => if decide (i <= k)%nat then g k q else q) l) s).
Proof.
  induction n as [|n IH]; intros i l Hlen Hbody; cbn [for_loop].
  - unfold ret. do 2 f_equal. apply list_eq. intros k.
    rewrite list_lookup_imap. destruct (l !! k) eqn:E; [|reflexivity].
    cbn. apply lookup_lt_Some in E. rewrite decide_False by lia. reflexivity.
  - unfold bind. rewrite Hbody by (reflexivity || lia). cbn [run_bind].
    rewrite IH.
    + do 2 f_equal. apply list_eq. intros k.
      rewrite !list_lookup_imap. destruct (decide (i = k)) as [->|Hne].
      * rewrite list_lookup_alter_eq. destruct (l !! k); [|reflexivity]. cbn.
        rewrite decide_False by lia. rewrite decide_True by lia. reflexivity.
      * rewrite list_lookup_alter_ne by done. destruct (l !! k); [|reflexivity]. cbn.
        destruct (decide (S i <= k)%nat), (decide (i <= k)%nat);
          reflexivity || lia.
    + rewrite length_alter. lia.
    + intros j l' Hj Hl' Hlook. apply Hbody; [lia| |].
      * rewrite Hl'. apply length_alter.
      * rewrite Hlook. apply list_lookup_alter_ne. lia.
Qed.

(** A loop whose turns are known exactly: [X j] is the pair of locals and
    state in which turn [j] starts. *)
Lemma for_loop_exact {St R} (body : nat -> St -> M (St + R))
    (X : nat -> St * kstate) n :
  forall i,
    (forall j, (i <= j < i + n)%nat ->
       body j (fst (X j)) (snd (X j)) = Ret (inl (fst (X (S j)))) (snd (X (S j)))) ->
    for_loop body i n (fst (X i)) (snd (X i))
    = Ret (inl (fst (X (i + n)%nat))) (snd (X (i + n)%nat)).
Proof.
  induction n as [|n IH]; intros i H; cbn [for_loop].
  - rewrite Nat.add_0_r. reflexivity.
  - unfold bind. rewrite H by lia. cbn [run_bind].
    rewrite IH by (intros j Hj; apply H; lia).
    replace (S i + n)%nat with (i + S n)%nat by lia. reflexivity.
Qed.

(** A scan that is left at turn [k] whatever the locals, the turns before it
    changing the locals only. *)
Lemma for_loop_hit_any {St R} (body : nat -> St -> M (St + R)) n k v s' s :
  forall i st,
    (i <= k < i + n)%nat ->
    (forall j st, (i <= j < k)%nat -> exists st', body j st s = Ret (inl st') s) ->
    (forall st, body k st s = Ret (inr v) s') ->
    for_loop body i n st s = Ret (inr v) s'.
Proof.
  induction n as [|n IH]; intros i st Hk Hskip Hhit; [lia|].
  cbn [for_loop]. unfold bind.
  destruct (decide (i = k)) as [->|Hne].
  - rewrite Hhit. reflexivity.
  - destruct (Hskip i st ltac:(lia)) as [st' ->]. cbn [run_bind].
    apply IH; [lia| |exact Hhit]. intros j st0 Hj. apply Hskip. lia.
Qed.

(** A scan that changes the locals only. *)
Lemma for_loop_pass {St R} (body : nat -> St -> M (St + R)) n s :
  forall i st,
    (forall j st, (i <= j < i + n)%nat -> exists st', body j st s = Ret (inl st') s) ->
    exists st', for_loop body i n st s = Ret (inl st') s.
Proof.
  induction n as [|n IH]; intros i st H; cbn [for_loop]; [eexists; reflexivity|].
  unfold bind. destruct (H i st ltac:(lia)) as [st' ->]. cbn [run_bind].
  apply IH. intros j st0 Hj. apply H. lia.
Qed.

(** ** The process table *)

Lemma kstate_eta s :
  mkKstate (procs s) (initproc s) (nextpid s) (ticks s) (wait_lock s) (pid_lock s)
    (cpu_proc s) (intena s) (intr s) (klog s) = s.
Proof. destruct s; reflexivity. Qed.

Lemma upd_lookup_eq i f s q :
  procs s !! i = Some q -> procs (upd i f s) !! i = Some (f q).
Proof.
  intros H. unfold upd. cbn [procs set_procs].
  rewrite list_lookup_alter_eq, H. reflexivity.
Qed.

Lemma upd_lookup_ne i j f s : i <> j -> procs (upd i f s) !! j = procs s !! j.
Proof.
  intros H. unfold upd. cbn [procs set_procs]. apply list_lookup_alter_ne. exact H.
Qed.

Lemma upd_length i f s : NPROC (upd i f s) = NPROC s.
Proof. unfold NPROC, upd. cbn [procs set_procs]. apply length_alter. Qed.

Lemma upd_ext i f g s :
  (forall q, procs s !! i = Some q -> f q = g q) -> upd i f s = upd i g s.
Proof.
  intros H. unfold upd, set_procs. f_equal.
  apply list_eq. intros j. destruct (decide (i = j)) as [->|Hne].
  - rewrite !list_lookup_alter_eq.
    destruct (procs s !! j) eqn:E; cbn; [f_equal; auto|reflexivity].
  - rewrite !list_lookup_alter_ne by done. reflexivity.
Qed.

Lemma upd_id i f s : (forall q, procs s !! i = Some q -> f q = q) -> upd i f s = s.
Proof.
  intros H. rewrite (upd_ext i f (fun q => q)) by exact H.
  unfold upd, set_procs. rewrite <- (kstate_eta s) at 11. f_equal.
  apply list_alter_id. reflexivity.
Qed.

Lemma upd_upd i f g s : upd i f (upd i g s) = upd i (fun q => f (g q)) s.
Proof. unfold upd, set_procs. cbn. f_equal. apply list_alter_alter_eq. Qed.

Lemma upd_insert i f s q :
  procs s !! i = Some q -> procs (upd i f s) = <[i := f q]> (procs s).
Proof.
  intros H. unfold upd. cbn [procs set_procs].
  apply list_eq. intros j. destruct (decide (i = j)) as [->|Hne].
  - rewrite list_lookup_alter_eq, H. cbn.
    rewrite list_lookup_insert_eq; [reflexivity|]. eapply lookup_lt_Some, H.
  - rewrite list_lookup_alter_ne, list_lookup_insert_ne by done. reflexivity.
Qed.

(** ** Locks *)

(** No slot lock is held: the state in which process context enters the
    kernel's routines. *)
Definition locks_free (s : kstate) : Prop :=
  forall i q, procs s !! i = Some q -> lock q = false.

Lemma holding_free s i : locks_free s -> holding (ProcLock i) s = false.
Proof.
  intros H. cbn [holding]. destruct (procs s !! i) eqn:E; [|reflexivity].
  eapply H, E.
Qed.

Lemma holding_proc s i q : procs s !! i = Some q -> holding (ProcLock i) s = lock q.
Proof. intros H. cbn [holding]. rewrite H. reflexivity. Qed.

Lemma set_lock_same q b : lock q = b -> set_lock b q = q.
Proof. intros <-. destruct q; reflexivity. Qed.

Lemma lookup_lt_NPROC s i : (i < NPROC s)%nat -> exists q, procs s !! i = Some q.
Proof. intros H. apply lookup_lt_is_Some_2 in H. destruct H as [q Hq]. eauto. Qed.

(** Slot [i] holds [q], the first entry of the table that satisfies [P]. *)
Definition first_slot (P : proc -> Prop) (s : kstate) (i : nat) (q : proc) : Prop :=
  procs s !! i = Some q /\ P q /\
  forall j q', (j < i)%nat -> procs s !! j = Some q' -> ~ P q'.

Lemma upd_initproc i f s : initproc (upd i f s) = initproc s.
Proof. reflexivity. Qed.
Lemma upd_ticks i f s : ticks (upd i f s) = ticks s.
Proof. reflexivity. Qed.
Lemma upd_wait_lock i f s : wait_lock (upd i f s) = wait_lock s.
Proof. reflexivity. Qed.
Lemma upd_pid_lock i f s : pid_lock (upd i f s) = pid_lock s.
Proof. reflexivity. Qed.
Lemma upd_cpu_proc i f s : cpu_proc (upd i f s) = cpu_proc s.
Proof. reflexivity. Qed.
Lemma upd_intena i f s : intena (upd i f s) = intena s.
Proof. reflexivity. Qed.
Lemma upd_intr i f s : intr (upd i f s) = intr s.
Proof. reflexivity. Qed.
Lemma upd_klog i f s : klog (upd i f s) = klog s.
Proof. reflexivity. Qed.

Lemma log_procs e s : procs (log e s) = procs s.
Proof. reflexivity. Qed.
Lemma log_initproc e s : initproc (log e s) = initproc s.
Proof. reflexivity. Qed.
Lemma log_ticks e s : ticks (log e s) = ticks s.
Proof. reflexivity. Qed.
Lemma log_wait_lock e s : wait_lock (log e s) = wait_lock s.
Proof. reflexivity. Qed.
Lemma log_pid_lock e s : pid_lock (log e s) = pid_lock s.
Proof. reflexivity. Qed.
Lemma log_cpu_proc e s : cpu_proc (log e s) = cpu_proc s.
Proof. reflexivity. Qed.
Lemma log_intena e s : intena (log e s) = intena s.
Proof. reflexivity. Qed.
Lemma log_intr e s : intr (log e s) = intr s.
Proof. reflexivity. Qed.
Lemma log_klog e s : klog (log e s) = klog s ++ [e].
Proof. reflexivity. Qed.

Lemma setp_run i f s : setp i f s = Ret tt (upd i f s).
Proof. reflexivity. Qed.

Ltac kred :=
  cbv beta;
  rewrite ?upd_initproc, ?upd_ticks, ?upd_wait_lock, ?upd_pid_lock, ?upd_cpu_proc,
    ?upd_intena, ?upd_intr, ?upd_klog, ?log_procs, ?log_initproc, ?log_ticks,
    ?log_wait_lock, ?log_pid_lock, ?log_cpu_proc, ?log_intena, ?log_intr, ?log_klog;
  cbn [lock state chan killed xstate pid parent sz pagetable trapframe ofile cwd
       name Trace rtime etime ctime start_time Static_priority Times_scheduled
       running_time sleeping_time priority_number time_added no_of_ticks No_times
       set_lock set_state set_chan set_killed set_xstate set_pid set_parent set_sz
       set_pagetable set_trapframe set_ofile set_cwd set_name set_Trace set_rtime
       set_etime set_ctime set_start_time set_Static_priority set_Times_scheduled
       set_running_time set_sleeping_time set_priority_number set_time_added
       set_no_of_ticks set_No_times
       initproc nextpid ticks wait_lock pid_lock cpu_proc intena intr klog
       set_initproc set_nextpid set_ticks set_wait_lock set_pid_lock set_cpu_proc
       set_intena set_intr set_klog set_held when fst snd].

(** Equality of two process control blocks, field by field. *)
Ltac proc_eq :=
  repeat match goal with q : proc |- _ => destruct q end;
  cbn in *; subst; first [ reflexivity | congruence ].

(** Equality of two states, global by global. *)
Ltac kstate_eq :=
  rewrite ?upd_upd;
  unfold upd, log, set_procs, set_klog, set_wait_lock, set_pid_lock, set_cpu_proc,
    set_intena, set_intr, set_initproc, set_nextpid, set_ticks;
  cbn [procs initproc nextpid ticks wait_lock pid_lock cpu_proc intena intr klog];
  f_equal.

(** Looks a slot up in a state built from updates of known slots. *)
Ltac klook :=
  kred;
  lazymatch goal with
  | |- procs (upd ?i _ _) !! ?i = Some _ => eapply upd_lookup_eq; klook
  | |- procs (upd ?i _ _) !! ?j = Some _ =>
      first [ rewrite (upd_lookup_ne i j) by (congruence || lia); klook
            | eapply upd_lookup_eq; klook ]
  | |- procs (set_procs _ _) !! _ = Some _ => fail
  | |- procs ?s !! _ = Some _ =>
      first [ eassumption
            | progress (cbn [procs log set_klog set_wait_lock set_pid_lock
                               set_cpu_proc set_intr set_intena]); klook ]
  | |- _ => eassumption
  end.

Ltac khold :=
  lazymatch goal with
  | |- holding (ProcLock _) _ = _ =>
      erewrite holding_proc by klook; kred;
      first [ reflexivity | eassumption | eauto ]
  | |- _ => kred; cbn [holding]; kred; first [ reflexivity | eassumption | eauto ]
  end.

Ltac kstep :=
  first
    [ rewrite bind_ret
    | rewrite bind_get
    | rewrite bind_setp
    | rewrite bind_emit
    | rewrite bind_myproc
    | rewrite bind_intr_get
    | rewrite bind_modify
    | erewrite bind_getp by klook
    | rewrite bind_acquire by khold
    | rewrite bind_release by khold
    | rewrite bind_deref by (rewrite ?upd_length; eauto using lookup_lt_Some) ];
  kred.

(** ** [kill] *)

(** What [kill] does to the slot it finds. *)
Definition killed_slot (q : proc) : proc :=
  (if bool_decide (state q = SLEEPING) then set_state RUNNABLE else id)
    (set_killed 1 q).

Lemma kill_body_skip s pid0 j q :
  procs s !! j = Some q -> lock q = false -> pid q <> pid0 ->
  kill_body pid0 j tt s = Ret (inl tt) s.
Proof.
  intros Hj Hl Hpid. unfold kill_body.
  do 2 kstep. rewrite (proj2 (Z.eqb_neq _ _) Hpid).
  kstep. rewrite upd_upd, upd_id; [reflexivity|].
  intros q' Hq'. rewrite Hj in Hq'. injection Hq' as <-. proc_eq.
Qed.

Lemma kill_body_hit s pid0 j q :
  procs s !! j = Some q -> lock q = false -> pid q = pid0 ->
  kill_body pid0 j tt s = Ret (inr 0) (upd j killed_slot s).
Proof.
  intros Hj Hl Hpid. unfold kill_body.
  do 2 kstep. rewrite (proj2 (Z.eqb_eq _ _) Hpid).
  kstep.
  destruct (bool_decide (state q = SLEEPING)) eqn:E; kred;
    repeat kstep; rewrite !upd_upd; unfold ret; f_equal;
    apply upd_ext; intros q' Hq'; rewrite Hj in Hq'; injection Hq' as <-;
    unfold killed_slot; rewrite E; proc_eq.
Qed.

Lemma kill_found s pid0 i q :
  locks_free s ->
  first_slot (fun q => pid q = pid0) s i q ->
  kill pid0 s = Ret 0 (upd i killed_slot s).
Proof.
  intros Hfree (Hi & Hpid & Hfirst). unfold kill. kstep.
  erewrite bind_eq_ret; cycle 1.
  { apply for_loop_hit with (k := i).
    - split; [lia|]. eapply lookup_lt_Some, Hi.
    - intros j Hj. destruct (lookup_lt_NPROC s j) as [q' Hq'].
      { apply lookup_lt_Some in Hi. unfold NPROC. lia. }
      eapply kill_body_skip; eauto. eapply Hfirst; eauto. lia.
    - eapply kill_body_hit; eauto. }
  reflexivity.
Qed.

Lemma kill_not_found s pid0 :
  locks_free s ->
  (forall i q, procs s !! i = Some q -> pid q <> pid0) ->
  kill pid0 s = Ret (-1) s.
Proof.
  intros Hfree Hno. unfold kill. kstep.
  erewrite bind_eq_ret; cycle 1.
  { apply for_loop_skip. intros j Hj.
    destruct (lookup_lt_NPROC s j) as [q' Hq']; [lia|].
    eapply kill_body_skip; eauto. }
  reflexivity.
Qed.

(** ** [wakeup] *)

(** What [wakeup] does to one slot, and to the table. *)
Definition wake_one (c : chan_t) (tk : Z) (q : proc) : proc :=
  if bool_decide (state q = SLEEPING /\ chan q = c) then
    match pol with
    | PBS => set_sleeping_time (wrap32 (tk - sleeping_time q)) (set_state RUNNABLE q)
    | MLFQ => set_no_of_ticks 0 (set_time_added tk (set_state RUNNABLE q))
    | _ => set_state RUNNABLE q
    end
  else q.

Definition wake_at (c : chan_t) (me : option nat) (tk : Z) (i : nat) (q : proc) : proc :=
  if decide (Some i = me) then q else wake_one c tk q.

Definition wake_all (c : chan_t) (me : option nat) (tk : Z) (l : list proc) : list proc :=
  imap (wake_at c me tk) l.

Definition wakeup_post (c : chan_t) (s : kstate) : kstate :=
  set_procs (wake_all c (cpu_proc s) (ticks s) (procs s)) (log (EWakeup c) s).

(** The slots other than the caller's are unlocked. *)
Definition others_free (s : kstate) : Prop :=
  forall i q, procs s !! i = Some q -> Some i <> cpu_proc s -> lock q = false.

Lemma wakeup_body_run c s j q :
  procs s !! j = Some q -> (Some j <> cpu_proc s -> lock q = false) ->
  wakeup_body c j tt s = Ret (inl tt) (upd j (wake_at c (cpu_proc s) (ticks s) j) s).
Proof.
  intros Hj Hl. unfold wakeup_body. kstep. unfold wake_at.
  destruct (decide (Some j = cpu_proc s)) as [E|E].
  - unfold ret. f_equal. symmetry. apply upd_id. reflexivity.
  - specialize (Hl E). kstep. unfold wakeup_slot.
    erewrite bind_eq_ret; cycle 1.
    { kstep. instantiate (1 := upd j (fun q => wake_one c (ticks s) (set_lock true q)) s).
      instantiate (1 := tt).
      unfold wake_one. kred.
      destruct (bool_decide (state q = SLEEPING /\ chan q = c)) eqn:Ew; kred.
      - destruct pol; repeat kstep; rewrite ?setp_run; kred; unfold ret; f_equal;
          rewrite ?upd_upd;
          apply upd_ext; intros q' Hq'; rewrite Hj in Hq'; injection Hq' as <-;
          kred; rewrite Ew; reflexivity.
      - unfold ret. f_equal. apply upd_ext. intros q' Hq'. rewrite Hj in Hq'.
        injection Hq' as <-. kred. rewrite Ew. reflexivity. }
    cbv beta.
    rewrite bind_release; cycle 1.
    { erewrite holding_proc by klook. unfold wake_one. kred.
      destruct (bool_decide _); [destruct pol|]; reflexivity. }
    kred. unfold ret. f_equal. rewrite upd_upd. apply upd_ext.
    intros q' Hq'. rewrite Hj in Hq'. injection Hq' as <-.
    unfold wake_one. kred.
    destruct (bool_decide _); [destruct pol|]; proc_eq.
Qed.

Lemma set_procs_id s : set_procs (procs s) s = s.
Proof. destruct s; reflexivity. Qed.

Lemma wakeup_run c s :
  others_free s -> wakeup c s = Ret tt (wakeup_post c s).
Proof.
  intros Hfree. unfold wakeup. do 2 kstep.
  erewrite bind_eq_ret; cycle 1.
  { change (NPROC (log (EWakeup c) s)) with (length (procs s)).
    rewrite <- (set_procs_id (log _ s)). change (procs (log (EWakeup c) s)) with (procs s).
    apply (for_loop_map (wakeup_body c) (wake_at c (cpu_proc s) (ticks s))).
    - reflexivity.
    - intros j l' Hj Hlen Hlook.
      destruct (lookup_lt_NPROC s j) as [q Hq]; [unfold NPROC; lia|].
      erewrite wakeup_body_run.
      + reflexivity.
      + cbn [procs set_procs]. rewrite Hlook. exact Hq.
      + intros Hne. eapply Hfree; eauto. }
  cbv beta. unfold ret, wakeup_post, wake_all. do 2 f_equal.
Qed.

Lemma wake_at_lock c me tk k q : lock (wake_at c me tk k q) = lock q.
Proof.
  unfold wake_at, wake_one. destruct (decide _); [reflexivity|].
  destruct (bool_decide _); [destruct pol|]; reflexivity.
Qed.

Lemma wake_at_parent c me tk k q : parent (wake_at c me tk k q) = parent q.
Proof.
  unfold wake_at, wake_one. destruct (decide _); [reflexivity|].
  destruct (bool_decide _); [destruct pol|]; reflexivity.
Qed.

Lemma wake_at_idem c me tk k q :
  wake_at c me tk k (wake_at c me tk k q) = wake_at c me tk k q.
Proof.
  unfold wake_at, wake_one. destruct (decide _); [reflexivity|].
  destruct (bool_decide (state q = SLEEPING /\ chan q = c)) eqn:E; [|rewrite E; reflexivity].
  rewrite bool_decide_eq_false_2; [reflexivity|].
  destruct pol; cbn; intros [? _]; discriminate.
Qed.

Lemma wake_at_set_parent c me tk k v q :
  wake_at c me tk k (set_parent v q) = set_parent v (wake_at c me tk k q).
Proof.
  unfold wake_at, wake_one. destruct (decide _); [reflexivity|]. kred.
  destruct (bool_decide _); [destruct pol|]; reflexivity.
Qed.

Lemma wake_all_lookup c me tk l k :
  wake_all c me tk l !! k = wake_at c me tk k <$> l !! k.
Proof. unfold wake_all. apply list_lookup_imap. Qed.

Lemma wake_all_length c me tk l : length (wake_all c me tk l) = length l.
Proof. unfold wake_all. apply length_imap. Qed.

(** ** [reparent] *)

Definition reparented (p init : option nat) (q : proc) : proc :=
  if decide (parent q = p) then set_parent init q else q.

Definition reparent_upto (p init : option nat) (j : nat) (l : list proc) : list proc :=
  imap (fun k q => if decide (k < j)%nat then reparented p init q else q) l.

(** The number of children of [p] among the first [j] slots. *)
Definition children_upto (p : option nat) (j : nat) (l : list proc) : nat :=
  length (filter (fun q => parent q = p) (take j l)).

(** The wakeups of [c], if there was one. *)
Definition wake_if (b : bool) (c : chan_t) (me : option nat) (tk : Z)
    (l : list proc) : list proc :=
  if b then wake_all c me tk l else l.

(** The state in which turn [j] of [reparent]'s loop starts. *)
Definition reparent_at (p : option nat) (j : nat) (s : kstate) : kstate :=
  let c := chan_of (initproc s) in
  let n := children_upto p j (procs s) in
  set_procs
    (wake_if (0 <? n)%nat c (cpu_proc s) (ticks s)
       (reparent_upto p (initproc s) j (procs s)))
    (set_klog (klog s ++ repeat (EWakeup c) n) s).

Definition wake_if_at (b : bool) (c : chan_t) (me : option nat) (tk : Z)
    (k : nat) (q : proc) : proc :=
  if b then wake_at c me tk k q else q.

Lemma wake_if_lookup b c me tk l k :
  wake_if b c me tk l !! k = wake_if_at b c me tk k <$> l !! k.
Proof.
  unfold wake_if, wake_if_at. destruct b; [apply wake_all_lookup|].
  destruct (l !! k); reflexivity.
Qed.

Lemma wake_if_true c me tk l : wake_if true c me tk l = wake_all c me tk l.
Proof. reflexivity. Qed.

Lemma wake_if_at_lock b c me tk k q : lock (wake_if_at b c me tk k q) = lock q.
Proof. destruct b; [apply wake_at_lock|reflexivity]. Qed.

Lemma wake_if_at_parent b c me tk k q : parent (wake_if_at b c me tk k q) = parent q.
Proof. destruct b; [apply wake_at_parent|reflexivity]. Qed.

Lemma wake_at_wake_if_at b c me tk k q :
  wake_at c me tk k (wake_if_at b c me tk k q) = wake_at c me tk k q.
Proof. destruct b; [apply wake_at_idem|reflexivity]. Qed.

Lemma reparented_lock p init q : lock (reparented p init q) = lock q.
Proof. unfold reparented. destruct (decide _); reflexivity. Qed.

Lemma reparent_upto_lookup p init j l k :
  reparent_upto p init j l !! k
  = (fun q => if decide (k < j)%nat then reparented p init q else q) <$> l !! k.
Proof. unfold reparent_upto. apply list_lookup_imap. Qed.

Lemma children_upto_S p j l q :
  l !! j = Some q ->
  children_upto p (S j) l
  = (children_upto p j l + if decide (parent q = p) then 1 else 0)%nat.
Proof.
  intros H. unfold children_upto. rewrite (take_S_r _ _ _ H), filter_app, length_app.
  f_equal. rewrite filter_cons, filter_nil. destruct (decide _); reflexivity.
Qed.

Lemma reparent_at_0 p s : reparent_at p 0 s = s.
Proof.
  unfold reparent_at, children_upto. rewrite take_0, filter_nil. cbn [length repeat].
  rewrite app_nil_r. unfold wake_if. cbn [Nat.ltb Nat.leb].
  replace (reparent_upto p (initproc s) 0 (procs s)) with (procs s).
  - destruct s; reflexivity.
  - apply list_eq. intros k. rewrite reparent_upto_lookup.
    destruct (procs s !! k); reflexivity.
Qed.

Lemma reparent_at_lookup p j s k :
  procs (reparent_at p j s) !! k
  = (fun q => wake_if_at (0 <? children_upto p j (procs s))%nat
                (chan_of (initproc s)) (cpu_proc s) (ticks s) k
                (if decide (k < j)%nat then reparented p (initproc s) q else q))
    <$> procs s !! k.
Proof.
  unfold reparent_at. cbn [procs set_procs set_klog].
  rewrite wake_if_lookup, reparent_upto_lookup.
  destruct (procs s !! k); reflexivity.
Qed.

Lemma reparent_at_free p j s : others_free s -> others_free (reparent_at p j s).
Proof.
  intros Hfree i x Hi Hme. rewrite reparent_at_lookup in Hi.
  destruct (procs s !! i) as [y|] eqn:Ey; [|discriminate]. injection Hi as <-.
  rewrite wake_if_at_lock.
  destruct (decide _); rewrite ?reparented_lock; eapply Hfree; eauto.
Qed.

Lemma upd_free i f s :
  (forall q, lock (f q) = lock q) -> others_free s -> others_free (upd i f s).
Proof.
  intros Hf Hfree k x Hk Hme. rewrite upd_cpu_proc in Hme.
  destruct (decide (i = k)) as [->|Hne].
  - destruct (procs s !! k) as [y|] eqn:Ey.
    + erewrite upd_lookup_eq in Hk by exact Ey. injection Hk as <-.
      rewrite Hf. eapply Hfree; eauto.
    + unfold upd in Hk. cbn [procs set_procs] in Hk.
      rewrite list_lookup_alter_eq, Ey in Hk. discriminate.
  - rewrite upd_lookup_ne in Hk by done. eapply Hfree; eauto.
Qed.

Lemma reparent_step_child b c me tk p init j l q :
  l !! j = Some q -> parent q = p ->
  wake_all c me tk (alter (set_parent init) j (wake_if b c me tk (reparent_upto p init j l)))
  = wake_all c me tk (reparent_upto p init (S j) l).
Proof.
  intros Hq Hc. apply list_eq. intros k. rewrite !wake_all_lookup.
  destruct (decide (j = k)) as [<-|Hne].
  - rewrite list_lookup_alter_eq, wake_if_lookup, !reparent_upto_lookup, Hq. cbn.
    rewrite decide_False by lia. rewrite decide_True by lia. f_equal.
    unfold reparented. rewrite decide_True by exact Hc.
    rewrite !wake_at_set_parent. f_equal. apply wake_at_wake_if_at.
  - rewrite list_lookup_alter_ne by done.
    rewrite wake_if_lookup, !reparent_upto_lookup.
    destruct (l !! k) as [y|]; [|reflexivity]. cbn. f_equal.
    rewrite wake_at_wake_if_at.
    destruct (decide (k < j)%nat), (decide (k < S j)%nat); try lia; reflexivity.
Qed.

Lemma reparent_body_run p s j :
  others_free s -> (j < NPROC s)%nat ->
  reparent_body p j tt (reparent_at p j s) = Ret (inl tt) (reparent_at p (S j) s).
Proof.
  intros Hfree Hj. destruct (lookup_lt_NPROC s j Hj) as [q Hq].
  pose proof (reparent_at_lookup p j s j) as Hlook. rewrite Hq in Hlook.
  cbn [fmap option_fmap option_map] in Hlook.
  rewrite decide_False in Hlook by lia.
  unfold reparent_body. erewrite bind_getp by exact Hlook.
  rewrite wake_if_at_parent.
  pose proof (children_upto_S p j (procs s) q Hq) as HS.
  remember (children_upto p j (procs s)) as n eqn:En.
  destruct (decide (parent q = p)) as [Hc|Hc].
  - (* a child: reparent and wake init up *)
    kstep. kstep.
    erewrite bind_eq_ret; cycle 1.
    { apply wakeup_run. apply upd_free; [reflexivity|].
      apply reparent_at_free, Hfree. }
    cbv beta. unfold ret. f_equal.
    unfold wakeup_post, reparent_at. kstate_eq; rewrite <- ?En, ?HS;
      replace (n + 1)%nat with (S n) by lia.
    + eapply reparent_step_child; eassumption.
    + rewrite <- app_assoc. f_equal. symmetry. apply repeat_cons.
  - (* not a child *)
    unfold ret. f_equal. unfold reparent_at. rewrite <- En, HS, Nat.add_0_r.
    do 2 f_equal. apply list_eq. intros k. rewrite !reparent_upto_lookup.
    destruct (procs s !! k) as [y|] eqn:Ey; [|reflexivity]. cbn. f_equal.
    destruct (decide (k < j)%nat), (decide (k < S j)%nat); try lia; try reflexivity.
    assert (k = j) as -> by lia. rewrite Hq in Ey. injection Ey as <-.
    unfold reparented. rewrite decide_False by exact Hc. reflexivity.
Qed.

(** The table and the log after [reparent p]. *)
Definition reparent_post (p : option nat) (s : kstate) : kstate :=
  reparent_at p (NPROC s) s.

Lemma reparent_run p s :
  others_free s -> reparent p s = Ret tt (reparent_post p s).
Proof.
  intros Hfree. unfold reparent. kstep.
  erewrite bind_eq_ret; cycle 1.
  { pose proof (for_loop_exact (reparent_body p)
      (fun j => (tt, reparent_at p j s)) (NPROC s) 0) as H.
    cbn [fst snd] in H. rewrite reparent_at_0 in H. apply H.
    intros j Hj. apply reparent_body_run; [exact Hfree|lia]. }
  reflexivity.
Qed.

Lemma reparent_post_lookup p s k :
  procs (reparent_post p s) !! k
  = (fun q => wake_if_at (0 <? children_upto p (NPROC s) (procs s))%nat
                (chan_of (initproc s)) (cpu_proc s) (ticks s) k
                (reparented p (initproc s) q))
    <$> procs s !! k.
Proof.
  unfold reparent_post. rewrite reparent_at_lookup.
  destruct (procs s !! k) as [q|] eqn:E; [|reflexivity]. cbn.
  apply lookup_lt_Some in E. unfold NPROC. rewrite decide_True by lia. reflexivity.
Qed.

(** ** [exit] *)

(** The file loop: the [fileclose] calls made for the first [fd]
    descriptors, and the descriptor array after them. *)
Definition closes_upto (fd : nat) (l : list Z) : list event :=
  EFileclose <$> filter (fun f => f <> 0) (take fd l).

Definition zero_upto (fd : nat) (l : list Z) : list Z :=
  imap (fun k f => if decide (k < fd)%nat then 0 else f) l.

Definition close_files_at (p : nat) (q : proc) (fd : nat) (s : kstate) : kstate :=
  set_klog (klog s ++ closes_upto fd (ofile q))
    (upd p (set_ofile (zero_upto fd (ofile q))) s).

Lemma zero_upto_0 l : zero_upto 0 l = l.
Proof.
  apply list_eq. intros k. unfold zero_upto. rewrite list_lookup_imap.
  destruct (l !! k); reflexivity.
Qed.

Lemma zero_upto_S fd l f :
  l !! fd = Some f -> zero_upto (S fd) l = <[fd := 0]> (zero_upto fd l).
Proof.
  intros H. apply list_eq. intros k. unfold zero_upto.
  destruct (decide (fd = k)) as [<-|Hne].
  - rewrite list_lookup_insert_eq.
    + rewrite list_lookup_imap, H. cbn. rewrite decide_True by lia. reflexivity.
    + rewrite length_imap. eapply lookup_lt_Some, H.
  - rewrite list_lookup_insert_ne by done. rewrite !list_lookup_imap.
    destruct (l !! k); [|reflexivity]. cbn.
    destruct (decide (k < S fd)%nat), (decide (k < fd)%nat); reflexivity || lia.
Qed.

Lemma zero_upto_S_zero fd l : l !! fd = Some 0 -> zero_upto (S fd) l = zero_upto fd l.
Proof.
  intros H. rewrite (zero_upto_S _ _ _ H). apply list_insert_id.
  unfold zero_upto. rewrite list_lookup_imap, H. cbn. destruct (decide _); reflexivity.
Qed.

Lemma closes_upto_S fd l f :
  l !! fd = Some f ->
  closes_upto (S fd) l
  = closes_upto fd l ++ (if decide (f <> 0) then [EFileclose f] else []).
Proof.
  intros H. unfold closes_upto.
  rewrite (take_S_r _ _ _ H), filter_app, fmap_app. f_equal.
  rewrite filter_cons, filter_nil. destruct (decide _); reflexivity.
Qed.

Lemma close_files_body_run p q fd s f :
  procs s !! p = Some q -> ofile q !! fd = Some f ->
  close_files_body p fd tt (close_files_at p q fd s)
  = Ret (inl tt) (close_files_at p q (S fd) s).
Proof.
  intros Hp Hfd. unfold close_files_body, close_files_at.
  erewrite bind_getp by klook. kred.
  assert (zero_upto fd (ofile q) !! fd = Some f) as ->.
  { unfold zero_upto. rewrite list_lookup_imap, Hfd. cbn.
    rewrite decide_False by lia. reflexivity. }
  rewrite (closes_upto_S _ _ _ Hfd).
  destruct (decide (f = 0)) as [->|Hf].
  - cbn [Z.eqb negb when]. rewrite bind_ret. unfold ret. f_equal.
    rewrite decide_False by auto. rewrite app_nil_r.
    rewrite zero_upto_S_zero by exact Hfd. reflexivity.
  - rewrite (proj2 (Z.eqb_neq _ _) Hf). cbn [negb when].
    erewrite bind_eq_ret; cycle 1.
    { kstep. rewrite setp_run. reflexivity. }
    unfold ret. f_equal. rewrite decide_True by exact Hf.
    rewrite (zero_upto_S _ _ _ Hfd).
    kstate_eq.
    + rewrite list_alter_alter_eq. apply list_alter_ext; [|reflexivity].
      intros x _. reflexivity.
    + rewrite app_assoc. reflexivity.
Qed.

Lemma close_files_run p q s :
  procs s !! p = Some q ->
  close_files p s = Ret tt (close_files_at p q (length (ofile q)) s).
Proof.
  intros Hp. unfold close_files. erewrite bind_getp by exact Hp.
  erewrite bind_eq_ret; cycle 1.
  { pose proof (for_loop_exact (close_files_body p)
      (fun fd => (tt, close_files_at p q fd s)) (length (ofile q)) 0) as H.
    cbn [fst snd] in H.
    replace (close_files_at p q 0 s) with s in H; [apply H|].
    - intros fd Hfd. destruct (lookup_lt_is_Some_2 (ofile q) fd) as [f Hf]; [lia|].
      eapply close_files_body_run; eauto.
    - unfold close_files_at, closes_upto. rewrite take_0, filter_nil. cbn [fmap list_fmap].
      rewrite app_nil_r, zero_upto_0. rewrite upd_id.
      + destruct s; reflexivity.
      + intros x Hx. rewrite Hp in Hx. injection Hx as <-. proc_eq. }
  reflexivity.
Qed.

Lemma filter_locked_nil (l : list proc) :
  (forall k x, l !! k = Some x -> lock x = false) ->
  filter (fun x => lock x = true) l = [].
Proof.
  induction l as [|a l IH]; intros H; [reflexivity|].
  rewrite filter_cons. rewrite decide_False.
  - apply IH. intros k x Hk. apply (H (S k)). exact Hk.
  - rewrite (H 0%nat a eq_refl). discriminate.
Qed.

(** One slot lock held, and no other lock: the nesting level is one. *)
Lemma noff_one s p q :
  wait_lock s = false -> pid_lock s = false ->
  procs s !! p = Some q -> lock q = true ->
  (forall k x, k <> p -> procs s !! k = Some x -> lock x = false) ->
  noff s = 1.
Proof.
  intros Hw Hpl Hp Hq Hothers. unfold noff. rewrite Hw, Hpl. cbn [Z.b2z].
  rewrite <- (take_drop_middle _ _ _ Hp), filter_app, filter_cons.
  rewrite decide_True by exact Hq.
  rewrite !filter_locked_nil.
  - reflexivity.
  - intros k x Hk. apply (Hothers (S p + k)%nat); [lia|].
    rewrite <- Hk. symmetry. apply lookup_drop.
  - intros k x Hk. pose proof (lookup_lt_Some _ _ _ Hk) as Hlt.
    rewrite length_take in Hlt. apply (Hothers k); [lia|].
    rewrite <- Hk. symmetry. apply lookup_take_lt. lia.
Qed.

Lemma sched_run s p q :
  cpu_proc s = Some p -> procs s !! p = Some q -> lock q = true ->
  noff s = 1 -> state q <> RUNNING ->
  sched s = Swtch s (fun s' => Ret tt (set_intena (intena s) s')).
Proof.
  intros Hme Hp Hl Hn Hst. unfold sched. kstep. rewrite Hme.
  rewrite bind_deref by (eapply lookup_lt_Some, Hp). kstep.
  rewrite (holding_proc _ _ _ Hp), Hl, Hn. cbn [negb Z.eqb Pos.eqb].
  erewrite bind_getp by exact Hp. rewrite decide_False by exact Hst.
  kstep. rewrite Hn. rewrite andb_false_r. reflexivity.
Qed.

(** The state in which [exit] takes [wait_lock]: files closed, the current
    directory released. *)
Definition exit_files (p : nat) (q : proc) (s : kstate) : kstate :=
  upd p (set_cwd 0)
    (log EEndOp (log (EIput (cwd q)) (log EBeginOp
       (close_files_at p q (length (ofile q)) s)))).

(** The state in which [exit] switches to the scheduler. *)
Definition exit_post (status : Z) (p : nat) (q : proc) (s : kstate) : kstate :=
  let s3 := reparent_post (Some p) (set_wait_lock true (exit_files p q s)) in
  let s4 := wakeup_post (chan_of (parent (reparented (Some p) (initproc s) q))) s3 in
  set_wait_lock false
    (upd p (set_etime (ticks s))
       (upd p (set_state ZOMBIE)
          (upd p (set_xstate status)
             (upd p (set_lock true) s4)))).

Lemma exit_files_lookup p q s k :
  procs s !! p = Some q ->
  procs (exit_files p q s) !! k
  = if decide (k = p)
    then Some (set_cwd 0 (set_ofile (zero_upto (length (ofile q)) (ofile q)) q))
    else procs s !! k.
Proof.
  intros Hp. unfold exit_files, close_files_at. destruct (decide (k = p)) as [->|Hne].
  - klook.
  - rewrite upd_lookup_ne by done. cbn [procs log set_klog].
    rewrite upd_lookup_ne by done. reflexivity.
Qed.

Lemma wakeup_post_lookup c s k :
  procs (wakeup_post c s) !! k = wake_at c (cpu_proc s) (ticks s) k <$> procs s !! k.
Proof. unfold wakeup_post. cbn [procs set_procs]. apply wake_all_lookup. Qed.

Lemma locks_free_others s : locks_free s -> others_free s.
Proof. intros H i q Hi _. eapply H, Hi. Qed.

Lemma wake_at_me c tk k q : wake_at c (Some k) tk k q = q.
Proof. unfold wake_at. rewrite decide_True by reflexivity. reflexivity. Qed.

Lemma wake_if_at_me b c tk k q : wake_if_at b c (Some k) tk k q = q.
Proof. destruct b; [apply wake_at_me|reflexivity]. Qed.

Lemma exit_files_free p q s :
  procs s !! p = Some q -> locks_free s ->
  locks_free (set_wait_lock true (exit_files p q s)).
Proof.
  intros Hp Hfree k x Hk.
  change (procs (exit_files p q s) !! k = Some x) in Hk.
  rewrite (exit_files_lookup _ _ _ _ Hp) in Hk. destruct (decide (k = p)) as [->|Hne].
  - injection Hk as <-. kred. eapply Hfree, Hp.
  - eapply Hfree, Hk.
Qed.

Lemma wakeup_post_free c s : others_free s -> others_free (wakeup_post c s).
Proof.
  intros Hfree k x Hk Hme. rewrite wakeup_post_lookup in Hk.
  destruct (procs s !! k) as [y|] eqn:Ey; [|discriminate]. injection Hk as <-.
  rewrite wake_at_lock. eapply Hfree; eauto.
Qed.

Lemma exit_run status s p q :
  cpu_proc s = Some p -> procs s !! p = Some q -> initproc s <> Some p ->
  locks_free s -> wait_lock s = false -> pid_lock s = false ->
  exit status s
  = Swtch (exit_post status p q s)
      (fun s' => Stop (PanicMsg "zombie exit") (set_intena (intena s) s')).
Proof.
  intros Hme Hp Hinit Hfree Hw Hpl. unfold exit. kstep. kstep.
  rewrite Hme. rewrite decide_False by congruence.
  rewrite bind_deref by (eapply lookup_lt_Some, Hp).
  erewrite bind_eq_ret by (apply close_files_run, Hp). cbv beta.
  kstep.
  erewrite bind_getp by (rewrite log_procs; unfold close_files_at; klook).
  kred. do 3 kstep.
  rewrite bind_acquire by (cbn [holding]; kred; unfold close_files_at; kred; exact Hw).
  kred. fold (exit_files p q s).
  pose proof (exit_files_free p q s Hp Hfree) as Hfree2.
  set (s2 := set_wait_lock true (exit_files p q s)) in *.
  assert (Hp2 : procs s2 !! p
                = Some (set_cwd 0 (set_ofile (zero_upto (length (ofile q)) (ofile q)) q))).
  { change (procs s2) with (procs (exit_files p q s)).
    rewrite (exit_files_lookup _ _ _ _ Hp). rewrite decide_True by reflexivity.
    reflexivity. }
  erewrite bind_eq_ret by (apply reparent_run, locks_free_others, Hfree2). cbv beta.
  pose proof (reparent_at_free (Some p) (NPROC s2) s2 (locks_free_others _ Hfree2)) as Hfree3.
  fold (reparent_post (Some p) s2) in Hfree3.
  set (s3 := reparent_post (Some p) s2) in *.
  assert (Hp3 : procs s3 !! p
                = Some (reparented (Some p) (initproc s)
                          (set_cwd 0 (set_ofile (zero_upto (length (ofile q)) (ofile q)) q)))).
  { unfold s3. rewrite reparent_post_lookup, Hp2. cbn [fmap option_fmap option_map].
    change (cpu_proc s2) with (cpu_proc s). rewrite Hme, wake_if_at_me. reflexivity. }
  erewrite bind_getp by exact Hp3.
  replace (parent (reparented (Some p) (initproc s)
             (set_cwd 0 (set_ofile (zero_upto (length (ofile q)) (ofile q)) q))))
    with (parent (reparented (Some p) (initproc s) q))
    by (unfold reparented; kred; destruct (decide _); reflexivity).
  erewrite bind_eq_ret by (apply wakeup_run, Hfree3). cbv beta.
  pose proof (wakeup_post_free (chan_of (parent (reparented (Some p) (initproc s) q)))
                s3 Hfree3) as Hfree4.
  set (s4 := wakeup_post _ s3) in *.
  assert (exists x, procs s4 !! p = Some x /\ lock x = false) as (x & Hp4 & Hx).
  { unfold s4. rewrite wakeup_post_lookup, Hp3. cbn [fmap option_fmap option_map].
    eexists. split; [reflexivity|].
    change (cpu_proc s3) with (cpu_proc s). rewrite Hme, wake_at_me.
    rewrite reparented_lock. kred. eapply Hfree, Hp. }
  rewrite bind_acquire by (rewrite (holding_proc _ _ _ Hp4); exact Hx).
  kred. do 4 kstep.
  rewrite bind_release by (cbn [holding]; kred; reflexivity).
  kred.
  erewrite bind_eq_swtch; cycle 1.
  { eapply sched_run with (p := p).
    - exact Hme.
    - klook.
    - reflexivity.
    - eapply noff_one with (p := p).
      + reflexivity.
      + exact Hpl.
      + klook.
      + reflexivity.
      + intros k y Hk Hy. cbn [procs set_wait_lock] in Hy.
        rewrite !upd_lookup_ne in Hy by congruence.
        eapply Hfree4; [exact Hy|]. change (cpu_proc s4) with (cpu_proc s).
        rewrite Hme. congruence.
    - kred. discriminate. }
  assert (Hticks : ticks s4 = ticks s) by reflexivity.
  assert (Hintena : intena s4 = intena s) by reflexivity.
  cbn [run_bind panic halt]. kred. cbn [intena set_wait_lock]. kred.
  rewrite Hticks, Hintena. reflexivity.
Qed.

Lemma exit_blocked status s p q :
  cpu_proc s = Some p -> procs s !! p = Some q -> initproc s <> Some p ->
  wait_lock s = true ->
  exit status s = Stop (PanicMsg "acquire") (exit_files p q s).
Proof.
  intros Hme Hp Hinit Hw. unfold exit. kstep. kstep.
  rewrite Hme. rewrite decide_False by congruence.
  rewrite bind_deref by (eapply lookup_lt_Some, Hp).
  erewrite bind_eq_ret by (apply close_files_run, Hp). cbv beta.
  kstep.
  erewrite bind_getp by (rewrite log_procs; unfold close_files_at; klook).
  kred. do 3 kstep. fold (exit_files p q s).
  apply bind_eq_stop. cbv [acquire bind get run_bind]. cbn [holding].
  change (wait_lock (exit_files p q s)) with (wait_lock s). rewrite Hw. reflexivity.
Qed.

Lemma exit_no_return status s : ~ may_return (exit status s).
Proof.
  unfold exit. intros H.
  apply may_return_bind in H as (me & s1 & H).
  apply may_return_bind in H as (s2 & s3 & H).
  destruct (decide (me = initproc s2)); [exact (may_return_halt _ _ H)|].
  repeat (apply may_return_bind in H as (? & ? & H)).
  exact (may_return_halt _ _ H).
Qed.

(** The number of children of [p] in the table. *)
Definition nchildren (p : nat) (s : kstate) : nat :=
  length (filter (fun x => parent x = Some p) (procs s)).

Lemma filter_parent_alter (o : option nat) (f : proc -> proc) i (l : list proc) :
  (forall x, parent (f x) = parent x) ->
  length (filter (fun x => parent x = o) (alter f i l))
  = length (filter (fun x => parent x = o) l).
Proof.
  intros Hf. revert i. induction l as [|a l IH]; intros i; [reflexivity|].
  destruct i as [|i]; cbn [alter list_alter]; rewrite !filter_cons.
  - rewrite Hf. destruct (decide _); reflexivity.
  - destruct (decide _); cbn [length]; rewrite <- (IH i); reflexivity.
Qed.

Lemma exit_files_procs p q s :
  procs s !! p = Some q ->
  procs (exit_files p q s)
  = alter (fun x => set_cwd 0 (set_ofile (zero_upto (length (ofile q)) (ofile q)) x))
      p (procs s).
Proof.
  intros Hp. apply list_eq. intros k. rewrite (exit_files_lookup _ _ _ _ Hp).
  destruct (decide (k = p)) as [->|Hne].
  - rewrite list_lookup_alter_eq, Hp. reflexivity.
  - rewrite list_lookup_alter_ne by done. reflexivity.
Qed.

Lemma exit_files_children p q s :
  procs s !! p = Some q ->
  children_upto (Some p) (NPROC (exit_files p q s)) (procs (exit_files p q s))
  = nchildren p s.
Proof.
  intros Hp. unfold children_upto, nchildren, NPROC. rewrite firstn_all.
  rewrite (exit_files_procs _ _ _ Hp).
  apply filter_parent_alter. reflexivity.
Qed.

Lemma wakeup_post_cpu_proc c s : cpu_proc (wakeup_post c s) = cpu_proc s.
Proof. reflexivity. Qed.
Lemma wakeup_post_ticks c s : ticks (wakeup_post c s) = ticks s.
Proof. reflexivity. Qed.
Lemma wakeup_post_klog c s : klog (wakeup_post c s) = klog s ++ [EWakeup c].
Proof. reflexivity. Qed.
Lemma reparent_post_cpu_proc p s : cpu_proc (reparent_post p s) = cpu_proc s.
Proof. reflexivity. Qed.
Lemma reparent_post_ticks p s : ticks (reparent_post p s) = ticks s.
Proof. reflexivity. Qed.
Lemma reparent_post_klog p s :
  klog (reparent_post p s)
  = klog s ++ repeat (EWakeup (chan_of (initproc s)))
                (children_upto p (NPROC s) (procs s)).
Proof. reflexivity. Qed.
Lemma exit_files_cpu_proc p q s : cpu_proc (exit_files p q s) = cpu_proc s.
Proof. reflexivity. Qed.
Lemma exit_files_ticks p q s : ticks (exit_files p q s) = ticks s.
Proof. reflexivity. Qed.
Lemma exit_files_initproc p q s : initproc (exit_files p q s) = initproc s.
Proof. reflexivity. Qed.
Lemma exit_files_klog p q s :
  klog (exit_files p q s)
  = klog s ++ (EFileclose <$> filter (fun f => f <> 0) (ofile q))
      ++ [EBeginOp; EIput (cwd q); EEndOp].
Proof.
  unfold exit_files. kred. unfold close_files_at. cbn [klog set_klog].
  unfold closes_upto. rewrite firstn_all, <- !app_assoc. reflexivity.
Qed.

Lemma set_wait_lock_procs b s : procs (set_wait_lock b s) = procs s.
Proof. reflexivity. Qed.
Lemma set_wait_lock_NPROC b s : NPROC (set_wait_lock b s) = NPROC s.
Proof. reflexivity. Qed.
Lemma set_wait_lock_cpu_proc b s : cpu_proc (set_wait_lock b s) = cpu_proc s.
Proof. reflexivity. Qed.
Lemma set_wait_lock_ticks b s : ticks (set_wait_lock b s) = ticks s.
Proof. reflexivity. Qed.
Lemma set_wait_lock_initproc b s : initproc (set_wait_lock b s) = initproc s.
Proof. reflexivity. Qed.
Lemma set_wait_lock_klog b s : klog (set_wait_lock b s) = klog s.
Proof. reflexivity. Qed.

Lemma exit_post_unfold status p q s :
  exit_post status p q s
  = set_wait_lock false
      (upd p (set_etime (ticks s))
         (upd p (set_state ZOMBIE)
            (upd p (set_xstate status)
               (upd p (set_lock true)
                  (wakeup_post (chan_of (parent (reparented (Some p) (initproc s) q)))
                     (reparent_post (Some p)
                        (set_wait_lock true (exit_files p q s)))))))).
Proof. reflexivity. Qed.

Lemma exit_post_lookup_other status p q s k :
  cpu_proc s = Some p -> procs s !! p = Some q -> k <> p ->
  procs (exit_post status p q s) !! k
  = (fun x =>
       wake_at (chan_of (parent (reparented (Some p) (initproc s) q))) (Some p)
         (ticks s) k
         (wake_if_at (0 <? nchildren p s)%nat (chan_of (initproc s)) (Some p)
            (ticks s) k (reparented (Some p) (initproc s) x)))
    <$> procs s !! k.
Proof.
  intros Hme Hp Hk. rewrite exit_post_unfold, set_wait_lock_procs.
  rewrite !upd_lookup_ne by congruence.
  rewrite wakeup_post_lookup, reparent_post_lookup.
  rewrite reparent_post_cpu_proc, reparent_post_ticks.
  rewrite set_wait_lock_procs, set_wait_lock_NPROC, set_wait_lock_cpu_proc,
    set_wait_lock_ticks, set_wait_lock_initproc.
  rewrite (exit_files_children _ _ _ Hp), (exit_files_lookup _ _ _ _ Hp).
  rewrite decide_False by exact Hk.
  rewrite exit_files_cpu_proc, exit_files_ticks, exit_files_initproc, Hme.
  destruct (procs s !! k); reflexivity.
Qed.

Lemma exit_post_lookup_self status p q s :
  cpu_proc s = Some p -> procs s !! p = Some q ->
  exists y, procs (exit_post status p q s) !! p = Some y /\
    xstate y = status /\ etime y = ticks s /\ state y = ZOMBIE /\ lock y = true.
Proof.
  intros Hme Hp. rewrite exit_post_unfold, set_wait_lock_procs.
  assert (exists x, procs (wakeup_post
            (chan_of (parent (reparented (Some p) (initproc s) q)))
            (reparent_post (Some p) (set_wait_lock true (exit_files p q s)))) !! p
          = Some x) as [x Hx].
  { rewrite wakeup_post_lookup, reparent_post_lookup, set_wait_lock_procs.
    rewrite (exit_files_lookup _ _ _ _ Hp). rewrite decide_True by reflexivity.
    eexists. reflexivity. }
  exists (set_etime (ticks s) (set_state ZOMBIE (set_xstate status (set_lock true x)))).
  split; [|repeat split; reflexivity].
  do 4 (eapply upd_lookup_eq). exact Hx.
Qed.

Lemma exit_post_klog status p q s :
  procs s !! p = Some q ->
  klog (exit_post status p q s)
  = klog s ++ (EFileclose <$> filter (fun f => f <> 0) (ofile q))
      ++ [EBeginOp; EIput (cwd q); EEndOp]
      ++ repeat (EWakeup (chan_of (initproc s))) (nchildren p s)
      ++ [EWakeup (chan_of (parent (reparented (Some p) (initproc s) q)))].
Proof.
  intros Hp. rewrite exit_post_unfold, set_wait_lock_klog, !upd_klog.
  rewrite wakeup_post_klog, reparent_post_klog.
  rewrite set_wait_lock_procs, set_wait_lock_NPROC, set_wait_lock_initproc,
    set_wait_lock_klog.
  rewrite (exit_files_children _ _ _ Hp), exit_files_initproc, exit_files_klog.
  rewrite <- !app_assoc. reflexivity.
Qed.

Lemma wake_one_hit c tk q :
  state q = SLEEPING -> chan q = c -> state (wake_one c tk q) = RUNNABLE.
Proof.
  intros Hs Hc. unfold wake_one. rewrite bool_decide_eq_true_2 by auto.
  destruct pol; reflexivity.
Qed.

Lemma wake_one_cases c tk q :
  wake_one c tk q = q \/
  (state (wake_one c tk q) = RUNNABLE /\ state q = SLEEPING /\ chan q = c).
Proof.
  unfold wake_one. destruct (bool_decide (state q = SLEEPING /\ chan q = c)) eqn:E.
  - right. apply bool_decide_eq_true_1 in E. destruct E as [Hs Hc].
    destruct pol; (split; [reflexivity|split; assumption]).
  - left. reflexivity.
Qed.

Lemma wake_one_keeps_runnable c tk q :
  state q = RUNNABLE -> state (wake_one c tk q) = RUNNABLE.
Proof.
  intros H. destruct (wake_one_cases c tk q) as [->|[? _]]; assumption.
Qed.

Lemma wake_twice_runnable c1 c2 b me tk i x :
  Some i <> me -> state x = SLEEPING ->
  chan x = c1 \/ (chan x = c2 /\ b = true) ->
  state (wake_at c1 me tk i (wake_if_at b c2 me tk i x)) = RUNNABLE.
Proof.
  intros Hme Hs Hc. unfold wake_if_at, wake_at. rewrite !decide_False by exact Hme.
  destruct b.
  - destruct (wake_one_cases c2 tk x) as [E|[Hr _]].
    + rewrite E. destruct Hc as [Hc|[Hc _]].
      * apply wake_one_hit; assumption.
      * rewrite <- E. apply wake_one_keeps_runnable, wake_one_hit; assumption.
    + apply wake_one_keeps_runnable, Hr.
  - destruct Hc as [Hc|[_ ?]]; [|discriminate]. apply wake_one_hit; assumption.
Qed.

Lemma reparented_other p init q : parent q <> p -> reparented p init q = q.
Proof. intros H. unfold reparented. rewrite decide_False by exact H. reflexivity. Qed.

Lemma reparented_child p init q : parent q = p -> parent (reparented p init q) = init.
Proof. intros H. unfold reparented. rewrite decide_True by exact H. reflexivity. Qed.

Lemma reparented_state p init q : state (reparented p init q) = state q.
Proof. unfold reparented. destruct (decide _); reflexivity. Qed.

Lemma reparented_chan p init q : chan (reparented p init q) = chan q.
Proof. unfold reparented. destruct (decide _); reflexivity. Qed.

(** ** [freeproc], [wait] and [waitx] *)

(** The slot that [freeproc] leaves, and the resources it gives back. *)
Definition freed_slot (q : proc) : proc :=
  set_state UNUSED (set_xstate 0 (set_killed 0 (set_chan CNull
    (set_name (<[0%nat := 0]> (name q)) (set_parent None (set_pid 0 (set_sz 0
      (set_pagetable 0 (set_trapframe 0 q))))))))).

Definition free_events (q : proc) : list event :=
  (if trapframe q =? 0 then [] else [EKfree (trapframe q)])
  ++ (if pagetable q =? 0 then [] else [EFreePagetable (pagetable q) (sz q)]).

Definition logs (evs : list event) (s : kstate) : kstate :=
  set_klog (klog s ++ evs) s.

Lemma upd_log i f e s : upd i f (log e s) = log e (upd i f s).
Proof. reflexivity. Qed.

Lemma upd_logs i f evs s : upd i f (logs evs s) = logs evs (upd i f s).
Proof. reflexivity. Qed.

Lemma logs_nil s : logs [] s = s.
Proof. unfold logs. rewrite app_nil_r. destruct s; reflexivity. Qed.

Lemma log_logs e evs s : log e (logs evs s) = logs (evs ++ [e]) s.
Proof. unfold log, logs. cbn [klog set_klog]. rewrite <- app_assoc. reflexivity. Qed.

Lemma logs_logs evs1 evs2 s : logs evs2 (logs evs1 s) = logs (evs1 ++ evs2) s.
Proof. unfold logs. cbn [klog set_klog]. rewrite <- app_assoc. reflexivity. Qed.

Lemma log_as_logs e s : log e s = logs [e] s.
Proof. reflexivity. Qed.

Lemma freeproc_run i q s :
  procs s !! i = Some q ->
  freeproc i s = Ret tt (logs (free_events q) (upd i freed_slot s)).
Proof.
  intros Hi. unfold freeproc, free_events. erewrite bind_getp by exact Hi.
  erewrite (bind_eq_ret (when _ _)) with
    (s' := logs (if trapframe q =? 0 then [] else [EKfree (trapframe q)]) s); cycle 1.
  { destruct (trapframe q =? 0); cbn [negb when]; [rewrite logs_nil|]; reflexivity. }
  rewrite bind_setp, upd_logs.
  erewrite bind_getp by (unfold logs; cbn [procs set_klog]; eapply upd_lookup_eq, Hi).
  kred.
  erewrite (bind_eq_ret (when _ _)) with
    (s' := logs (if pagetable q =? 0 then [] else [EFreePagetable (pagetable q) (sz q)])
             (logs (if trapframe q =? 0 then [] else [EKfree (trapframe q)])
                (upd i (set_trapframe 0) s))); cycle 1.
  { destruct (pagetable q =? 0); cbn [negb when]; [rewrite logs_nil|]; reflexivity. }
  rewrite logs_logs.
  repeat (rewrite bind_setp, upd_logs, upd_upd). rewrite setp_run, upd_logs, upd_upd.
  reflexivity.
Qed.

(** The event of a successful copy of the exit status, if one was asked. *)
Definition copy_events (pt addr : Z) (np : proc) : list event :=
  if addr =? 0 then [] else [ECopyout pt addr (xstate np)].

Lemma copy_status_none me np s : copy_status_fails me 0 np s = Ret false s.
Proof. reflexivity. Qed.

Lemma copy_status_run p pq addr np s :
  addr <> 0 -> procs s !! p = Some pq ->
  copy_status_fails (Some p) addr np s
  = Ret (copyout (pagetable pq) addr (xstate np) <? 0)
      (if copyout (pagetable pq) addr (xstate np) <? 0 then s
       else log (ECopyout (pagetable pq) addr (xstate np)) s).
Proof.
  intros Ha Hp. unfold copy_status_fails. rewrite (proj2 (Z.eqb_neq _ _) Ha).
  rewrite bind_deref by (eapply lookup_lt_Some, Hp).
  erewrite bind_getp by exact Hp.
  destruct (copyout (pagetable pq) addr (xstate np) <? 0); cbn [negb when];
    kstep; reflexivity.
Qed.

Lemma wait_body_skip me addr i hk q s :
  procs s !! i = Some q -> parent q <> me ->
  wait_body me addr i hk s = Ret (inl hk) s.
Proof.
  intros Hi Hp. unfold wait_body. erewrite bind_getp by exact Hi.
  rewrite decide_False by exact Hp. reflexivity.
Qed.

Lemma wait_body_child me addr i hk q s :
  procs s !! i = Some q -> lock q = false -> parent q = me -> state q <> ZOMBIE ->
  wait_body me addr i hk s = Ret (inl 1) s.
Proof.
  intros Hi Hl Hp Hs. unfold wait_body. erewrite bind_getp by exact Hi.
  rewrite decide_True by exact Hp. do 2 kstep.
  rewrite decide_False by exact Hs. kstep.
  rewrite upd_upd, upd_id; [reflexivity|].
  intros x Hx. rewrite Hi in Hx. injection Hx as <-. proc_eq.
Qed.

(** The outcome of the status copy for a caller [me]: [None] when the copy
    fails, the events of the copy otherwise. *)
Definition copy_outcome (me : option nat) (addr : Z) (np : proc) (s : kstate)
  : option (list event) :=
  if addr =? 0 then Some []
  else
    match me with
    | Some p =>
        match procs s !! p with
        | Some pq =>
            if copyout (pagetable pq) addr (xstate np) <? 0 then None
            else Some [ECopyout (pagetable pq) addr (xstate np)]
        | None => None
        end
    | None => None
    end.

Lemma copy_status_fails_good me addr np s i evs :
  copy_outcome me addr np s = Some evs ->
  copy_status_fails me addr np (upd i (set_lock true) s)
  = Ret false (logs evs (upd i (set_lock true) s)).
Proof.
  unfold copy_outcome. intros H. destruct (addr =? 0) eqn:Ea.
  - injection H as <-. apply Z.eqb_eq in Ea. subst addr.
    rewrite copy_status_none. f_equal. unfold logs. rewrite app_nil_r.
    destruct s; reflexivity.
  - apply Z.eqb_neq in Ea. destruct me as [p|]; [|discriminate].
    destruct (procs s !! p) as [pq|] eqn:Ep; [|discriminate].
    destruct (copyout (pagetable pq) addr (xstate np) <? 0) eqn:Ec; [discriminate|].
    injection H as <-.
    destruct (decide (i = p)) as [->|Hne].
    + erewrite copy_status_run; [|exact Ea|eapply upd_lookup_eq, Ep].
      kred. rewrite Ec. reflexivity.
    + erewrite copy_status_run; [|exact Ea|rewrite upd_lookup_ne by done; exact Ep].
      rewrite Ec. reflexivity.
Qed.

Lemma copy_status_fails_bad p pq addr np s i :
  addr <> 0 -> procs s !! p = Some pq ->
  copyout (pagetable pq) addr (xstate np) < 0 ->
  copy_status_fails (Some p) addr np (upd i (set_lock true) s)
  = Ret true (upd i (set_lock true) s).
Proof.
  intros Ha Hp Hc. apply Z.ltb_lt in Hc.
  destruct (decide (i = p)) as [->|Hne].
  - erewrite copy_status_run; [|exact Ha|eapply upd_lookup_eq, Hp].
    kred. rewrite Hc. reflexivity.
  - erewrite copy_status_run; [|exact Ha|rewrite upd_lookup_ne by done; exact Hp].
    rewrite Hc. reflexivity.
Qed.

(** The state [wait] returns in after reaping slot [i]. *)
Definition reaped (i : nat) (q : proc) (evs : list event) (s : kstate) : kstate :=
  logs (evs ++ free_events q) (upd i freed_slot s).

Lemma wait_body_reap me addr i hk q s evs :
  procs s !! i = Some q -> lock q = false -> parent q = me -> state q = ZOMBIE ->
  wait_lock s = true ->
  copy_outcome me addr q s = Some evs ->
  wait_body me addr i hk s = Ret (inr (pid q)) (set_wait_lock false (reaped i q evs s)).
Proof.
  intros Hi Hl Hp Hs Hw Hc. unfold wait_body. erewrite bind_getp by exact Hi.
  rewrite decide_True by exact Hp. do 2 kstep.
  rewrite decide_True by exact Hs.
  erewrite bind_eq_ret by (apply copy_status_fails_good, Hc). cbv beta iota.
  erewrite bind_eq_ret; cycle 1.
  { apply freeproc_run. unfold logs. cbn [procs set_klog]. klook. }
  cbv beta.
  rewrite bind_release; cycle 1.
  { erewrite holding_proc; cycle 1.
    { unfold logs. cbn [procs set_klog]. klook. }
    reflexivity. }
  rewrite bind_release by (cbn [holding]; exact Hw).
  unfold ret. f_equal. unfold reaped, logs, free_events. cbn [set_held]. kstate_eq.
  - rewrite !list_alter_alter_eq. apply list_alter_ext; [|reflexivity].
    intros x Hx. rewrite Hi in Hx. injection Hx as <-. proc_eq.
  - kred. rewrite <- !app_assoc. reflexivity.
Qed.

Lemma wait_body_fail p pq addr i hk q s :
  procs s !! i = Some q -> lock q = false -> parent q = Some p -> state q = ZOMBIE ->
  wait_lock s = true ->
  addr <> 0 -> procs s !! p = Some pq -> copyout (pagetable pq) addr (xstate q) < 0 ->
  wait_body (Some p) addr i hk s = Ret (inr (-1)) (set_wait_lock false s).
Proof.
  intros Hi Hl Hp Hs Hw Ha Hpq Hc. unfold wait_body. erewrite bind_getp by exact Hi.
  rewrite decide_True by exact Hp. do 2 kstep.
  rewrite decide_True by exact Hs.
  erewrite bind_eq_ret by (eapply copy_status_fails_bad; eassumption). cbv beta iota.
  kstep. rewrite bind_release by (cbn [holding]; kred; exact Hw).
  unfold ret. f_equal. cbn [set_held]. rewrite upd_upd, upd_id; [reflexivity|].
  intros x Hx. rewrite Hi in Hx. injection Hx as <-. proc_eq.
Qed.

(** [q] is a child of [me] that has exited. *)
Definition zombie_child (me : option nat) (q : proc) : Prop :=
  parent q = me /\ state q = ZOMBIE.

Lemma set_wait_lock_roundtrip s :
  wait_lock s = false -> set_wait_lock false (set_wait_lock true s) = s.
Proof. intros H. destruct s; cbn in *; subst; reflexivity. Qed.

Lemma reaped_unlock i q evs s :
  wait_lock s = false ->
  set_wait_lock false (reaped i q evs (set_wait_lock true s)) = reaped i q evs s.
Proof. intros H. destruct s; cbn in *; subst; reflexivity. Qed.

Lemma wait_body_before me addr s i q j hk :
  locks_free s -> first_slot (zombie_child me) s i q -> (j < i)%nat ->
  exists hk', wait_body me addr j hk (set_wait_lock true s)
              = Ret (inl hk') (set_wait_lock true s).
Proof.
  intros Hfree (Hi & _ & Hfirst) Hj.
  destruct (lookup_lt_NPROC s j) as [x Hx].
  { apply lookup_lt_Some in Hi. unfold NPROC. lia. }
  destruct (decide (parent x = me)) as [Hp|Hp].
  - exists 1. eapply wait_body_child; eauto.
    intros Hs. eapply Hfirst; eauto. split; assumption.
  - exists hk. eapply wait_body_skip; eauto.
Qed.

Lemma wait_reaps fuel addr s i q evs :
  locks_free s -> wait_lock s = false ->
  first_slot (zombie_child (cpu_proc s)) s i q ->
  copy_outcome (cpu_proc s) addr q s = Some evs ->
  wait (S fuel) addr s = Ret (pid q) (reaped i q evs s).
Proof.
  intros Hfree Hw Hfirst Hc. unfold wait. rewrite bind_myproc.
  rewrite bind_acquire by exact Hw. cbn [set_held wait_loop].
  erewrite bind_eq_ret; cycle 1.
  { unfold wait_scan. rewrite bind_get. rewrite set_wait_lock_NPROC.
    apply for_loop_hit_any with (k := i).
    - split; [lia|]. destruct Hfirst as [Hi _]. eapply lookup_lt_Some, Hi.
    - intros j hk Hj. eapply wait_body_before; eauto. lia.
    - intros hk. destruct Hfirst as (Hi & [Hp Hs] & _).
      eapply wait_body_reap; eauto. }
  cbv beta iota. unfold ret. f_equal. apply reaped_unlock, Hw.
Qed.

Lemma wait_copy_fails fuel addr s i q p pq :
  locks_free s -> wait_lock s = false ->
  cpu_proc s = Some p -> procs s !! p = Some pq ->
  first_slot (zombie_child (Some p)) s i q ->
  addr <> 0 -> copyout (pagetable pq) addr (xstate q) < 0 ->
  wait (S fuel) addr s = Ret (-1) s.
Proof.
  intros Hfree Hw Hme Hpq Hfirst Ha Hc. unfold wait. rewrite bind_myproc, Hme.
  rewrite bind_acquire by exact Hw. cbn [set_held wait_loop].
  erewrite bind_eq_ret; cycle 1.
  { unfold wait_scan. rewrite bind_get. rewrite set_wait_lock_NPROC.
    apply for_loop_hit_any with (k := i).
    - split; [lia|]. destruct Hfirst as [Hi _]. eapply lookup_lt_Some, Hi.
    - intros j hk Hj. eapply wait_body_before; eauto. lia.
    - intros hk. destruct Hfirst as (Hi & [Hp Hs] & _).
      eapply wait_body_fail; eauto. }
  cbv beta iota. unfold ret. f_equal. apply set_wait_lock_roundtrip, Hw.
Qed.

Lemma wait_no_children fuel addr s :
  locks_free s -> wait_lock s = false ->
  (forall i q, procs s !! i = Some q -> parent q <> cpu_proc s) ->
  wait (S fuel) addr s = Ret (-1) s.
Proof.
  intros Hfree Hw Hno. unfold wait. rewrite bind_myproc.
  rewrite bind_acquire by exact Hw. cbn [set_held wait_loop].
  erewrite bind_eq_ret; cycle 1.
  { unfold wait_scan. rewrite bind_get. rewrite set_wait_lock_NPROC.
    apply for_loop_skip. intros j Hj.
    destruct (lookup_lt_NPROC s j) as [x Hx]; [lia|].
    eapply wait_body_skip; eauto. }
  cbv beta iota. unfold no_point_waiting. cbn [Z.eqb]. rewrite bind_ret.
  rewrite bind_release by reflexivity.
  unfold ret. f_equal. apply set_wait_lock_roundtrip, Hw.
Qed.

Lemma wait_killed fuel addr s p pq :
  locks_free s -> wait_lock s = false ->
  cpu_proc s = Some p -> procs s !! p = Some pq -> killed pq <> 0 ->
  (forall i q, procs s !! i = Some q -> ~ zombie_child (Some p) q) ->
  wait (S fuel) addr s = Ret (-1) s.
Proof.
  intros Hfree Hw Hme Hpq Hk Hno. unfold wait. rewrite bind_myproc, Hme.
  rewrite bind_acquire by exact Hw. cbn [set_held wait_loop].
  destruct (for_loop_pass (wait_body (Some p) addr) (NPROC s) (set_wait_lock true s) 0 0)
    as [hk Hscan].
  { intros j hk Hj. destruct (lookup_lt_NPROC s j) as [x Hx]; [lia|].
    destruct (decide (parent x = Some p)) as [Hp|Hp].
    - exists 1. eapply wait_body_child; eauto.
      intros Hs. eapply Hno; eauto. split; assumption.
    - exists hk. eapply wait_body_skip; eauto. }
  erewrite bind_eq_ret; cycle 1.
  { unfold wait_scan. rewrite bind_get, set_wait_lock_NPROC. exact Hscan. }
  cbv beta iota.
  erewrite (bind_eq_ret (no_point_waiting _ _)) with (a := true); cycle 1.
  { unfold no_point_waiting. destruct (hk =? 0); [reflexivity|].
    rewrite bind_deref by (eapply lookup_lt_Some, Hpq).
    erewrite bind_getp by exact Hpq.
    rewrite (proj2 (Z.eqb_neq _ _) Hk). reflexivity. }
  rewrite bind_release by reflexivity.
  unfold ret. f_equal. apply set_wait_lock_roundtrip, Hw.
Qed.

Lemma waitx_body_skip me addr i st q s :
  procs s !! i = Some q -> parent q <> me ->
  waitx_body me addr i st s = Ret (inl st) s.
Proof.
  intros Hi Hp. unfold waitx_body. destruct st as [hk out].
  erewrite bind_getp by exact Hi.
  rewrite decide_False by exact Hp. reflexivity.
Qed.

Lemma waitx_body_child me addr i st q s :
  procs s !! i = Some q -> lock q = false -> parent q = me -> state q <> ZOMBIE ->
  waitx_body me addr i st s = Ret (inl (1, snd st)) s.
Proof.
  intros Hi Hl Hp Hs. unfold waitx_body. destruct st as [hk out].
  erewrite bind_getp by exact Hi.
  rewrite decide_True by exact Hp. do 2 kstep.
  rewrite decide_False by exact Hs. kstep.
  rewrite upd_upd, upd_id; [reflexivity|].
  intros x Hx. rewrite Hi in Hx. injection Hx as <-. proc_eq.
Qed.

Lemma waitx_body_fail p pq addr i st q s :
  procs s !! i = Some q -> lock q = false -> parent q = Some p -> state q = ZOMBIE ->
  wait_lock s = true ->
  addr <> 0 -> procs s !! p = Some pq -> copyout (pagetable pq) addr (xstate q) < 0 ->
  waitx_body (Some p) addr i st s
  = Ret (inr (-1, (rtime q, wrapu32 (etime q - ctime q - rtime q))))
      (set_wait_lock false s).
Proof.
  intros Hi Hl Hp Hs Hw Ha Hpq Hc. unfold waitx_body. destruct st as [hk out].
  erewrite bind_getp by exact Hi.
  rewrite decide_True by exact Hp. do 2 kstep.
  rewrite decide_True by exact Hs.
  erewrite bind_eq_ret by (eapply copy_status_fails_bad; eassumption). cbv beta iota.
  kstep. rewrite bind_release by (cbn [holding]; kred; exact Hw).
  unfold ret. f_equal. cbn [set_held]. rewrite upd_upd, upd_id; [reflexivity|].
  intros x Hx. rewrite Hi in Hx. injection Hx as <-. proc_eq.
Qed.

Lemma waitx_copy_fails fuel addr out s i q p pq :
  locks_free s -> wait_lock s = false ->
  cpu_proc s = Some p -> procs s !! p = Some pq ->
  first_slot (zombie_child (Some p)) s i q ->
  addr <> 0 -> copyout (pagetable pq) addr (xstate q) < 0 ->
  waitx (S fuel) addr out s
  = Ret (-1, (rtime q, wrapu32 (etime q - ctime q - rtime q))) s.
Proof.
  intros Hfree Hw Hme Hpq Hfirst Ha Hc. unfold waitx. rewrite bind_myproc, Hme.
  rewrite bind_acquire by exact Hw. cbn [set_held waitx_loop].
  erewrite bind_eq_ret; cycle 1.
  { unfold waitx_scan. rewrite bind_get. rewrite set_wait_lock_NPROC.
    apply for_loop_hit_any with (k := i).
    - split; [lia|]. destruct Hfirst as [Hi _]. eapply lookup_lt_Some, Hi.
    - intros j st Hj. destruct Hfirst as (Hi & _ & Hfirst).
      destruct (lookup_lt_NPROC s j) as [x Hx].
      { apply lookup_lt_Some in Hi. unfold NPROC. lia. }
      destruct (decide (parent x = Some p)) as [Hp|Hp].
      + eexists. eapply waitx_body_child; eauto.
        intros Hs. eapply (Hfirst j x); [lia|exact Hx|]. split; assumption.
      + eexists. eapply waitx_body_skip; eauto.
    - intros st. destruct Hfirst as (Hi & [Hp Hs] & _).
      eapply waitx_body_fail; eauto. }
  cbv beta iota. unfold ret. f_equal. apply set_wait_lock_roundtrip, Hw.
Qed.

(** ** [yield] and [set_priority_i] *)

Lemma yield_run s p q :
  cpu_proc s = Some p -> procs s !! p = Some q ->
  locks_free s -> wait_lock s = false -> pid_lock s = false ->
  yield s
  = Swtch (upd p (fun q => set_state RUNNABLE (set_lock true q)) s)
      (fun s' => run_bind (Ret tt (set_intena (intena s) s'))
                   (fun _ => release (ProcLock p))).
Proof.
  intros Hme Hp Hfree Hw Hpl. unfold yield. rewrite bind_myproc, Hme.
  rewrite bind_deref by (eapply lookup_lt_Some, Hp).
  rewrite bind_acquire by (rewrite (holding_proc _ _ _ Hp); eapply Hfree, Hp).
  cbn [set_held]. rewrite bind_setp, upd_upd.
  erewrite bind_eq_swtch; cycle 1.
  { eapply sched_run with (p := p).
    - exact Hme.
    - eapply upd_lookup_eq, Hp.
    - reflexivity.
    - eapply noff_one with (p := p).
      + exact Hw.
      + exact Hpl.
      + eapply upd_lookup_eq, Hp.
      + reflexivity.
      + intros k y Hk Hy. rewrite upd_lookup_ne in Hy by congruence. eapply Hfree, Hy.
    - kred. discriminate. }
  reflexivity.
Qed.

(** The slots [set_priority_i] looks for. *)
Definition eligible (pid0 : Z) (q : proc) : Prop :=
  (state q = RUNNABLE \/ state q = SLEEPING) /\ pid q = pid0.

Lemma eligible_test pid0 q :
  bool_decide (state q = RUNNABLE \/ state q = SLEEPING) && (pid q =? pid0) = true
  <-> eligible pid0 q.
Proof.
  unfold eligible. rewrite andb_true_iff, bool_decide_eq_true, Z.eqb_eq. reflexivity.
Qed.

Lemma set_priority_body_skip pid0 j q s :
  procs s !! j = Some q -> lock q = false -> ~ eligible pid0 q ->
  set_priority_body pid0 j tt s = Ret (inl tt) s.
Proof.
  intros Hj Hl He. unfold set_priority_body. do 2 kstep.
  destruct (bool_decide _ && _) eqn:E.
  - exfalso. apply He, eligible_test. exact E.
  - kstep. rewrite upd_upd, upd_id; [reflexivity|].
    intros x Hx. rewrite Hj in Hx. injection Hx as <-. proc_eq.
Qed.

Lemma set_priority_body_hit pid0 j q s :
  procs s !! j = Some q -> lock q = false -> eligible pid0 q ->
  set_priority_body pid0 j tt s = Ret (inr j) (upd j (set_lock true) s).
Proof.
  intros Hj Hl He. unfold set_priority_body. do 2 kstep.
  rewrite (proj2 (eligible_test pid0 q) He). reflexivity.
Qed.

(** What [set_priority_i] does to the slot it finds. *)
Definition reprioritized (priority : Z) (q : proc) : proc :=
  set_sleeping_time (-1) (set_running_time (-1) (set_Static_priority priority q)).

Lemma set_priority_rejects priority pid0 s :
  pol = PBS -> priority < 0 \/ 100 < priority ->
  set_priority_i priority pid0 s = Ret 1 s.
Proof.
  intros Hpol Hr. unfold set_priority_i. rewrite Hpol.
  replace ((priority <? 0) || (priority >? 100)) with true; [reflexivity|].
  symmetry. apply orb_true_iff. rewrite Z.ltb_lt, Z.gtb_ltb, Z.ltb_lt. exact Hr.
Qed.

Lemma in_range_test priority :
  0 <= priority <= 100 -> (priority <? 0) || (priority >? 100) = false.
Proof.
  intros H. apply orb_false_iff. rewrite Z.gtb_ltb, !Z.ltb_ge. lia.
Qed.

Lemma set_priority_not_found priority pid0 s :
  pol = PBS -> 0 <= priority <= 100 -> locks_free s ->
  (forall i q, procs s !! i = Some q -> ~ eligible pid0 q) ->
  set_priority_i priority pid0 s = Ret 2 s.
Proof.
  intros Hpol Hr Hfree Hno. unfold set_priority_i. rewrite Hpol, in_range_test by exact Hr.
  rewrite bind_get.
  erewrite bind_eq_ret; cycle 1.
  { apply for_loop_skip. intros j Hj.
    destruct (lookup_lt_NPROC s j) as [x Hx]; [lia|].
    eapply set_priority_body_skip; eauto. }
  reflexivity.
Qed.

(** The search of [set_priority_i] and the update of the slot found; [m] is
    what follows the release of the slot's lock. *)
Lemma set_priority_found_prefix priority pid0 s i q :
  pol = PBS -> 0 <= priority <= 100 -> pid0 <> -1 -> locks_free s ->
  first_slot (eligible pid0) s i q ->
  set_priority_i priority pid0 s
  = bind (when (priority >? Static_priority q) yield)
      (fun _ => ret (Static_priority q)) (upd i (reprioritized priority) s).
Proof.
  intros Hpol Hr Hpid Hfree (Hi & He & Hfirst).
  unfold set_priority_i. rewrite Hpol, in_range_test by exact Hr.
  rewrite bind_get.
  erewrite bind_eq_ret; cycle 1.
  { apply for_loop_hit with (k := i).
    - split; [lia|]. eapply lookup_lt_Some, Hi.
    - intros j Hj. destruct (lookup_lt_NPROC s j) as [x Hx].
      { apply lookup_lt_Some in Hi. unfold NPROC. lia. }
      eapply set_priority_body_skip; eauto. eapply Hfirst; eauto. lia.
    - eapply set_priority_body_hit; eauto. }
  cbv beta iota. erewrite bind_getp by (eapply upd_lookup_eq, Hi). kred.
  destruct He as [_ He]. rewrite He. rewrite (proj2 (Z.eqb_neq _ _) Hpid).
  rewrite !bind_setp, !upd_upd.
  rewrite bind_release by (erewrite holding_proc by (eapply upd_lookup_eq, Hi); reflexivity).
  cbn [set_held]. rewrite upd_upd.
  replace (upd i (fun q0 => set_lock false (set_sleeping_time (-1)
             (set_running_time (-1) (set_Static_priority priority (set_lock true q0))))) s)
    with (upd i (reprioritized priority) s); [reflexivity|].
  apply upd_ext. intros x Hx. rewrite Hi in Hx. injection Hx as <-.
  assert (lock q = false) as Hl by (eapply Hfree, Hi).
  unfold reprioritized. proc_eq.
Qed.

(** ** The priority of PBS *)

Lemma wrap32_id x : is_int x -> wrap32 x = x.
Proof.
  unfold is_int, wrap32. intros H.
  rewrite Z.mod_small by lia. lia.
Qed.

Lemma wrap32_add_l a b : wrap32 (wrap32 a + b) = wrap32 (a + b).
Proof.
  unfold wrap32.
  replace ((a + 2 ^ 31) mod 2 ^ 32 - 2 ^ 31 + b + 2 ^ 31)
    with ((a + 2 ^ 31) mod 2 ^ 32 + b) by lia.
  rewrite Zplus_mod_idemp_l. do 2 f_equal. lia.
Qed.

(** The formula of the specification, over the integers: the niceness, the
    clamp, and the dynamic priority. *)
Definition fresh (p : proc) : Prop := sleeping_time p = -1 /\ running_time p = -1.

#[global] Instance fresh_dec p : Decision (fresh p).
Proof. unfold fresh. apply _. Defined.

Definition clamp (lo hi v : Z) : Z := Z.max lo (Z.min hi v).

Definition spec_niceness (p : proc) : Z :=
  if decide (fresh p) then 5
  else Z.quot (sleeping_time p * 10) (running_time p + sleeping_time p).

Definition spec_dynamic_priority (p : proc) : Z :=
  clamp 0 100 (Static_priority p - spec_niceness p + 5).

(** The values the code computes on the way fit a C [int]. *)
Definition representable (p : proc) : Prop :=
  is_int (Static_priority p - spec_niceness p + 5) /\
  (~ fresh p ->
   is_int (sleeping_time p * 10) /\ is_int (running_time p + sleeping_time p) /\
   is_int (spec_niceness p)).

Lemma niceness_spec p :
  representable p -> fresh p \/ running_time p + sleeping_time p <> 0 ->
  niceness p = Some (spec_niceness p).
Proof.
  intros [_ Hrep] Hdiv. unfold niceness, spec_niceness.
  destruct (decide (fresh p)) as [Hf|Hf].
  - rewrite bool_decide_eq_true_2 by exact Hf. reflexivity.
  - rewrite bool_decide_eq_false_2 by exact Hf.
    destruct Hdiv as [?|Hdiv]; [contradiction|].
    destruct (Hrep Hf) as (H1 & H2 & H3).
    unfold spec_niceness in H3. rewrite decide_False in H3 by exact Hf.
    rewrite (wrap32_id _ H1), (wrap32_id _ H2). unfold int_div.
    rewrite (proj2 (Z.eqb_neq _ _) Hdiv). rewrite (wrap32_id _ H3). reflexivity.
Qed.

Lemma clamp_cases v :
  (if v >? 100 then 100 else if v <? 0 then 0 else v) = clamp 0 100 v.
Proof.
  unfold clamp. rewrite Z.gtb_ltb.
  destruct (100 <? v) eqn:E1; [apply Z.ltb_lt in E1; lia|apply Z.ltb_ge in E1].
  destruct (v <? 0) eqn:E2; [apply Z.ltb_lt in E2|apply Z.ltb_ge in E2]; lia.
Qed.

Lemma PSBPriority_spec p :
  representable p -> fresh p \/ running_time p + sleeping_time p <> 0 ->
  PSBPriority p = Some (spec_dynamic_priority p).
Proof.
  intros Hrep Hdiv. unfold PSBPriority. rewrite (niceness_spec p Hrep Hdiv).
  rewrite wrap32_add_l. destruct Hrep as [H _]. rewrite (wrap32_id _ H).
  unfold spec_dynamic_priority.
  destruct (_ >? 100) eqn:E1; [|destruct (_ <? 0) eqn:E2]; f_equal;
    rewrite <- clamp_cases, E1, ?E2; reflexivity.
Qed.

(** ** Scans for a least key

    The schedulers look for the eligible slot of least key with a local that
    holds the least key so far, [sent] standing for "none yet": the first
    eligible slot is taken as it comes, a later one only if its key is
    strictly less. *)

Section Scan.

Variable sent : Z.
Variable elig : proc -> bool.
Variable key : proc -> Z.
Variable l : list proc.
Variable t0 : option nat.

Definition scan_step (acc : Z * option nat) (j : nat) (q : proc) : Z * option nat :=
  if elig q then
    if fst acc =? sent then (key q, Some j)
    else if key q <? fst acc then (key q, Some j)
    else acc
  else acc.

Fixpoint scan_upto (j : nat) : Z * option nat :=
  match j with
  | O => (sent, t0)
  | S j' =>
      match l !! j' with
      | Some q => scan_step (scan_upto j') j' q
      | None => scan_upto j'
      end
  end.

(** Slot [t] is the eligible slot of least key among the first [j], and the
    first of those of that key. *)
Definition least_upto (j t : nat) (qt : proc) : Prop :=
  (t < j)%nat /\ l !! t = Some qt /\ elig qt = true /\
  forall k q, (k < j)%nat -> l !! k = Some q -> elig q = true ->
    key qt <= key q /\ (key q = key qt -> (t <= k)%nat).

Definition scan_inv (j : nat) (acc : Z * option nat) : Prop :=
  (fst acc = sent /\ snd acc = t0 /\
   forall k q, (k < j)%nat -> l !! k = Some q -> elig q = false)
  \/
  (fst acc <> sent /\
   exists t qt, snd acc = Some t /\ key qt = fst acc /\ least_upto j t qt).

Hypothesis key_not_sent : forall k q, l !! k = Some q -> elig q = true -> key q <> sent.

Lemma least_upto_first j q :
  l !! j = Some q -> elig q = true ->
  (forall k q', (k < j)%nat -> l !! k = Some q' -> elig q' = false) ->
  least_upto (S j) j q.
Proof.
  intros Hj He Hno. split; [lia|]. split; [exact Hj|]. split; [exact He|].
  intros k q' Hk Hq' He'. destruct (decide (k = j)) as [->|Hne].
  - rewrite Hj in Hq'. injection Hq' as <-. split; [lia|intros; lia].
  - rewrite (Hno k q') in He' by (lia || assumption). discriminate.
Qed.

Lemma least_upto_better j t qt q :
  least_upto j t qt -> l !! j = Some q -> elig q = true -> key q < key qt ->
  least_upto (S j) j q.
Proof.
  intros (Ht & Hqt & Het & Hleast) Hj He Hlt.
  split; [lia|]. split; [exact Hj|]. split; [exact He|].
  intros k q' Hk Hq' He'. destruct (decide (k = j)) as [->|Hne].
  - rewrite Hj in Hq'. injection Hq' as <-. split; [lia|intros; lia].
  - destruct (Hleast k q' ltac:(lia) Hq' He') as [Hle _]. split; lia.
Qed.

Lemma least_upto_keep j t qt :
  least_upto j t qt ->
  (forall q, l !! j = Some q -> elig q = true -> key qt <= key q) ->
  least_upto (S j) t qt.
Proof.
  intros (Ht & Hqt & Het & Hleast) Hj.
  split; [lia|]. split; [exact Hqt|]. split; [exact Het|].
  intros k q' Hk Hq' He'. destruct (decide (k = j)) as [->|Hne].
  - split; [apply Hj; assumption|intros; lia].
  - apply (Hleast k q'); assumption || lia.
Qed.

Lemma scan_upto_inv j : scan_inv j (scan_upto j).
Proof.
  induction j as [|j IH]; cbn [scan_upto].
  - left. split; [reflexivity|]. split; [reflexivity|]. intros; lia.
  - destruct (l !! j) as [q|] eqn:Eq.
    + unfold scan_step. destruct (elig q) eqn:Ee.
      * pose proof (key_not_sent j q Eq Ee) as Hk.
        destruct IH as [(Hs & Ht & Hno)|(Hs & t & qt & Ht & Hkey & Hleast)].
        -- rewrite (proj2 (Z.eqb_eq _ _) Hs). right. split; [exact Hk|].
           exists j, q. split; [reflexivity|]. split; [reflexivity|].
           apply least_upto_first; assumption.
        -- rewrite (proj2 (Z.eqb_neq _ _) Hs).
           destruct (key q <? fst (scan_upto j)) eqn:Elt.
           ++ apply Z.ltb_lt in Elt. right. split; [exact Hk|].
              exists j, q. split; [reflexivity|]. split; [reflexivity|].
              eapply least_upto_better; eauto. lia.
           ++ apply Z.ltb_ge in Elt. right. split; [exact Hs|].
              exists t, qt. split; [exact Ht|]. split; [exact Hkey|].
              apply least_upto_keep; [exact Hleast|].
              intros q' Hq' _. rewrite Eq in Hq'. injection Hq' as <-. lia.
      * destruct IH as [(Hs & Ht & Hno)|(Hs & t & qt & Ht & Hkey & Hleast)].
        -- left. split; [exact Hs|]. split; [exact Ht|]. intros k q0 Hk Hq0.
           destruct (decide (k = j)) as [->|Hne]; [congruence|].
           apply (Hno k); assumption || lia.
        -- right. split; [exact Hs|]. exists t, qt.
           split; [exact Ht|]. split; [exact Hkey|].
           apply least_upto_keep; [exact Hleast|].
           intros q' Hq' He'. congruence.
    + destruct IH as [(Hs & Ht & Hno)|(Hs & t & qt & Ht & Hkey & Hleast)].
      * left. split; [exact Hs|]. split; [exact Ht|]. intros k q0 Hk Hq0.
        destruct (decide (k = j)) as [->|Hne]; [congruence|].
        apply (Hno k); assumption || lia.
      * right. split; [exact Hs|]. exists t, qt.
        split; [exact Ht|]. split; [exact Hkey|].
        apply least_upto_keep; [exact Hleast|].
        intros q' Hq' _. congruence.
Qed.

(** If some slot is eligible the scan of the whole table finds the least. *)
Lemma scan_upto_finds i q :
  l !! i = Some q -> elig q = true ->
  fst (scan_upto (length l)) <> sent /\
  exists t qt, snd (scan_upto (length l)) = Some t /\
    key qt = fst (scan_upto (length l)) /\ least_upto (length l) t qt.
Proof.
  intros Hi He. destruct (scan_upto_inv (length l)) as [(_ & _ & Hno)|H]; [|exact H].
  rewrite (Hno i q) in He; [discriminate| |exact Hi]. eapply lookup_lt_Some, Hi.
Qed.

End Scan.

(** ** The FCFS scheduler *)

Definition runnableb (q : proc) : bool := bool_decide (state q = RUNNABLE).

(** The state of the table during a scan that keeps its candidate locked. *)
Definition held (sent : Z) (acc : Z * option nat) (s : kstate) : kstate :=
  if fst acc =? sent then s
  else match snd acc with
       | Some t => upd t (set_lock true) s
       | None => s
       end.

Lemma upd_comm i j f g s : i <> j -> upd i f (upd j g s) = upd j g (upd i f s).
Proof.
  intros H. kstate_eq. apply list_alter_alter_ne. exact H.
Qed.

Lemma upd_lock_roundtrip j q s :
  procs s !! j = Some q -> lock q = false ->
  upd j (set_lock false) (upd j (set_lock true) s) = s.
Proof.
  intros Hj Hl. rewrite upd_upd. apply upd_id.
  intros x Hx. rewrite Hj in Hx. injection Hx as <-. proc_eq.
Qed.

Lemma scheduler_FCFS_body_run s j q acc :
  locks_free s -> procs s !! j = Some q ->
  (state q = RUNNABLE -> start_time q <> -1) ->
  (fst acc <> -1 -> exists t, snd acc = Some t /\ (t < j)%nat) ->
  scheduler_FCFS_body j acc (held (-1) acc s)
  = Ret (inl (scan_step (-1) runnableb start_time acc j q))
      (held (-1) (scan_step (-1) runnableb start_time acc j q) s).
Proof.
  intros Hfree Hj Hstart Hacc. destruct acc as [fs tbs]. cbn [fst snd] in Hacc.
  assert (Hl : lock q = false) by (eapply Hfree, Hj).
  unfold scheduler_FCFS_body, scan_step, runnableb, held. cbn [fst snd].
  destruct (fs =? -1) eqn:Efs.
  - (* no candidate yet *)
    rewrite bind_acquire by (rewrite (holding_proc _ _ _ Hj); exact Hl).
    cbn [set_held]. erewrite bind_getp by (eapply upd_lookup_eq, Hj). kred.
    destruct (decide (state q = RUNNABLE)) as [Hr|Hr].
    + rewrite bool_decide_eq_true_2 by exact Hr. cbn [fst snd].
      rewrite (proj2 (Z.eqb_neq _ _) (Hstart Hr)). reflexivity.
    + rewrite bool_decide_eq_false_2 by exact Hr. cbn [fst]. rewrite ?Efs.
      rewrite bind_release
        by (erewrite holding_proc by (eapply upd_lookup_eq, Hj); reflexivity).
      cbn [set_held]. rewrite (upd_lock_roundtrip _ _ _ Hj Hl). reflexivity.
  - (* a candidate [t] is held *)
    apply Z.eqb_neq in Efs. destruct (Hacc Efs) as (t & -> & Ht).
    destruct (lookup_lt_NPROC s t) as [qt Hqt].
    { apply lookup_lt_Some in Hj. unfold NPROC. lia. }
    assert (Hlt : lock qt = false) by (eapply Hfree, Hqt).
    assert (Hne : t <> j) by lia.
    rewrite bind_acquire; cycle 1.
    { erewrite holding_proc; [exact Hl|]. rewrite upd_lookup_ne by exact Hne. exact Hj. }
    cbn [set_held].
    erewrite bind_getp by (eapply upd_lookup_eq; rewrite upd_lookup_ne by exact Hne; exact Hj).
    kred.
    assert (Hback : upd j (set_lock false) (upd j (set_lock true) (upd t (set_lock true) s))
                    = upd t (set_lock true) s).
    { eapply upd_lock_roundtrip; [|exact Hl]. rewrite upd_lookup_ne by exact Hne. exact Hj. }
    assert (Hrel : holding (ProcLock j) (upd j (set_lock true) (upd t (set_lock true) s)) = true).
    { erewrite holding_proc
        by (eapply upd_lookup_eq; rewrite upd_lookup_ne by exact Hne; exact Hj).
      reflexivity. }
    destruct (decide (state q = RUNNABLE)) as [Hr|Hr].
    + rewrite bool_decide_eq_true_2 by exact Hr. cbn [fst snd].
      rewrite ?(proj2 (Z.eqb_neq _ _) Efs).
      destruct (start_time q <? fs) eqn:Elt.
      * rewrite bind_deref
          by (rewrite !upd_length; eapply lookup_lt_Some, Hqt).
        rewrite bind_release; cycle 1.
        { erewrite holding_proc
            by (rewrite upd_lookup_ne by congruence; eapply upd_lookup_eq, Hqt).
          reflexivity. }
        cbn [set_held fst snd]. rewrite (proj2 (Z.eqb_neq _ _) (Hstart Hr)).
        unfold ret. f_equal.
        rewrite (upd_comm t j) by exact Hne.
        rewrite (upd_lock_roundtrip _ _ _ Hqt Hlt). reflexivity.
      * rewrite bind_release by exact Hrel. cbn [set_held fst snd].
        rewrite ?(proj2 (Z.eqb_neq _ _) Efs), Hback. reflexivity.
    + rewrite bool_decide_eq_false_2 by exact Hr.
      rewrite bind_release by exact Hrel. cbn [set_held fst snd].
      rewrite ?(proj2 (Z.eqb_neq _ _) Efs), Hback. reflexivity.
Qed.

Lemma runnableb_true q : runnableb q = true <-> state q = RUNNABLE.
Proof. unfold runnableb. apply bool_decide_eq_true. Qed.

Lemma scheduler_FCFS_run tbs0 s t qt :
  locks_free s ->
  (forall i q, procs s !! i = Some q -> state q = RUNNABLE -> start_time q <> -1) ->
  snd (scan_upto (-1) runnableb start_time (procs s) tbs0 (NPROC s)) = Some t ->
  fst (scan_upto (-1) runnableb start_time (procs s) tbs0 (NPROC s)) <> -1 ->
  procs s !! t = Some qt ->
  scheduler_FCFS tbs0 s
  = Swtch (set_cpu_proc (Some t)
             (upd t (fun q => set_state RUNNING (set_lock true q))
                (set_intr true (set_cpu_proc None s))))
      (fun s' => run_bind (release (ProcLock t) s') (fun _ => ret (Some t))).
Proof.
  intros Hfree Hstart Ht Hfs Hqt. unfold scheduler_FCFS.
  rewrite bind_modify. unfold intr_on. rewrite bind_modify, bind_get.
  set (s0 := set_intr true (set_cpu_proc None s)).
  assert (Hfree0 : locks_free s0) by exact Hfree.
  erewrite bind_eq_ret; cycle 1.
  { pose proof (for_loop_exact scheduler_FCFS_body
      (fun j => (scan_upto (-1) runnableb start_time (procs s) tbs0 j,
                 held (-1) (scan_upto (-1) runnableb start_time (procs s) tbs0 j) s0))
      (NPROC s) 0) as H.
    cbn [fst snd] in H. apply H. intros j Hj.
    destruct (lookup_lt_NPROC s j) as [q Hq]; [lia|].
    cbn [scan_upto]. rewrite Hq.
    apply scheduler_FCFS_body_run.
    - exact Hfree0.
    - exact Hq.
    - apply (Hstart j q Hq).
    - intros Hne.
      destruct (scan_upto_inv (-1) runnableb start_time (procs s) tbs0) with (j := j)
        as [(Hs & _)|(_ & t' & qt' & Hsnd & _ & Hlt & _)].
      + intros k x Hk He. apply (Hstart k x Hk). apply runnableb_true, He.
      + contradiction.
      + eauto. }
  cbv beta iota. cbn [Nat.add].
  destruct (scan_upto (-1) runnableb start_time (procs s) tbs0 (NPROC s)) as [fs tbs] eqn:Eacc.
  cbn [fst snd] in Ht, Hfs. subst tbs.
  rewrite (proj2 (Z.eqb_neq _ _) Hfs).
  unfold held. cbn [fst snd]. rewrite (proj2 (Z.eqb_neq _ _) Hfs).
  rewrite bind_deref by (rewrite upd_length; eapply lookup_lt_Some, Hqt).
  rewrite bind_setp, upd_upd, bind_modify.
  reflexivity.
Qed.

(** ** The MLFQ scheduler *)

(** The aging step on one slot: a RUNNABLE process below the top level that
    has waited longer than the threshold of its level moves one level up
    and is stamped with the current tick. *)
Definition max_wait (n : Z) : Z :=
  match Max_wait !! Z.to_nat n with
  | Some w => w
  | None => 0
  end.

Definition upgrade_one (tk : Z) (q : proc) : proc :=
  if bool_decide (state q = RUNNABLE /\ priority_number q <> 0) then
    if wrapu32 (tk - time_added q) >? max_wait (priority_number q) then
      set_priority_number (wrap32 (priority_number q - 1)) (set_time_added tk q)
    else q
  else q.

(** The table after the aging step. *)
Definition aged (s : kstate) : list proc := upgrade_one (ticks s) <$> procs s.

(** The RUNNABLE slots are at one of the levels 0 to 3. *)
Definition levels_ok (l : list proc) : Prop :=
  forall i q, l !! i = Some q -> state q = RUNNABLE -> 0 <= priority_number q <= 3.

(** The level of every RUNNABLE slot is an index of [Max_wait]: one of the
    five levels 0 to 4. *)
Definition levels_indexed (l : list proc) : Prop :=
  forall i q, l !! i = Some q -> state q = RUNNABLE -> 0 <= priority_number q <= 4.

Lemma levels_ok_indexed l : levels_ok l -> levels_indexed l.
Proof. intros H i q Hq Hr. specialize (H i q Hq Hr). lia. Qed.

Lemma Max_wait_at_run n s :
  0 <= n <= 4 -> Max_wait_at n s = Ret (max_wait n) s.
Proof.
  intros H. unfold Max_wait_at, max_wait.
  rewrite (proj2 (Z.ltb_ge _ _)) by lia.
  assert (n = 0 \/ n = 1 \/ n = 2 \/ n = 3 \/ n = 4) as Hn by lia.
  destruct Hn as [->|[->|[->|[->| ->]]]]; reflexivity.
Qed.

Lemma UpgradePolicy_body_run p q s :
  procs s !! p = Some q ->
  (state q = RUNNABLE -> 0 <= priority_number q <= 4) ->
  UpgradePolicy_body p tt s = Ret (inl tt) (upd p (upgrade_one (ticks s)) s).
Proof.
  intros Hp Hlvl. unfold UpgradePolicy_body. erewrite bind_getp by exact Hp.
  destruct (bool_decide (state q = RUNNABLE /\ priority_number q <> 0)) eqn:E.
  - apply bool_decide_eq_true_1 in E as E'. destruct E' as [Hr Hn].
    erewrite bind_eq_ret by (apply Max_wait_at_run; exact (Hlvl Hr)).
    cbv beta. rewrite bind_get.
    destruct (wrapu32 (ticks s - time_added q) >? max_wait (priority_number q)) eqn:Ew;
      cbn [when].
    + erewrite bind_eq_ret; cycle 1.
      { rewrite bind_setp, setp_run, upd_upd. reflexivity. }
      unfold ret. f_equal. apply upd_ext. intros x Hx. rewrite Hp in Hx.
      injection Hx as <-. unfold upgrade_one. rewrite E, Ew. reflexivity.
    + rewrite bind_ret. unfold ret. f_equal. symmetry. apply upd_id.
      intros x Hx. rewrite Hp in Hx. injection Hx as <-.
      unfold upgrade_one. rewrite E, Ew. reflexivity.
  - unfold ret. f_equal. symmetry. apply upd_id.
    intros x Hx. rewrite Hp in Hx. injection Hx as <-.
    unfold upgrade_one. rewrite E. reflexivity.
Qed.

Lemma UpgradePolicy_run_indexed s :
  levels_indexed (procs s) -> UpgradePolicy s = Ret tt (set_procs (aged s) s).
Proof.
  intros Hok. unfold UpgradePolicy. rewrite bind_get.
  erewrite bind_eq_ret; cycle 1.
  { rewrite <- (set_procs_id s) at 2.
    apply (for_loop_map UpgradePolicy_body (fun _ => upgrade_one (ticks s))).
    - reflexivity.
    - intros j l' Hj Hlen Hlook.
      destruct (lookup_lt_NPROC s j) as [q Hq]; [lia|].
      erewrite UpgradePolicy_body_run.
      + reflexivity.
      + cbn [procs set_procs]. rewrite Hlook. exact Hq.
      + apply (Hok j q Hq). }
  cbv beta. unfold ret, aged. do 2 f_equal.
  apply list_eq. intros k. rewrite list_lookup_imap, list_lookup_fmap.
  destruct (procs s !! k); reflexivity.
Qed.

Lemma UpgradePolicy_run s :
  levels_ok (procs s) -> UpgradePolicy s = Ret tt (set_procs (aged s) s).
Proof. intros Hok. apply UpgradePolicy_run_indexed, levels_ok_indexed, Hok. Qed.

(** The slots a scan of level [i] looks at. *)
Definition at_level (i : Z) (q : proc) : bool :=
  bool_decide (state q = RUNNABLE /\ priority_number q = i).

Lemma level_body_run i p q st s :
  procs s !! p = Some q ->
  level_body i p st s = Ret (inl (scan_step 0 (at_level i) time_added st p q)) s.
Proof.
  intros Hp. unfold level_body, scan_step, at_level. destruct st as [m t].
  erewrite bind_getp by exact Hp. cbn [fst].
  destruct (bool_decide _); [|reflexivity].
  destruct (m =? 0); [reflexivity|].
  destruct (time_added q <? m); reflexivity.
Qed.

Lemma level_scan_run i t0 s :
  level_scan i t0 s
  = Ret (scan_upto 0 (at_level i) time_added (procs s) t0 (NPROC s)) s.
Proof.
  unfold level_scan. rewrite bind_get.
  erewrite bind_eq_ret; cycle 1.
  { pose proof (for_loop_exact (level_body i)
      (fun j => (scan_upto 0 (at_level i) time_added (procs s) t0 j, s)) (NPROC s) 0) as H.
    cbn [fst snd] in H. apply H. intros j Hj.
    destruct (lookup_lt_NPROC s j) as [q Hq]; [lia|].
    cbn [scan_upto]. rewrite Hq. apply level_body_run, Hq. }
  reflexivity.
Qed.

Lemma scan_upto_none sent elig key l t0 j :
  (forall k q, (k < j)%nat -> l !! k = Some q -> elig q = false) ->
  scan_upto sent elig key l t0 j = (sent, t0).
Proof.
  induction j as [|j IH]; intros H; cbn [scan_upto]; [reflexivity|].
  assert (scan_upto sent elig key l t0 j = (sent, t0)) as Hj
    by (apply IH; intros k q Hk; apply H; lia).
  destruct (l !! j) as [q|] eqn:E; [|exact Hj].
  unfold scan_step. rewrite (H j q) by (lia || assumption). exact Hj.
Qed.

Lemma scan_upto_all_sent sent elig key l t0 j :
  (forall k q, l !! k = Some q -> elig q = true -> key q = sent) ->
  fst (scan_upto sent elig key l t0 j) = sent.
Proof.
  intros H. induction j as [|j IH]; cbn [scan_upto]; [reflexivity|].
  destruct (l !! j) as [q|] eqn:E; [|exact IH].
  unfold scan_step. destruct (elig q) eqn:Ee; [|exact IH].
  rewrite IH, Z.eqb_refl. cbn [fst]. eapply H; eassumption.
Qed.

Lemma least_upto_unique elig key l j t qt t' qt' :
  least_upto elig key l j t qt -> least_upto elig key l j t' qt' -> t = t'.
Proof.
  intros (Ht & Hq & He & Hleast) (Ht' & Hq' & He' & Hleast').
  destruct (Hleast t' qt' Ht' Hq' He') as [H1 H2].
  destruct (Hleast' t qt Ht Hq He) as [H3 H4].
  assert (key qt = key qt') as Hk by lia.
  specialize (H2 (eq_sym Hk)). specialize (H4 Hk). lia.
Qed.

Lemma at_level_true i q :
  at_level i q = true <-> state q = RUNNABLE /\ priority_number q = i.
Proof. unfold at_level. apply bool_decide_eq_true. Qed.

Lemma at_level_false i q :
  at_level i q = false <-> ~ (state q = RUNNABLE /\ priority_number q = i).
Proof. unfold at_level. apply bool_decide_eq_false. Qed.

(** Some slot of the table is RUNNABLE at level [i]. *)
Definition has_level (l : list proc) (i : nat) : Prop :=
  Exists (fun q => at_level (Z.of_nat i) q = true) l.

#[local] Instance has_level_dec l i : Decision (has_level l i).
Proof. unfold has_level. apply _. Defined.

Lemma has_level_lookup l i :
  has_level l i <-> exists k q, l !! k = Some q /\ at_level (Z.of_nat i) q = true.
Proof.
  unfold has_level. rewrite Exists_exists. split.
  - intros (q & Hin & Hq). apply list_elem_of_lookup in Hin as [k Hk]. eauto.
  - intros (k & q & Hk & Hq). exists q. split; [|exact Hq].
    apply list_elem_of_lookup. eauto.
Qed.

Lemma least_nat (P : nat -> Prop) `{!forall n, Decision (P n)} n :
  P n -> exists m, (m <= n)%nat /\ P m /\ forall k, (k < m)%nat -> ~ P k.
Proof.
  assert (forall j, (forall k, (k < j)%nat -> ~ P k) \/
                    exists m, (m < j)%nat /\ P m /\ forall k, (k < m)%nat -> ~ P k)
    as Hscan.
  { induction j as [|j [Hno|(m & Hm & HP & Hleast)]].
    - left. intros; lia.
    - destruct (decide (P j)) as [Hj|Hj].
      + right. exists j. split; [lia|]. split; assumption.
      + left. intros k Hk. destruct (decide (k = j)) as [->|]; [exact Hj|].
        apply Hno. lia.
    - right. exists m. split; [lia|]. split; assumption. }
  intros Hn. destruct (Hscan (S n)) as [Hno|(m & Hm & HP & Hleast)].
  - exfalso. apply (Hno n); [lia|exact Hn].
  - exists m. split; [lia|]. split; assumption.
Qed.

(** A level without RUNNABLE slot leaves [toSchedule] alone and goes on. *)
Lemma levels_body_miss i t0 s :
  ~ has_level (procs s) i -> levels_body i t0 s = Ret (inl t0) s.
Proof.
  intros Hno. unfold levels_body.
  erewrite bind_eq_ret by apply level_scan_run.
  rewrite scan_upto_none; [reflexivity|].
  intros k q _ Hk. destruct (at_level (Z.of_nat i) q) eqn:E; [|reflexivity].
  exfalso. apply Hno, has_level_lookup. eauto.
Qed.

(** A level whose RUNNABLE slots all carry the marker 0 is passed over. *)
Lemma levels_body_pass i t0 s :
  (forall k q, procs s !! k = Some q -> state q = RUNNABLE -> time_added q = 0) ->
  exists t1, levels_body i t0 s = Ret (inl t1) s.
Proof.
  intros Hz. unfold levels_body.
  erewrite bind_eq_ret by apply level_scan_run.
  assert (fst (scan_upto 0 (at_level (Z.of_nat i)) time_added (procs s) t0 (NPROC s)) = 0)
    as H.
  { apply scan_upto_all_sent. intros k q Hk He. apply (Hz k q Hk).
    apply at_level_true in He. apply He. }
  destruct (scan_upto 0 (at_level (Z.of_nat i)) time_added (procs s) t0 (NPROC s))
    as [m t1].
  cbn [fst] in H. subst m. eexists. reflexivity.
Qed.

(** A level with a RUNNABLE slot, none of that level carrying the marker 0,
    ends the scan with the slot of least [time_added]. *)
Lemma levels_body_hit i t qt s :
  (forall k q, procs s !! k = Some q -> at_level (Z.of_nat i) q = true ->
     time_added q <> 0) ->
  least_upto (at_level (Z.of_nat i)) time_added (procs s) (NPROC s) t qt ->
  forall t0, levels_body i t0 s = Ret (inr (Some t)) s.
Proof.
  intros Hnz Hleast t0. unfold levels_body.
  erewrite bind_eq_ret by apply level_scan_run.
  destruct Hleast as (Ht & Hq & He & Hl).
  destruct (scan_upto_finds 0 (at_level (Z.of_nat i)) time_added (procs s) t0)
    with (i := t) (q := qt) as (Hfs & t' & qt' & Hsnd & _ & Hleast').
  { exact Hnz. }
  { exact Hq. }
  { exact He. }
  fold (NPROC s) in Hfs, Hsnd, Hleast'.
  assert (t' = t) as ->.
  { eapply least_upto_unique; [exact Hleast'|].
    split; [exact Ht|]. split; [exact Hq|]. split; [exact He|exact Hl]. }
  destruct (scan_upto 0 (at_level (Z.of_nat i)) time_added (procs s) t0 (NPROC s))
    as [m t1].
  cbn [fst snd] in Hfs, Hsnd. subst t1.
  rewrite (proj2 (Z.eqb_neq _ _) Hfs). reflexivity.
Qed.

(** Slot [t] is the choice of the level scan: RUNNABLE, at the lowest level
    that has a RUNNABLE slot, of least [time_added] there, the first in
    table order among equals. *)
Definition mlfq_least (l : list proc) (t : nat) (qt : proc) : Prop :=
  l !! t = Some qt /\ state qt = RUNNABLE /\
  forall j q, l !! j = Some q -> state q = RUNNABLE ->
    priority_number qt < priority_number q \/
    (priority_number qt = priority_number q /\ time_added qt <= time_added q /\
     (time_added q = time_added qt -> (t <= j)%nat)).

Lemma levels_scan_finds s :
  (forall k q, procs s !! k = Some q -> state q = RUNNABLE -> 0 <= priority_number q) ->
  (forall k q, procs s !! k = Some q -> state q = RUNNABLE ->
     priority_number q <= 3 -> time_added q <> 0) ->
  (exists i q, procs s !! i = Some q /\ state q = RUNNABLE /\ priority_number q <= 3) ->
  exists t qt, mlfq_least (procs s) t qt /\ priority_number qt <= 3 /\
    forall t0, levels_scan t0 s = Ret (inr (Some t)) s.
Proof.
  intros Hok Hnz (i & q & Hi & Hr & Hq3).
  pose proof (Hok i q Hi Hr) as Hlv.
  assert (has_level (procs s) (Z.to_nat (priority_number q))) as Hhas.
  { apply has_level_lookup. exists i, q. split; [exact Hi|].
    apply at_level_true. split; [exact Hr|lia]. }
  destruct (least_nat (has_level (procs s)) _ Hhas) as (lvl & Hlvl & Hl & Hmin).
  assert (Hnzl : forall j y, procs s !! j = Some y ->
            at_level (Z.of_nat lvl) y = true -> time_added y <> 0).
  { intros j y Hj Hy. apply at_level_true in Hy as [Hry Hly].
    apply (Hnz j y Hj Hry). lia. }
  apply has_level_lookup in Hl as (k & x & Hk & Hx).
  destruct (scan_upto_finds 0 (at_level (Z.of_nat lvl)) time_added (procs s) None)
    with (i := k) (q := x) as (_ & t & qt & _ & _ & Hleast).
  { exact Hnzl. }
  { exact Hk. }
  { exact Hx. }
  fold (NPROC s) in Hleast.
  exists t, qt. split; [|split].
  - destruct Hleast as (Ht & Hq & He & Hle). apply at_level_true in He as [Hrt Hpt].
    split; [exact Hq|]. split; [exact Hrt|].
    intros j y Hj Hy. pose proof (Hok j y Hj Hy) as Hly.
    destruct (decide (priority_number y = Z.of_nat lvl)) as [Heq|Hne].
    + right. split; [lia|]. apply Hle.
      * eapply lookup_lt_Some, Hj.
      * exact Hj.
      * apply at_level_true. split; assumption.
    + left. destruct (decide (priority_number y < Z.of_nat lvl)); [|lia].
      exfalso. apply (Hmin (Z.to_nat (priority_number y))); [lia|].
      apply has_level_lookup. exists j, y. split; [exact Hj|].
      apply at_level_true. split; [exact Hy|lia].
  - destruct Hleast as (_ & _ & He & _). apply at_level_true in He as [_ Hpt]. lia.
  - intros t0. unfold levels_scan. apply (for_loop_hit_any levels_body 4 lvl).
    + lia.
    + intros j st Hj. exists st. apply levels_body_miss. apply Hmin. lia.
    + intros st. apply (levels_body_hit lvl t qt); assumption.
Qed.

(** With no RUNNABLE slot at the levels 0 to 3 the scan of the levels ends
    without a choice and leaves [toSchedule] alone. *)
Lemma levels_scan_miss t0 s :
  (forall k q, procs s !! k = Some q -> state q = RUNNABLE ->
     ~ 0 <= priority_number q <= 3) ->
  levels_scan t0 s = Ret (inl t0) s.
Proof.
  intros Hno. unfold levels_scan. apply for_loop_skip.
  intros j Hj. apply levels_body_miss. intros Hhas.
  apply has_level_lookup in Hhas as (k & q & Hk & Hq).
  apply at_level_true in Hq as [Hr Hl]. apply (Hno k q Hk Hr). lia.
Qed.

Lemma levels_scan_pass t0 s :
  (forall k q, procs s !! k = Some q -> state q = RUNNABLE -> time_added q = 0) ->
  exists t1, levels_scan t0 s = Ret (inl t1) s.
Proof.
  intros Hz. unfold levels_scan. apply for_loop_pass.
  intros j st _. apply levels_body_pass, Hz.
Qed.

(** Slot [k] of the table is RUNNABLE. *)
Definition runnable_at (l : list proc) (k : nat) : Prop :=
  exists q, l !! k = Some q /\ state q = RUNNABLE.

#[local] Instance runnable_at_dec l k : Decision (runnable_at l k).
Proof.
  unfold runnable_at. destruct (l !! k) as [q|].
  - destruct (decide (state q = RUNNABLE)) as [H|H].
    + left. eauto.
    + right. intros (x & Hx & Hr). congruence.
  - right. intros (x & Hx & _). discriminate.
Defined.

(** The round-robin loop stops at the first RUNNABLE slot met from the
    cursor on, cyclically, and leaves the cursor just behind it. *)
Lemma round_robin_run s :
  forall d fuel rr,
    (d < fuel)%nat -> (rr < NPROC s)%nat ->
    runnable_at (procs s) ((rr + d) mod NPROC s) ->
    (forall e, (e < d)%nat -> ~ runnable_at (procs s) ((rr + e) mod NPROC s)) ->
    round_robin fuel rr s
    = Ret (((rr + d) mod NPROC s)%nat, (((rr + d) mod NPROC s + 1) mod NPROC s)%nat) s.
Proof.
  induction d as [|d IH]; intros fuel rr Hf Hrr Hd Hfirst;
    (destruct fuel as [|fuel]; [lia|]); cbn [round_robin].
  - rewrite Nat.add_0_r, Nat.mod_small in * by lia.
    destruct Hd as (q & Hq & Hr).
    erewrite bind_getp by exact Hq. rewrite bind_get.
    destruct (decide (state q = RUNNABLE)); [reflexivity|contradiction].
  - destruct (lookup_lt_NPROC s rr Hrr) as [q Hq].
    erewrite bind_getp by exact Hq. rewrite bind_get.
    destruct (decide (state q = RUNNABLE)) as [Hr|Hr].
    + exfalso. apply (Hfirst 0%nat); [lia|].
      rewrite Nat.add_0_r, Nat.mod_small by lia. exists q. auto.
    + assert (forall e, (((rr + 1) mod NPROC s + e) mod NPROC s
                         = (rr + S e) mod NPROC s)%nat) as Hmod.
      { intros e. rewrite Nat.Div0.add_mod_idemp_l. f_equal. lia. }
      rewrite (IH fuel ((rr + 1) mod NPROC s)%nat).
      * rewrite Hmod. reflexivity.
      * lia.
      * apply Nat.mod_upper_bound. lia.
      * rewrite Hmod. exact Hd.
      * intros e He. rewrite Hmod. apply Hfirst. lia.
Qed.

(** With a RUNNABLE slot in the table the loop needs at most [NPROC] turns. *)
Lemma round_robin_reaches s rr :
  (rr < NPROC s)%nat -> (exists k, runnable_at (procs s) k) ->
  exists d, (d < NPROC s)%nat /\ runnable_at (procs s) ((rr + d) mod NPROC s) /\
    forall e, (e < d)%nat -> ~ runnable_at (procs s) ((rr + e) mod NPROC s).
Proof.
  intros Hrr (k & Hk).
  assert (k < NPROC s)%nat as Hlt
    by (destruct Hk as (q & Hq & _); eapply lookup_lt_Some, Hq).
  set (d0 := if decide (rr <= k)%nat then (k - rr)%nat else (k + NPROC s - rr)%nat).
  assert (d0 < NPROC s)%nat as Hd0 by (unfold d0; destruct (decide _); lia).
  assert ((rr + d0) mod NPROC s = k)%nat as Hk0.
  { unfold d0. destruct (decide _).
    - replace (rr + (k - rr))%nat with k by lia. apply Nat.mod_small. lia.
    - replace (rr + (k + NPROC s - rr))%nat with (k + 1 * NPROC s)%nat by lia.
      rewrite Nat.Div0.mod_add. apply Nat.mod_small. lia. }
  destruct (least_nat (fun d => runnable_at (procs s) ((rr + d) mod NPROC s)) d0)
    as (d & Hd & HP & Hmin).
  { rewrite Hk0. exact Hk. }
  exists d. split; [lia|]. split; assumption.
Qed.

(** What the dispatch does to the chosen slot. *)
Definition dispatch_slot (q : proc) : proc :=
  set_No_times (wrap32 (No_times q + 1))
    (set_time_added 0 (set_state RUNNING (set_lock true q))).

Lemma set_cpu_proc_upd o i f s : set_cpu_proc o (upd i f s) = upd i f (set_cpu_proc o s).
Proof. reflexivity. Qed.

Lemma Schedu_run t rr s :
  locks_free s -> (t < NPROC s)%nat ->
  Schedu (Some t) rr s
  = Swtch (upd t dispatch_slot (set_cpu_proc (Some t) s))
      (fun s' => run_bind (release (ProcLock t) s') (fun _ => ret (Some t, rr))).
Proof.
  intros Hfree Ht. unfold Schedu.
  rewrite bind_deref by exact Ht.
  rewrite bind_acquire by (apply holding_free, Hfree).
  rewrite bind_modify. cbn [set_held].
  rewrite !bind_setp, set_cpu_proc_upd, !upd_upd.
  reflexivity.
Qed.

(** The state in which the scans of a turn run: interrupts on, no current
    process, the table aged. *)
Definition mlfq_aged (s : kstate) : kstate :=
  set_procs (aged s) (set_cpu_proc None (set_intr true s)).

Lemma upgrade_one_lock tk q : lock (upgrade_one tk q) = lock q.
Proof.
  unfold upgrade_one. destruct (bool_decide _); [|reflexivity].
  destruct (_ >? _); reflexivity.
Qed.

Lemma mlfq_aged_free s : locks_free s -> locks_free (mlfq_aged s).
Proof.
  intros Hfree i q Hq. unfold mlfq_aged, aged in Hq.
  cbn [procs set_procs] in Hq. rewrite list_lookup_fmap in Hq.
  destruct (procs s !! i) as [x|] eqn:Ex; [|discriminate].
  injection Hq as <-. rewrite upgrade_one_lock. exact (Hfree i x Ex).
Qed.

Lemma mlfq_aged_length s : NPROC (mlfq_aged s) = NPROC s.
Proof. unfold NPROC, mlfq_aged, aged. cbn [procs set_procs]. apply length_fmap. Qed.

Lemma scheduler_MLFQ_unfold fuel tbs rr s :
  levels_indexed (procs s) ->
  scheduler_MLFQ fuel tbs rr s
  = bind (levels_scan tbs)
      (fun r => match r with
                | inr t => Schedu t rr
                | inl _ => f <- round_robin fuel rr ;; Schedu (Some (fst f)) (snd f)
                end) (mlfq_aged s).
Proof.
  intros Hok. unfold scheduler_MLFQ, intr_on. rewrite !bind_modify.
  erewrite bind_eq_ret by (apply UpgradePolicy_run_indexed; exact Hok).
  reflexivity.
Qed.

Lemma mlfq_aged_procs s : procs (mlfq_aged s) = aged s.
Proof. reflexivity. Qed.

Lemma aged_levels_ok s : levels_ok (procs s) -> levels_ok (aged s).
Proof.
  intros Hok i q Hq Hr. unfold aged in Hq. rewrite list_lookup_fmap in Hq.
  destruct (procs s !! i) as [x|] eqn:Ex; [|discriminate]. injection Hq as <-.
  revert Hr. unfold upgrade_one.
  destruct (bool_decide (state x = RUNNABLE /\ priority_number x <> 0)) eqn:E.
  - apply bool_decide_eq_true_1 in E as [Hs Hn]. pose proof (Hok i x Ex Hs).
    destruct (_ >? _); intros _.
    + cbn. rewrite wrap32_id by (unfold is_int; lia). lia.
    + assumption.
  - intros Hr. apply (Hok i x Ex Hr).
Qed.

Lemma aged_levels_indexed s : levels_indexed (procs s) -> levels_indexed (aged s).
Proof.
  intros Hok i q Hq Hr. unfold aged in Hq. rewrite list_lookup_fmap in Hq.
  destruct (procs s !! i) as [x|] eqn:Ex; [|discriminate]. injection Hq as <-.
  revert Hr. unfold upgrade_one.
  destruct (bool_decide (state x = RUNNABLE /\ priority_number x <> 0)) eqn:E.
  - apply bool_decide_eq_true_1 in E as [Hs Hn]. pose proof (Hok i x Ex Hs).
    destruct (_ >? _); intros _.
    + cbn. rewrite wrap32_id by (unfold is_int; lia). lia.
    + assumption.
  - intros Hr. apply (Hok i x Ex Hr).
Qed.

Lemma dispatch_insert t qt s :
  aged s !! t = Some qt ->
  procs (upd t dispatch_slot (set_cpu_proc (Some t) (mlfq_aged s)))
  = <[t := dispatch_slot qt]> (aged s).
Proof. intros H. rewrite (upd_insert t _ _ qt); [reflexivity|exact H]. Qed.

(** ** [wakeup] and the current process *)

(** [wakeup] leaves the slot of the current process alone. *)
Lemma wakeup_post_current c s p :
  cpu_proc s = Some p -> procs (wakeup_post c s) !! p = procs s !! p.
Proof.
  intros Hme. unfold wakeup_post, wake_all. cbn [procs set_procs].
  rewrite list_lookup_imap. destruct (procs s !! p) as [q|]; [|reflexivity].
  cbn. unfold wake_at. rewrite Hme.
  rewrite decide_True by reflexivity. reflexivity.
Qed.

(** [wakeup] makes any other slot that sleeps on the channel RUNNABLE. *)
Lemma wakeup_post_other c s p q :
  cpu_proc s <> Some p -> procs s !! p = Some q ->
  state q = SLEEPING -> chan q = c ->
  exists q', procs (wakeup_post c s) !! p = Some q' /\ state q' = RUNNABLE.
Proof.
  intros Hme Hp Hs Hc. unfold wakeup_post, wake_all. cbn [procs set_procs].
  rewrite list_lookup_imap, Hp. cbn. unfold wake_at.
  rewrite decide_False by congruence.
  eexists. split; [reflexivity|]. apply wake_one_hit; assumption.
Qed.

(** ** The claims *)

(** C2.  A process [p] other than the bootstrap process calls
    [exit(status)] holding no lock, [k] slots having [p] as their parent.
    The update of the table needs the ordering lock: if [wait_lock] is
    taken the call stops at [acquire] with every parent link and state as
    it was.  Otherwise the call reaches the switch to the scheduler; in the
    table at that point every child of [p] has the bootstrap process as its
    parent; [wakeup] has been called [k] times on the bootstrap process and
    then once on [p]'s parent (the log gives the calls in order, after the
    file-system calls), so that every other slot that slept on the
    bootstrap process (if [k > 0]) or on [p]'s parent is RUNNABLE; [p]'s
    slot holds [xstate = status], [etime = ticks] and [state = ZOMBIE];
    [wait_lock] is free again and [p]'s own lock is the only one held; the
    continuation after the switch is the panic.  In no state at all does
    [exit] return. *)
Theorem exit_reparents_and_becomes_zombie status s p q :
  cpu_proc s = Some p -> procs s !! p = Some q -> initproc s <> Some p ->
  locks_free s -> pid_lock s = false -> parent q <> Some p ->
  (wait_lock s = true ->
   exists sb, exit status s = Stop (PanicMsg "acquire") sb /\
     forall i x, procs s !! i = Some x ->
       exists y, procs sb !! i = Some y /\ parent y = parent x /\ state y = state x)
  /\
  (wait_lock s = false ->
   exists s' kont, exit status s = Swtch s' kont /\
     (forall i x, procs s !! i = Some x -> parent x = Some p ->
        exists y, procs s' !! i = Some y /\ parent y = initproc s) /\
     klog s' = klog s ++ (EFileclose <$> filter (fun f => f <> 0) (ofile q))
                 ++ [EBeginOp; EIput (cwd q); EEndOp]
                 ++ repeat (EWakeup (chan_of (initproc s))) (nchildren p s)
                 ++ [EWakeup (chan_of (parent q))] /\
     (forall i x, i <> p -> procs s !! i = Some x -> state x = SLEEPING ->
        chan x = chan_of (parent q) \/
        (chan x = chan_of (initproc s) /\ (0 < nchildren p s)%nat) ->
        exists y, procs s' !! i = Some y /\ state y = RUNNABLE) /\
     (exists y, procs s' !! p = Some y /\
        xstate y = status /\ etime y = ticks s /\ state y = ZOMBIE /\ lock y = true) /\
     wait_lock s' = false /\
     (forall i x, i <> p -> procs s' !! i = Some x -> lock x = false) /\
     forall s'', exists sp, kont s'' = Stop (PanicMsg "zombie exit") sp)
  /\
  ~ may_return (exit status s).
Proof.
  intros Hme Hp Hinit Hfree Hpl Hpar. split; [|split].
  - intros Hw. exists (exit_files p q s). split.
    + apply exit_blocked; assumption.
    + intros i x Hi. rewrite (exit_files_lookup _ _ _ _ Hp).
      destruct (decide (i = p)) as [->|Hne]; [|eauto].
      rewrite Hp in Hi. injection Hi as <-. eexists. split; [reflexivity|]. split; reflexivity.
  - intros Hw.
    exists (exit_post status p q s),
           (fun s' => Stop (PanicMsg "zombie exit") (set_intena (intena s) s')).
    split; [apply exit_run; assumption|].
    assert (Hother : forall i x, i <> p -> procs s !! i = Some x ->
              procs (exit_post status p q s) !! i
              = Some (wake_at (chan_of (parent q)) (Some p) (ticks s) i
                        (wake_if_at (0 <? nchildren p s)%nat (chan_of (initproc s))
                           (Some p) (ticks s) i (reparented (Some p) (initproc s) x)))).
    { intros i x Hi Hx. rewrite (exit_post_lookup_other _ _ _ _ _ Hme Hp Hi), Hx.
      rewrite (reparented_other _ _ q) by exact Hpar. reflexivity. }
    repeat split.
    + intros i x Hi Hc.
      assert (i <> p) as Hne by (intros ->; congruence).
      eexists. split; [apply Hother; eassumption|].
      rewrite wake_at_parent, wake_if_at_parent. apply reparented_child, Hc.
    + rewrite (exit_post_klog _ _ _ _ Hp).
      rewrite (reparented_other _ _ q) by exact Hpar. reflexivity.
    + intros i x Hi Hx Hs Hc. eexists. split; [apply Hother; eassumption|].
      apply wake_twice_runnable.
      * congruence.
      * rewrite reparented_state. exact Hs.
      * rewrite reparented_chan. destruct Hc as [Hc|[Hc Hk]]; [left; exact Hc|].
        right. split; [exact Hc|]. apply Nat.ltb_lt, Hk.
    + apply exit_post_lookup_self; assumption.
    + intros i x Hi Hx. rewrite exit_post_lookup_other in Hx by assumption.
      destruct (procs s !! i) as [y|] eqn:Ey; [|discriminate]. injection Hx as <-.
      rewrite wake_at_lock, wake_if_at_lock, reparented_lock. eapply Hfree, Ey.
    + intros s''. eexists. reflexivity.
  - apply exit_no_return.
Qed.

(** C8 (as amended).  [kill(pid)] acts on the first slot of the table whose
    [pid] field is [pid]; when that slot is in use (not UNUSED), it sets the
    kill flag of the process, makes it RUNNABLE at once if it is SLEEPING,
    leaves any other state (ZOMBIE included: a zombie keeps its pid until
    it is reaped) as it is, changes no other slot and returns 0.  When no
    slot carries [pid] it returns -1 and the state is the one it was called
    in. *)
Theorem kill_first_slot_with_pid s pid0 :
  locks_free s ->
  (forall i q, first_slot (fun q => pid q = pid0) s i q -> state q <> UNUSED ->
     kill pid0 s
     = Ret 0 (upd i (fun q =>
                set_state (if decide (state q = SLEEPING) then RUNNABLE else state q)
                  (set_killed 1 q)) s))
  /\
  ((forall i q, procs s !! i = Some q -> pid q <> pid0) ->
   kill pid0 s = Ret (-1) s).
Proof.
  intros Hfree. split.
  - intros i q Hfirst _. rewrite (kill_found _ _ _ _ Hfree Hfirst). f_equal.
    apply upd_ext. intros x _. unfold killed_slot.
    destruct (decide (state x = SLEEPING)) as [E|E].
    + rewrite bool_decide_eq_true_2 by exact E. reflexivity.
    + rewrite bool_decide_eq_false_2 by exact E. destruct x; reflexivity.
  - apply kill_not_found, Hfree.
Qed.

(** C1 (as amended).  [wait] is called by the current process holding no
    lock.  If no slot has the caller as its parent, or if the caller's kill
    flag is set and none of its children is a ZOMBIE, the call returns -1 in
    its first turn, without sleeping, and the state is the one it was called
    in.  If a ZOMBIE child exists and the copy of its exit status succeeds
    (no address was given, or [copyout] succeeded), the call reaps the first
    such child of the table, whether or not the caller has been killed: it
    returns that child's pid, again without sleeping; that slot has been
    through [freeproc] (trapframe and page table given back and nulled,
    [sz], [pid], [parent], [chan], [killed], [xstate] cleared, the name
    emptied, state UNUSED) and no other slot has changed. *)
Theorem wait_returns_or_reaps fuel addr s :
  locks_free s -> wait_lock s = false ->
  ((forall i q, procs s !! i = Some q -> parent q <> cpu_proc s) ->
   wait (S fuel) addr s = Ret (-1) s)
  /\
  (forall p pq,
     cpu_proc s = Some p -> procs s !! p = Some pq -> killed pq <> 0 ->
     (forall i q, procs s !! i = Some q -> ~ zombie_child (Some p) q) ->
     wait (S fuel) addr s = Ret (-1) s)
  /\
  (forall i q evs,
     first_slot (zombie_child (cpu_proc s)) s i q ->
     copy_outcome (cpu_proc s) addr q s = Some evs ->
     exists s',
       wait (S fuel) addr s = Ret (pid q) s' /\
       procs s' = <[i := freed_slot q]> (procs s) /\
       klog s' = klog s ++ evs ++ free_events q /\
       wait_lock s' = false /\
       trapframe (freed_slot q) = 0 /\ pagetable (freed_slot q) = 0 /\
       sz (freed_slot q) = 0 /\ pid (freed_slot q) = 0 /\
       parent (freed_slot q) = None /\
       name (freed_slot q) = <[0%nat := 0]> (name q) /\
       chan (freed_slot q) = CNull /\ killed (freed_slot q) = 0 /\
       xstate (freed_slot q) = 0 /\ state (freed_slot q) = UNUSED).
Proof.
  intros Hfree Hw. split; [|split].
  - apply wait_no_children; assumption.
  - intros p pq Hme Hpq Hk Hno. eapply wait_killed; eauto.
  - intros i q evs Hfirst Hc. exists (reaped i q evs s).
    split; [apply wait_reaps; assumption|].
    split.
    { unfold reaped, logs. cbn [procs set_klog]. apply upd_insert.
      destruct Hfirst as [Hi _]. exact Hi. }
    split; [reflexivity|].
    split; [exact Hw|].
    repeat split; reflexivity.
Qed.

(** C10.  [wait] and [waitx] are called with a nonzero address for the exit
    status, the first ZOMBIE child of the caller is in slot [i], and
    [copyout] fails.  Both return -1 ([waitx] having stored the child's run
    and wait times) and the state is the one they were called in: the child
    is still a ZOMBIE in slot [i], so -1 was returned by a caller that does
    have a child, and a later [wait] that asks for no status reaps it. *)
Theorem wait_copyout_failure_keeps_zombie fuel addr out s i q p pq :
  locks_free s -> wait_lock s = false ->
  cpu_proc s = Some p -> procs s !! p = Some pq ->
  first_slot (zombie_child (Some p)) s i q ->
  addr <> 0 -> copyout (pagetable pq) addr (xstate q) < 0 ->
  wait (S fuel) addr s = Ret (-1) s /\
  waitx (S fuel) addr out s
  = Ret (-1, (rtime q, wrapu32 (etime q - ctime q - rtime q))) s /\
  (procs s !! i = Some q /\ parent q = Some p /\ state q = ZOMBIE) /\
  wait (S fuel) 0 s = Ret (pid q) (reaped i q [] s).
Proof.
  intros Hfree Hw Hme Hpq Hfirst Ha Hc. split; [|split; [|split]].
  - eapply wait_copy_fails; eauto.
  - eapply waitx_copy_fails; eauto.
  - destruct Hfirst as (Hi & [Hp Hs] & _). auto.
  - apply wait_reaps; try assumption.
    + rewrite Hme. exact Hfirst.
    + reflexivity.
Qed.

(** C5 (as amended).  Under PBS, [set_priority_i(priority, pid)] returns 1
    for a priority outside [0,100] and 2 when no RUNNABLE or SLEEPING slot
    carries [pid], the state being untouched in both cases.  Otherwise the
    first such slot gets [priority] as its static priority and -1 in both
    interval markers, nothing else changes, and the previous static priority
    is what the call returns; the caller yields on the way exactly when the
    new value is numerically greater (less urgent) than the old one. *)
Theorem set_priority_i_spec priority pid0 s :
  pol = PBS -> locks_free s ->
  (priority < 0 \/ 100 < priority -> set_priority_i priority pid0 s = Ret 1 s)
  /\
  (0 <= priority <= 100 ->
   (forall i q, procs s !! i = Some q -> ~ eligible pid0 q) ->
   set_priority_i priority pid0 s = Ret 2 s)
  /\
  (forall i q,
     0 <= priority <= 100 -> pid0 <> -1 -> first_slot (eligible pid0) s i q ->
     let s1 := upd i (fun q =>
                 set_sleeping_time (-1) (set_running_time (-1)
                   (set_Static_priority priority q))) s in
     (priority <= Static_priority q ->
      set_priority_i priority pid0 s = Ret (Static_priority q) s1)
     /\
     (Static_priority q < priority ->
      forall me, cpu_proc s = Some me -> (me < NPROC s)%nat ->
      wait_lock s = false -> pid_lock s = false ->
      exists kont,
        set_priority_i priority pid0 s
        = Swtch (upd me (fun q => set_state RUNNABLE (set_lock true q)) s1) kont /\
        forall s', holding (ProcLock me) s' = true ->
          kont s' = Ret (Static_priority q)
                      (upd me (set_lock false) (set_intena (intena s) s')))).
Proof.
  intros Hpol Hfree. split; [|split].
  - apply set_priority_rejects, Hpol.
  - intros Hr Hno. apply set_priority_not_found; assumption.
  - intros i q Hr Hpid Hfirst s1.
    pose proof (set_priority_found_prefix priority pid0 s i q Hpol Hr Hpid Hfree Hfirst)
      as Hrun.
    fold (reprioritized priority) in s1. fold s1 in Hrun.
    split.
    + intros Hle. rewrite Hrun.
      replace (priority >? Static_priority q) with false
        by (symmetry; rewrite Z.gtb_ltb; apply Z.ltb_ge; exact Hle).
      reflexivity.
    + intros Hlt me Hme Hlen Hw Hpl. rewrite Hrun.
      replace (priority >? Static_priority q) with true
        by (symmetry; rewrite Z.gtb_ltb; apply Z.ltb_lt; exact Hlt).
      cbn [when].
      assert (Hfree1 : locks_free s1).
      { intros k y Hk. unfold s1 in Hk. destruct Hfirst as [Hi _].
        destruct (decide (i = k)) as [<-|Hne].
        - erewrite upd_lookup_eq in Hk by exact Hi. injection Hk as <-.
          cbn. eapply Hfree, Hi.
        - rewrite upd_lookup_ne in Hk by done. eapply Hfree, Hk. }
      destruct (lookup_lt_NPROC s1 me) as [mq Hmq];
        [unfold s1; rewrite upd_length; exact Hlen|].
      eexists. split.
      * apply bind_eq_swtch. apply (yield_run s1 me mq); assumption.
      * intros s' Hheld. cbn [run_bind].
        rewrite release_run by exact Hheld. reflexivity.
Qed.

(** C4.  For every slot whose intermediate values fit an [int] and whose
    divisor is not zero, [PSBPriority] is
    [clamp(staticPriority - niceness + 5, 0, 100)], the niceness being 5 for
    a fresh slot (both interval markers -1) and otherwise
    [sleepingTime * 10 / (runningTime + sleepingTime)] truncated toward
    zero.  A fresh slot of static priority 60 has priority 60; static
    priority 60 with sleeping time 80 and running time 20 has niceness 8 and
    priority 57. *)
Theorem PSBPriority_clamped_formula p :
  (representable p -> fresh p \/ running_time p + sleeping_time p <> 0 ->
   niceness p = Some (spec_niceness p) /\
   PSBPriority p = Some (clamp 0 100 (Static_priority p - spec_niceness p + 5)) /\
   spec_niceness p
   = (if decide (sleeping_time p = -1 /\ running_time p = -1) then 5
      else Z.quot (sleeping_time p * 10) (running_time p + sleeping_time p)))
  /\
  (Static_priority p = 60 -> fresh p -> PSBPriority p = Some 60)
  /\
  (Static_priority p = 60 -> sleeping_time p = 80 -> running_time p = 20 ->
   niceness p = Some 8 /\ PSBPriority p = Some 57).
Proof.
  split; [|split].
  - intros Hrep Hdiv. split; [apply niceness_spec; assumption|].
    split; [apply PSBPriority_spec; assumption|]. reflexivity.
  - intros Hs [Hst Hrt]. unfold PSBPriority, niceness.
    rewrite Hs, Hst, Hrt. reflexivity.
  - intros Hs Hst Hrt. unfold PSBPriority, niceness.
    rewrite Hs, Hst, Hrt. split; reflexivity.
Qed.

(** C7.  In a turn of the FCFS scheduler that starts with no slot lock held
    and at least one RUNNABLE slot (the enqueue ticks being tick counts, so
    none is the -1 the scan starts from), the scheduler switches to the
    RUNNABLE slot of least [start_time], the first one in table order among
    those of that tick: that slot is RUNNING, locked, and the CPU's current
    process; no other slot changes. *)
Theorem scheduler_FCFS_picks_earliest tbs0 s :
  locks_free s ->
  (forall i q, procs s !! i = Some q -> state q = RUNNABLE -> start_time q <> -1) ->
  (exists i q, procs s !! i = Some q /\ state q = RUNNABLE) ->
  exists t qt s' kont,
    scheduler_FCFS tbs0 s = Swtch s' kont /\
    procs s !! t = Some qt /\ state qt = RUNNABLE /\
    (forall j q, procs s !! j = Some q -> state q = RUNNABLE ->
       start_time qt <= start_time q /\
       (start_time q = start_time qt -> (t <= j)%nat)) /\
    cpu_proc s' = Some t /\
    procs s' = <[t := set_state RUNNING (set_lock true qt)]> (procs s).
Proof.
  intros Hfree Hstart (i & q & Hi & Hr).
  destruct (scan_upto_finds (-1) runnableb start_time (procs s) tbs0) with (i := i) (q := q)
    as (Hfs & t & qt & Ht & _ & Hlt & Hqt & Het & Hleast).
  { intros k x Hk He. apply (Hstart k x Hk). apply runnableb_true, He. }
  { exact Hi. }
  { apply runnableb_true, Hr. }
  exists t, qt. eexists. eexists.
  split; [eapply scheduler_FCFS_run; eauto|].
  split; [exact Hqt|]. split; [apply runnableb_true, Het|].
  split.
  { intros j x Hj Hx. apply (Hleast j x); [eapply lookup_lt_Some, Hj|exact Hj|].
    apply runnableb_true, Hx. }
  split; [reflexivity|].
  cbn [procs set_cpu_proc].
  rewrite (upd_insert t _ _ qt); [reflexivity|exact Hqt].
Qed.

(** C6 (as amended).  A turn of the MLFQ scheduler that starts with no slot
    lock held, on a table whose RUNNABLE slots are at the levels 0 to 4 (the
    indices of the five thresholds of [Max_wait]), first ages the table and
    then selects on the aged table:

    - if some RUNNABLE slot is at one of the levels 0 to 3, and the RUNNABLE
      slots of these levels carry a nonzero enqueue tick, the scan of the
      levels 0, 1, 2 and 3 finds the RUNNABLE slot of the lowest level and,
      there, of least [time_added], the first in table order among equals;
      the round-robin cursor is left as it was;
    - only if no RUNNABLE slot is at the levels 0 to 3, that is if every
      RUNNABLE slot is at level 4, does the round-robin loop choose: it
      takes the first RUNNABLE slot from the cursor on, cyclically, and the
      cursor moves just behind that slot;
    - in both cases the scheduler switches to the chosen slot, which is
      locked, RUNNING and the current process, with [time_added] cleared
      and [No_times] incremented; no other slot of the aged table
      changes. *)
Theorem scheduler_MLFQ_selection fuel tbs rr s :
  locks_free s -> levels_indexed (procs s) ->
  ((exists k q, aged s !! k = Some q /\ state q = RUNNABLE /\ priority_number q <= 3) ->
   (forall k q, aged s !! k = Some q -> state q = RUNNABLE ->
      priority_number q <= 3 -> time_added q <> 0) ->
   exists t qt,
     mlfq_least (aged s) t qt /\ 0 <= priority_number qt <= 3 /\
     scheduler_MLFQ fuel tbs rr s
     = Swtch (upd t dispatch_slot (set_cpu_proc (Some t) (mlfq_aged s)))
         (fun s' => run_bind (release (ProcLock t) s') (fun _ => ret (Some t, rr)))) /\
  ((forall k q, aged s !! k = Some q -> state q = RUNNABLE -> priority_number q = 4) ->
   (exists k, runnable_at (aged s) k) ->
   (rr < NPROC s)%nat -> (NPROC s <= fuel)%nat ->
   exists d t,
     (d < NPROC s)%nat /\ t = ((rr + d) mod NPROC s)%nat /\
     runnable_at (aged s) t /\
     (forall e, (e < d)%nat -> ~ runnable_at (aged s) ((rr + e) mod NPROC s)) /\
     scheduler_MLFQ fuel tbs rr s
     = Swtch (upd t dispatch_slot (set_cpu_proc (Some t) (mlfq_aged s)))
         (fun s' => run_bind (release (ProcLock t) s')
                      (fun _ => ret (Some t, ((t + 1) mod NPROC s)%nat)))) /\
  (forall t qt, aged s !! t = Some qt ->
     cpu_proc (upd t dispatch_slot (set_cpu_proc (Some t) (mlfq_aged s))) = Some t /\
     procs (upd t dispatch_slot (set_cpu_proc (Some t) (mlfq_aged s)))
     = <[t := dispatch_slot qt]> (aged s) /\
     state (dispatch_slot qt) = RUNNING /\ lock (dispatch_slot qt) = true /\
     time_added (dispatch_slot qt) = 0 /\
     No_times (dispatch_slot qt) = wrap32 (No_times qt + 1)).
Proof.
  intros Hfree Hok.
  pose proof (mlfq_aged_free s Hfree) as Hfree'.
  pose proof (aged_levels_indexed s Hok) as Hok'.
  split; [|split].
  - intros Hex Hnz.
    destruct (levels_scan_finds (mlfq_aged s)) as (t & qt & Hleast & Hq3 & Hscan).
    { rewrite mlfq_aged_procs. intros k q Hk Hr. apply (Hok' k q Hk Hr). }
    { rewrite mlfq_aged_procs. exact Hnz. }
    { rewrite mlfq_aged_procs. exact Hex. }
    rewrite mlfq_aged_procs in Hleast.
    exists t, qt. split; [exact Hleast|].
    split.
    { destruct Hleast as (Hq & Hr & _). split; [apply (Hok' t qt Hq Hr)|exact Hq3]. }
    rewrite scheduler_MLFQ_unfold by exact Hok.
    erewrite bind_eq_ret by apply Hscan.
    apply Schedu_run; [exact Hfree'|].
    destruct Hleast as (Hq & _). rewrite <- mlfq_aged_procs in Hq.
    eapply lookup_lt_Some, Hq.
  - intros Hlow Hex Hrr Hfuel.
    destruct (round_robin_reaches (mlfq_aged s) rr) as (d & Hd & Hat & Hfirst).
    { rewrite mlfq_aged_length. exact Hrr. }
    { rewrite mlfq_aged_procs. exact Hex. }
    assert (Hmiss : levels_scan tbs (mlfq_aged s) = Ret (inl tbs) (mlfq_aged s)).
    { apply levels_scan_miss. rewrite mlfq_aged_procs.
      intros k q Hk Hr. rewrite (Hlow k q Hk Hr). lia. }
    pose proof (round_robin_run (mlfq_aged s) d fuel rr) as Hrun.
    rewrite mlfq_aged_length in Hd, Hat, Hfirst, Hrun.
    rewrite mlfq_aged_procs in Hat, Hfirst, Hrun.
    exists d, ((rr + d) mod NPROC s)%nat.
    split; [exact Hd|]. split; [reflexivity|]. split; [exact Hat|].
    split; [exact Hfirst|].
    rewrite scheduler_MLFQ_unfold by exact Hok.
    erewrite bind_eq_ret by apply Hmiss. cbv beta iota.
    erewrite bind_eq_ret by (apply Hrun; [lia|exact Hrr|exact Hat|exact Hfirst]).
    cbn [fst snd]. apply Schedu_run; [exact Hfree'|].
    rewrite mlfq_aged_length. apply Nat.mod_upper_bound. lia.
  - intros t qt Hq. split; [reflexivity|].
    split; [apply dispatch_insert, Hq|].
    repeat split; reflexivity.
Qed.

(** * Further properties of the routines *)

(** ** [wakeup] *)

(** X1.  Called while no slot other than the caller's is locked,
    [wakeup(chan)] returns and has made RUNNABLE exactly the slots that were
    SLEEPING on [chan], the caller's own slot excepted; such a slot keeps
    its channel, under PBS its sleeping interval is closed
    ([sleeping_time = ticks - sleeping_time]) and under MLFQ it is enqueued
    afresh ([time_added = ticks], [no_of_ticks = 0]).  Every other slot, the
    locks and the globals are as before. *)
Theorem wakeup_wakes_the_sleepers_on_chan c s :
  others_free s ->
  exists s',
    wakeup c s = Ret tt s' /\
    length (procs s') = length (procs s) /\
    (forall i q, procs s !! i = Some q ->
       Some i <> cpu_proc s -> state q = SLEEPING -> chan q = c ->
       exists q',
         procs s' !! i = Some q' /\ state q' = RUNNABLE /\ chan q' = c /\
         lock q' = lock q /\
         q' = match pol with
              | PBS => set_sleeping_time (wrap32 (ticks s - sleeping_time q))
                         (set_state RUNNABLE q)
              | MLFQ => set_no_of_ticks 0 (set_time_added (ticks s) (set_state RUNNABLE q))
              | _ => set_state RUNNABLE q
              end) /\
    (forall i q, procs s !! i = Some q ->
       Some i = cpu_proc s \/ state q <> SLEEPING \/ chan q <> c ->
       procs s' !! i = Some q) /\
    cpu_proc s' = cpu_proc s /\ ticks s' = ticks s /\ initproc s' = initproc s /\
    wait_lock s' = wait_lock s /\ pid_lock s' = pid_lock s /\
    klog s' = klog s ++ [EWakeup c].
Proof.
  intros Hfree. exists (wakeup_post c s).
  split; [apply wakeup_run, Hfree|].
  unfold wakeup_post, wake_all. cbn [procs set_procs].
  split; [apply length_imap|].
  split.
  { intros i q Hq Hme Hs Hc. rewrite list_lookup_imap, Hq. cbn.
    unfold wake_at. rewrite decide_False by exact Hme.
    unfold wake_one. rewrite bool_decide_eq_true_2 by (split; assumption).
    eexists. split; [reflexivity|].
    destruct pol; (split; [reflexivity|split; [exact Hc|split; reflexivity]]). }
  split.
  { intros i q Hq Hcase. rewrite list_lookup_imap, Hq. cbn.
    unfold wake_at. destruct (decide (Some i = cpu_proc s)) as [|Hme]; [reflexivity|].
    unfold wake_one. rewrite bool_decide_eq_false_2; [reflexivity|].
    intros [Hs Hc]. destruct Hcase as [H|[H|H]]; contradiction. }
  repeat split; reflexivity.
Qed.


(** ** Nesting level, [yield] and [sleep] *)

Lemma filter_locked_alter (l : list proc) i f q :
  l !! i = Some q ->
  Z.of_nat (length (filter (fun x => lock x = true) (alter f i l)))
  = Z.of_nat (length (filter (fun x => lock x = true) l))
    + Z.b2z (lock (f q)) - Z.b2z (lock q).
Proof.
  revert i. induction l as [|a l IH]; intros i Hi; [discriminate|].
  destruct i as [|i]; cbn [alter list_alter].
  - injection Hi as ->. rewrite !filter_cons.
    destruct (lock (f q)), (lock q);
      repeat first [rewrite decide_True by reflexivity
                   |rewrite decide_False by discriminate];
      cbn [length Z.b2z]; lia.
  - specialize (IH i Hi). rewrite !filter_cons.
    destruct (decide (lock a = true)); cbn [length]; lia.
Qed.

Lemma noff_upd i f s q :
  procs s !! i = Some q ->
  noff (upd i f s) = noff s + Z.b2z (lock (f q)) - Z.b2z (lock q).
Proof.
  intros Hi. unfold noff, upd. cbn [procs set_procs wait_lock pid_lock].
  rewrite (filter_locked_alter _ i f q Hi).
  replace (wait_lock (set_procs (alter f i (procs s)) s)) with (wait_lock s) by reflexivity.
  replace (pid_lock (set_procs (alter f i (procs s)) s)) with (pid_lock s) by reflexivity.
  lia.
Qed.

Lemma noff_set_held l b s :
  (forall i, l = ProcLock i -> (i < NPROC s)%nat) ->
  noff (set_held l b s) = noff s + Z.b2z b - Z.b2z (holding l s).
Proof.
  intros Hv. destruct l as [| |i]; cbn [set_held holding].
  - unfold noff. cbn [procs wait_lock pid_lock set_wait_lock]. lia.
  - unfold noff. cbn [procs wait_lock pid_lock set_pid_lock]. lia.
  - destruct (lookup_lt_NPROC s i (Hv i eq_refl)) as [q Hq].
    rewrite (noff_upd i _ s q Hq), Hq. reflexivity.
Qed.

Lemma noff_nonneg s : 0 <= noff s.
Proof. unfold noff. destruct (wait_lock s), (pid_lock s); cbn [Z.b2z]; lia. Qed.

Lemma filter_locked_pos (l : list proc) j x :
  l !! j = Some x -> lock x = true ->
  (0 < length (filter (fun y => lock y = true) l))%nat.
Proof.
  revert j. induction l as [|a l IH]; intros j Hj Hx; [discriminate|].
  rewrite filter_cons. destruct j as [|j].
  - injection Hj as ->. rewrite decide_True by exact Hx. cbn [length]. lia.
  - specialize (IH j Hj Hx). destruct (decide (lock a = true)); cbn [length]; lia.
Qed.

(** Some lock is held: [wait_lock], [pid_lock] or the lock of a slot. *)
Definition some_lock_held (s : kstate) : Prop :=
  wait_lock s = true \/ pid_lock s = true \/
  exists j x, procs s !! j = Some x /\ lock x = true.

Lemma noff_pos s : some_lock_held s -> 0 < noff s.
Proof.
  unfold noff. intros [H|[H|(j & x & Hj & Hx)]].
  - rewrite H. destruct (pid_lock s); cbn [Z.b2z]; lia.
  - rewrite H. destruct (wait_lock s); cbn [Z.b2z]; lia.
  - pose proof (filter_locked_pos _ j x Hj Hx).
    destruct (wait_lock s), (pid_lock s); cbn [Z.b2z]; lia.
Qed.

(** X2.  [yield] called by the current process while no lock is held marks
    the caller RUNNABLE under its own lock and switches to the scheduler;
    when the caller is switched back to (its lock held by the scheduler, as
    [sched] left it), [yield] restores the saved interrupt state, releases
    the caller's lock and returns. *)
Theorem yield_gives_up_the_cpu s p q :
  cpu_proc s = Some p -> procs s !! p = Some q ->
  locks_free s -> wait_lock s = false -> pid_lock s = false ->
  exists kont,
    yield s = Swtch (upd p (fun q => set_state RUNNABLE (set_lock true q)) s) kont /\
    forall s', holding (ProcLock p) s' = true ->
      kont s' = Ret tt (upd p (set_lock false) (set_intena (intena s) s')).
Proof.
  intros Hme Hp Hfree Hw Hpl. eexists. split.
  - apply (yield_run s p q); assumption.
  - intros s' Hheld. cbn [run_bind]. apply release_run. exact Hheld.
Qed.

(** X3.  [yield] called while a lock is held (the caller's own lock being
    free) stops the kernel with "sched locks", the caller already marked
    RUNNABLE under its own lock. *)
Theorem yield_with_a_lock_held_panics s p q :
  cpu_proc s = Some p -> procs s !! p = Some q -> lock q = false ->
  some_lock_held s ->
  yield s = Stop (PanicMsg "sched locks")
              (upd p (fun q => set_state RUNNABLE (set_lock true q)) s).
Proof.
  intros Hme Hp Hl Hheld. unfold yield. rewrite bind_myproc, Hme.
  rewrite bind_deref by (eapply lookup_lt_Some, Hp).
  rewrite bind_acquire by (rewrite (holding_proc _ _ _ Hp); exact Hl).
  cbn [set_held]. rewrite bind_setp, upd_upd.
  set (s1 := upd p (fun q => set_state RUNNABLE (set_lock true q)) s).
  assert (Hp1 : procs s1 !! p = Some (set_state RUNNABLE (set_lock true q)))
    by exact (upd_lookup_eq p _ s q Hp).
  assert (Hn : noff s1 <> 1).
  { unfold s1. rewrite (noff_upd p _ s q Hp), Hl. cbn [lock set_state set_lock Z.b2z].
    pose proof (noff_pos s Hheld). lia. }
  erewrite bind_eq_stop; [reflexivity|].
  unfold sched. rewrite bind_myproc.
  replace (cpu_proc s1) with (Some p) by (symmetry; exact Hme).
  rewrite bind_deref by (unfold s1; rewrite upd_length; eapply lookup_lt_Some, Hp).
  rewrite bind_get, (holding_proc _ _ _ Hp1). cbn [lock set_state set_lock negb].
  rewrite (proj2 (Z.eqb_neq _ _) Hn). reflexivity.
Qed.


Lemma holding_upd_other lk p f s :
  lk <> ProcLock p -> holding lk (upd p f s) = holding lk s.
Proof.
  intros Hne. destruct lk as [| |j]; try reflexivity.
  cbn [holding]. rewrite upd_lookup_ne by congruence. reflexivity.
Qed.

Lemma set_held_upd_comm lk b p f s :
  lk <> ProcLock p -> set_held lk b (upd p f s) = upd p f (set_held lk b s).
Proof.
  intros Hne. destruct lk as [| |j]; try reflexivity.
  cbn [set_held]. apply upd_comm. congruence.
Qed.

Lemma holding_valid lk s :
  holding lk s = true -> forall i, lk = ProcLock i -> (i < NPROC s)%nat.
Proof.
  intros H i ->. cbn [holding] in H.
  destruct (procs s !! i) as [q|] eqn:E; [|discriminate].
  eapply lookup_lt_Some, E.
Qed.

Lemma set_held_lookup_other lk b p s :
  lk <> ProcLock p -> procs (set_held lk b s) !! p = procs s !! p.
Proof.
  intros Hne. destruct lk as [| |j]; try reflexivity.
  cbn [set_held]. apply upd_lookup_ne. congruence.
Qed.

Lemma set_held_cpu_proc lk b s : cpu_proc (set_held lk b s) = cpu_proc s.
Proof. destruct lk; reflexivity. Qed.
Lemma set_held_ticks lk b s : ticks (set_held lk b s) = ticks s.
Proof. destruct lk; reflexivity. Qed.
Lemma set_held_intena lk b s : intena (set_held lk b s) = intena s.
Proof. destruct lk; reflexivity. Qed.
Lemma set_held_length lk b s : NPROC (set_held lk b s) = NPROC s.
Proof. destruct lk; try reflexivity. cbn [set_held]. apply upd_length. Qed.

(** The slot of a process that has gone to sleep on [c] at tick [tk]. *)
Definition asleep (c : chan_t) (tk : Z) (q : proc) : proc :=
  let q1 := set_state SLEEPING (set_chan c (set_lock true q)) in
  match pol with
  | PBS => set_sleeping_time (wrap32 tk)
             (set_running_time (wrap32 (tk - running_time q)) q1)
  | _ => q1
  end.

Lemma asleep_facts c tk q :
  lock (asleep c tk q) = true /\ state (asleep c tk q) = SLEEPING /\
  chan (asleep c tk q) = c.
Proof. unfold asleep. destruct pol; repeat split; reflexivity. Qed.

Lemma sleep_run c lk s p q :
  cpu_proc s = Some p -> procs s !! p = Some q -> lock q = false ->
  lk <> ProcLock p -> holding lk s = true -> noff s = 1 ->
  sleep c lk s
  = Swtch (upd p (asleep c (ticks s)) (set_held lk false s))
      (fun s' => run_bind (Ret tt (set_intena (intena s) s'))
                   (fun _ => setp p (set_chan CNull) ;;;
                             release (ProcLock p) ;;;
                             acquire lk)).
Proof.
  intros Hme Hp Hl Hne Hlk Hn. unfold sleep. rewrite bind_myproc, Hme.
  rewrite bind_deref by (eapply lookup_lt_Some, Hp).
  rewrite bind_acquire by (rewrite (holding_proc _ _ _ Hp); exact Hl).
  cbn [set_held].
  rewrite bind_release by (rewrite holding_upd_other by exact Hne; exact Hlk).
  rewrite set_held_upd_comm by exact Hne.
  rewrite !bind_setp, !upd_upd.
  set (s0 := set_held lk false s).
  assert (Hp0 : procs s0 !! p = Some q)
    by (unfold s0; rewrite set_held_lookup_other by exact Hne; exact Hp).
  assert (Hpre : forall (B : Type) (f : unit -> M B),
            bind (match pol with
                  | PBS =>
                      s2 <- get ;;
                      setp p (fun x => set_running_time (wrap32 (ticks s2 - running_time x)) x) ;;;
                      setp p (set_sleeping_time (wrap32 (ticks s2)))
                  | _ => ret tt
                  end) f
              (upd p (fun x => set_state SLEEPING (set_chan c (set_lock true x))) s0)
            = f tt (upd p (asleep c (ticks s)) s0)).
  { intros B f. unfold asleep. destruct pol; try reflexivity.
    cbv [bind get setp modify run_bind]. rewrite !upd_upd.
    unfold s0. rewrite upd_ticks, set_held_ticks. reflexivity. }
  rewrite Hpre.
  set (s1 := upd p (asleep c (ticks s)) s0).
  destruct (asleep_facts c (ticks s) q) as (Hal & Has & _).
  assert (Hp1 : procs s1 !! p = Some (asleep c (ticks s) q))
    by exact (upd_lookup_eq p _ s0 q Hp0).
  erewrite bind_eq_swtch; cycle 1.
  { apply (sched_run s1 p (asleep c (ticks s) q)).
    - unfold s1, s0. rewrite upd_cpu_proc, set_held_cpu_proc. exact Hme.
    - exact Hp1.
    - exact Hal.
    - unfold s1. rewrite (noff_upd p _ s0 q Hp0), Hal, Hl. unfold s0.
      rewrite noff_set_held by (apply holding_valid, Hlk).
      rewrite Hlk, Hn. reflexivity.
    - rewrite Has. discriminate. }
  unfold s1, s0. rewrite upd_intena, set_held_intena. reflexivity.
Qed.

(** X4.  [sleep(chan, lk)] called by the current process while it holds
    [lk] and no other lock takes the caller's own lock, releases [lk],
    records the channel, marks the caller SLEEPING (under PBS it closes the
    running interval: [running_time = ticks - running_time],
    [sleeping_time = ticks]) and switches to the scheduler with only the
    caller's lock held.  When the caller is switched back to, [sleep]
    clears the channel, releases the caller's lock, takes [lk] again and
    returns. *)
Theorem sleep_releases_lk_and_takes_it_back c lk s p q :
  cpu_proc s = Some p -> procs s !! p = Some q -> lock q = false ->
  lk <> ProcLock p -> holding lk s = true -> noff s = 1 ->
  exists s1 kont q1,
    sleep c lk s = Swtch s1 kont /\
    s1 = upd p (asleep c (ticks s)) (set_held lk false s) /\
    procs s1 !! p = Some q1 /\ lock q1 = true /\ state q1 = SLEEPING /\ chan q1 = c /\
    holding lk s1 = false /\ noff s1 = 1 /\
    forall s', holding (ProcLock p) s' = true -> holding lk s' = false ->
      kont s' = Ret tt (set_held lk true
                          (upd p (fun x => set_lock false (set_chan CNull x))
                             (set_intena (intena s) s'))).
Proof.
  intros Hme Hp Hl Hne Hlk Hn.
  assert (Hp0 : procs (set_held lk false s) !! p = Some q)
    by (rewrite set_held_lookup_other by exact Hne; exact Hp).
  destruct (asleep_facts c (ticks s) q) as (Hal & Has & Hac).
  eexists. eexists. exists (asleep c (ticks s) q).
  split; [apply (sleep_run c lk s p q); assumption|].
  split; [reflexivity|].
  split; [exact (upd_lookup_eq p _ _ q Hp0)|].
  split; [exact Hal|]. split; [exact Has|]. split; [exact Hac|].
  split.
  { rewrite holding_upd_other by exact Hne.
    destruct lk as [| |j]; try reflexivity.
    cbn [holding set_held]. cbn [holding] in Hlk.
    destruct (procs s !! j) as [x|] eqn:Ex; [|discriminate].
    rewrite (upd_lookup_eq j _ s x Ex). reflexivity. }
  split.
  { rewrite (noff_upd p _ _ q Hp0), Hal, Hl.
    rewrite noff_set_held by (apply holding_valid, Hlk).
    rewrite Hlk, Hn. reflexivity. }
  intros s' Hheld Hfree. cbn [run_bind].
  rewrite bind_setp.
  rewrite bind_release; cycle 1.
  { destruct (procs s' !! p) as [x|] eqn:Ex.
    - cbn [holding] in Hheld. rewrite Ex in Hheld.
      erewrite holding_proc by (apply upd_lookup_eq; exact Ex). exact Hheld.
    - cbn [holding] in Hheld. rewrite Ex in Hheld. discriminate. }
  cbn [set_held]. rewrite upd_upd.
  apply acquire_run. rewrite holding_upd_other by exact Hne.
  destruct lk; exact Hfree.
Qed.


(** ** [wait] that has to sleep *)

(** [havekids] after the first [j] slots of a scan that meets no ZOMBIE
    child. *)
Fixpoint havekids_upto (me : option nat) (l : list proc) (j : nat) : Z :=
  match j with
  | O => 0
  | S j' =>
      match l !! j' with
      | Some q => if decide (parent q = me) then 1 else havekids_upto me l j'
      | None => havekids_upto me l j'
      end
  end.

Lemma havekids_upto_child me l j i q :
  l !! i = Some q -> parent q = me -> (i < j)%nat -> havekids_upto me l j = 1.
Proof.
  intros Hi Hp. induction j as [|j IH]; intros Hlt; [lia|].
  cbn [havekids_upto]. destruct (decide (i = j)) as [->|Hne].
  - rewrite Hi. rewrite decide_True by exact Hp. reflexivity.
  - destruct (l !! j) as [x|]; [|apply IH; lia].
    destruct (decide (parent x = me)); [reflexivity|apply IH; lia].
Qed.

Lemma wait_scan_no_zombie me addr s :
  locks_free s ->
  (forall i q, procs s !! i = Some q -> ~ zombie_child me q) ->
  wait_scan me addr s = Ret (inl (havekids_upto me (procs s) (NPROC s))) s.
Proof.
  intros Hfree Hno. unfold wait_scan. rewrite bind_get.
  pose proof (for_loop_exact (wait_body me addr)
                (fun j => (havekids_upto me (procs s) j, s)) (NPROC s) 0) as H.
  cbn [fst snd] in H. apply H. intros j Hj.
  destruct (lookup_lt_NPROC s j) as [x Hx]; [lia|].
  cbn [havekids_upto]. rewrite Hx.
  destruct (decide (parent x = me)) as [Hp|Hp].
  - eapply wait_body_child; eauto.
    intros Hs. apply (Hno j x Hx). split; assumption.
  - eapply wait_body_skip; eauto.
Qed.

Lemma wait_sleep_run fuel addr s p pq :
  locks_free s -> wait_lock s = false -> pid_lock s = false ->
  cpu_proc s = Some p -> procs s !! p = Some pq -> killed pq = 0 ->
  (exists i q, procs s !! i = Some q /\ parent q = Some p) ->
  (forall i q, procs s !! i = Some q -> ~ zombie_child (Some p) q) ->
  wait (S fuel) addr s
  = Swtch (upd p (asleep (CProc p) (ticks s)) s)
      (fun s' =>
         run_bind
           (run_bind (Ret tt (set_intena (intena s) s'))
              (fun _ => setp p (set_chan CNull) ;;;
                        release (ProcLock p) ;;;
                        acquire WaitLock))
           (fun _ => wait_loop fuel (Some p) addr)).
Proof.
  intros Hfree Hw Hpl Hme Hpq Hk (i & q & Hi & Hpar) Hno.
  unfold wait. rewrite bind_myproc, Hme.
  rewrite bind_acquire by exact Hw. cbn [set_held wait_loop].
  set (s0 := set_wait_lock true s).
  assert (Hfree0 : locks_free s0) by exact Hfree.
  erewrite bind_eq_ret by (apply wait_scan_no_zombie; [exact Hfree0|exact Hno]).
  cbv beta iota.
  rewrite (havekids_upto_child (Some p) (procs s0) (NPROC s0) i q Hi Hpar)
    by (eapply lookup_lt_Some, Hi).
  erewrite (bind_eq_ret (no_point_waiting _ _)) with (a := false); cycle 1.
  { unfold no_point_waiting. cbn [Z.eqb].
    rewrite bind_deref by (eapply lookup_lt_Some, Hpq).
    erewrite bind_getp by exact Hpq. rewrite Hk. reflexivity. }
  erewrite bind_eq_swtch; cycle 1.
  { apply (sleep_run (CProc p) WaitLock s0 p pq).
    - exact Hme.
    - exact Hpq.
    - apply (Hfree p pq Hpq).
    - discriminate.
    - reflexivity.
    - unfold s0, noff. cbn [procs wait_lock pid_lock set_wait_lock].
      rewrite Hpl, filter_locked_nil by exact Hfree. reflexivity. }
  cbn [chan_of set_held]. unfold s0.
  rewrite set_wait_lock_roundtrip by exact Hw. reflexivity.
Qed.

(** X5.  [wait] called by a process that holds no lock, is not killed and
    has children of which none is a ZOMBIE goes to sleep on its own slot:
    it switches to the scheduler SLEEPING on the address of its slot, its
    own lock held and [wait_lock] released, no other slot touched.  When
    it is switched back to, it clears its channel, releases its lock and
    goes on exactly as a fresh call of [wait] in that state. *)
Theorem wait_sleeps_on_its_own_slot fuel addr s p pq :
  locks_free s -> wait_lock s = false -> pid_lock s = false ->
  cpu_proc s = Some p -> procs s !! p = Some pq -> killed pq = 0 ->
  (exists i q, procs s !! i = Some q /\ parent q = Some p) ->
  (forall i q, procs s !! i = Some q -> ~ zombie_child (Some p) q) ->
  exists s1 kont q1,
    wait (S fuel) addr s = Swtch s1 kont /\
    procs s1 = <[p := q1]> (procs s) /\
    lock q1 = true /\ state q1 = SLEEPING /\ chan q1 = CProc p /\
    wait_lock s1 = false /\
    forall s', cpu_proc s' = Some p -> holding (ProcLock p) s' = true ->
      wait_lock s' = false ->
      kont s' = wait fuel addr
                  (upd p (fun x => set_lock false (set_chan CNull x))
                     (set_intena (intena s) s')).
Proof.
  intros Hfree Hw Hpl Hme Hpq Hk Hkid Hno.
  destruct (asleep_facts (CProc p) (ticks s) pq) as (Hal & Has & Hac).
  eexists. eexists. exists (asleep (CProc p) (ticks s) pq).
  split; [apply (wait_sleep_run fuel addr s p pq); assumption|].
  split; [apply (upd_insert p _ s pq Hpq)|].
  split; [exact Hal|]. split; [exact Has|]. split; [exact Hac|].
  split; [exact Hw|].
  intros s' Hme' Hheld Hw'. cbn [run_bind].
  rewrite bind_setp.
  rewrite bind_release; cycle 1.
  { cbn [holding] in Hheld. destruct (procs s' !! p) as [x|] eqn:Ex; [|discriminate].
    erewrite holding_proc by (apply upd_lookup_eq; exact Ex). exact Hheld. }
  cbn [set_held]. rewrite upd_upd.
  unfold wait. rewrite bind_myproc, upd_cpu_proc. cbn [cpu_proc set_intena].
  rewrite Hme'. reflexivity.
Qed.


(** ** [waitx] *)

Lemma waitx_body_reap me addr i st q s evs :
  procs s !! i = Some q -> lock q = false -> parent q = me -> state q = ZOMBIE ->
  wait_lock s = true ->
  copy_outcome me addr q s = Some evs ->
  waitx_body me addr i st s
  = Ret (inr (pid q, (rtime q, wrapu32 (etime q - ctime q - rtime q))))
      (set_wait_lock false (reaped i q evs s)).
Proof.
  intros Hi Hl Hp Hs Hw Hc. unfold waitx_body. destruct st as [hk out].
  erewrite bind_getp by exact Hi.
  rewrite decide_True by exact Hp. do 2 kstep.
  rewrite decide_True by exact Hs.
  erewrite bind_eq_ret by (apply copy_status_fails_good, Hc). cbv beta iota.
  erewrite bind_eq_ret; cycle 1.
  { apply freeproc_run. unfold logs. cbn [procs set_klog]. klook. }
  cbv beta.
  rewrite bind_release; cycle 1.
  { erewrite holding_proc; cycle 1.
    { unfold logs. cbn [procs set_klog]. klook. }
    reflexivity. }
  rewrite bind_release by (cbn [holding]; exact Hw).
  unfold ret. f_equal. unfold reaped, logs, free_events. cbn [set_held]. kstate_eq.
  - rewrite !list_alter_alter_eq. apply list_alter_ext; [|reflexivity].
    intros x Hx. rewrite Hi in Hx. injection Hx as <-. proc_eq.
  - kred. rewrite <- !app_assoc. reflexivity.
Qed.

Lemma waitx_scan_no_zombie me addr out s :
  locks_free s ->
  (forall i q, procs s !! i = Some q -> ~ zombie_child me q) ->
  waitx_scan me addr out s
  = Ret (inl (havekids_upto me (procs s) (NPROC s), out)) s.
Proof.
  intros Hfree Hno. unfold waitx_scan. rewrite bind_get.
  pose proof (for_loop_exact (waitx_body me addr)
                (fun j => ((havekids_upto me (procs s) j, out), s)) (NPROC s) 0) as H.
  cbn [fst snd] in H. apply H. intros j Hj.
  destruct (lookup_lt_NPROC s j) as [x Hx]; [lia|].
  cbn [havekids_upto]. rewrite Hx.
  destruct (decide (parent x = me)) as [Hp|Hp].
  - erewrite waitx_body_child; eauto.
    intros Hs. apply (Hno j x Hx). split; assumption.
  - eapply waitx_body_skip; eauto.
Qed.

Lemma havekids_upto_none me l j :
  (forall i q, l !! i = Some q -> parent q <> me) -> havekids_upto me l j = 0.
Proof.
  intros Hno. induction j as [|j IH]; [reflexivity|].
  cbn [havekids_upto]. destruct (l !! j) as [x|] eqn:Ex; [|exact IH].
  rewrite decide_False by (apply (Hno j x Ex)). exact IH.
Qed.

(** X6.  [waitx] called by a process that holds no lock: with a ZOMBIE
    child whose status can be copied out (or with no address given) it
    reaps the first such child in table order exactly as [wait] does and
    returns its pid, with the child's [rtime] in [*rtime] and
    [etime - ctime - rtime] (as an unsigned 32-bit value) in [*wtime]; with
    no child at all, or when the caller has been killed and no child is a
    ZOMBIE, it returns -1 at once and leaves [*rtime], [*wtime] and the
    table as they were. *)
Theorem waitx_reports_run_and_wait_time fuel addr out s :
  locks_free s -> wait_lock s = false ->
  (forall i q evs,
     first_slot (zombie_child (cpu_proc s)) s i q ->
     copy_outcome (cpu_proc s) addr q s = Some evs ->
     exists s',
       waitx (S fuel) addr out s
       = Ret (pid q, (rtime q, wrapu32 (etime q - ctime q - rtime q))) s' /\
       procs s' = <[i := freed_slot q]> (procs s) /\
       klog s' = klog s ++ evs ++ free_events q /\
       wait_lock s' = false)
  /\
  ((forall i q, procs s !! i = Some q -> parent q <> cpu_proc s) ->
   waitx (S fuel) addr out s = Ret (-1, out) s)
  /\
  (forall p pq,
     cpu_proc s = Some p -> procs s !! p = Some pq -> killed pq <> 0 ->
     (forall i q, procs s !! i = Some q -> ~ zombie_child (Some p) q) ->
     waitx (S fuel) addr out s = Ret (-1, out) s).
Proof.
  intros Hfree Hw. split; [|split].
  - intros i q evs Hfirst Hc. exists (reaped i q evs s).
    split.
    { unfold waitx. rewrite bind_myproc.
      rewrite bind_acquire by exact Hw. cbn [set_held waitx_loop].
      erewrite bind_eq_ret; cycle 1.
      { unfold waitx_scan. rewrite bind_get. rewrite set_wait_lock_NPROC.
        apply for_loop_hit_any with (k := i).
        - split; [lia|]. destruct Hfirst as [Hi _]. eapply lookup_lt_Some, Hi.
        - intros j st Hj. destruct Hfirst as (Hi & _ & Hfirst).
          destruct (lookup_lt_NPROC s j) as [x Hx].
          { apply lookup_lt_Some in Hi. unfold NPROC. lia. }
          destruct (decide (parent x = cpu_proc s)) as [Hp|Hp].
          + eexists. eapply waitx_body_child; eauto.
            intros Hs. eapply (Hfirst j x); [lia|exact Hx|]. split; assumption.
          + eexists. eapply waitx_body_skip; eauto.
        - intros st. destruct Hfirst as (Hi & [Hp Hs] & _).
          eapply waitx_body_reap; eauto. }
      cbv beta iota. unfold ret. f_equal. apply reaped_unlock, Hw. }
    destruct Hfirst as (Hi & _).
    split.
    { unfold reaped, logs. cbn [procs set_klog]. apply (upd_insert i _ s q Hi). }
    split; [reflexivity|exact Hw].
  - intros Hno. unfold waitx. rewrite bind_myproc.
    rewrite bind_acquire by exact Hw. cbn [set_held waitx_loop].
    erewrite bind_eq_ret; cycle 1.
    { apply waitx_scan_no_zombie; [exact Hfree|].
      intros i q Hq [Hp _]. apply (Hno i q Hq Hp). }
    cbv beta iota. rewrite havekids_upto_none by exact Hno.
    unfold no_point_waiting. cbn [Z.eqb]. rewrite bind_ret.
    rewrite bind_release by reflexivity.
    unfold ret. f_equal. apply set_wait_lock_roundtrip, Hw.
  - intros p pq Hme Hpq Hk Hno. unfold waitx. rewrite bind_myproc, Hme.
    rewrite bind_acquire by exact Hw. cbn [set_held waitx_loop].
    erewrite bind_eq_ret; cycle 1.
    { apply waitx_scan_no_zombie; [exact Hfree|exact Hno]. }
    cbv beta iota.
    erewrite (bind_eq_ret (no_point_waiting _ _)) with (a := true); cycle 1.
    { unfold no_point_waiting. destruct (_ =? 0); [reflexivity|].
      rewrite bind_deref by (eapply lookup_lt_Some, Hpq).
      erewrite bind_getp by exact Hpq.
      rewrite (proj2 (Z.eqb_neq _ _) Hk). reflexivity. }
    rewrite bind_release by reflexivity.
    unfold ret. f_equal. apply set_wait_lock_roundtrip, Hw.
Qed.


(** ** Aging under MLFQ *)

(** X7.  On a table whose RUNNABLE slots are at levels 0 to 3, the aging
    step [UpgradePolicy] moves every RUNNABLE slot at a level [n >= 1] that
    has waited more than [Max_wait[n]] ticks since [time_added] (10, 30 and
    100 ticks for the levels 1, 2 and 3; the difference taken as an
    unsigned 32-bit value) up by exactly one level and stamps it with the
    current tick; it changes no other slot, takes no lock and keeps the
    RUNNABLE slots at levels 0 to 3. *)
Theorem UpgradePolicy_promotes_by_one_level s :
  levels_ok (procs s) ->
  exists s',
    UpgradePolicy s = Ret tt s' /\
    s' = set_procs (procs s') s /\
    length (procs s') = length (procs s) /\
    levels_ok (procs s') /\
    max_wait 1 = 10 /\ max_wait 2 = 30 /\ max_wait 3 = 100 /\
    forall i q, procs s !! i = Some q ->
      (state q = RUNNABLE -> 1 <= priority_number q ->
       max_wait (priority_number q) < wrapu32 (ticks s - time_added q) ->
       procs s' !! i
       = Some (set_priority_number (priority_number q - 1)
                 (set_time_added (ticks s) q))) /\
      (state q <> RUNNABLE \/ priority_number q = 0 \/
       wrapu32 (ticks s - time_added q) <= max_wait (priority_number q) ->
       procs s' !! i = Some q).
Proof.
  intros Hok. exists (set_procs (aged s) s).
  split; [apply UpgradePolicy_run, Hok|].
  split; [reflexivity|].
  split; [apply length_fmap|].
  split; [apply aged_levels_ok, Hok|].
  split; [reflexivity|]. split; [reflexivity|]. split; [reflexivity|].
  intros i q Hq. cbn [procs set_procs]. unfold aged.
  rewrite list_lookup_fmap, Hq. cbn [fmap option_fmap option_map].
  unfold upgrade_one. split.
  - intros Hr Hn Hwait. pose proof (Hok i q Hq Hr) as Hlv.
    rewrite bool_decide_eq_true_2 by (split; [exact Hr|lia]).
    replace (wrapu32 (ticks s - time_added q) >? max_wait (priority_number q))
      with true by (symmetry; apply Z.gtb_lt; exact Hwait).
    rewrite wrap32_id by (unfold is_int; lia). reflexivity.
  - intros Hcase.
    destruct (bool_decide (state q = RUNNABLE /\ priority_number q <> 0)) eqn:E;
      [|reflexivity].
    apply bool_decide_eq_true_1 in E as [Hr Hn].
    destruct Hcase as [H|[H|H]]; [contradiction|contradiction|].
    replace (wrapu32 (ticks s - time_added q) >? max_wait (priority_number q))
      with false by (symmetry; rewrite Z.gtb_ltb; apply Z.ltb_ge; exact H).
    reflexivity.
Qed.

(** ** Scheduler turns *)

Lemma scheduler_FCFS_body_idle j q st s :
  procs s !! j = Some q -> lock q = false -> state q <> RUNNABLE ->
  scheduler_FCFS_body j st s = Ret (inl st) s.
Proof.
  intros Hj Hl Hs. unfold scheduler_FCFS_body. destruct st as [fs tbs].
  do 2 kstep. rewrite decide_False by exact Hs. kstep.
  rewrite upd_upd, upd_id; [reflexivity|].
  intros x Hx. rewrite Hj in Hx. injection Hx as <-. proc_eq.
Qed.

Lemma scheduler_PBS_body_idle j q st s :
  procs s !! j = Some q -> lock q = false -> state q <> RUNNABLE ->
  scheduler_PBS_body j st s = Ret (inl st) s.
Proof.
  intros Hj Hl Hs. unfold scheduler_PBS_body. destruct st as [ini tbs].
  do 2 kstep. rewrite decide_False by exact Hs. kstep.
  rewrite upd_upd, upd_id; [reflexivity|].
  intros x Hx. rewrite Hj in Hx. injection Hx as <-. proc_eq.
Qed.

Lemma scheduler_DEFAULT_body_idle j q s :
  procs s !! j = Some q -> lock q = false -> state q <> RUNNABLE ->
  scheduler_DEFAULT_body j tt s = Ret (inl tt) s.
Proof.
  intros Hj Hl Hs. unfold scheduler_DEFAULT_body.
  do 2 kstep. rewrite bool_decide_eq_false_2 by exact Hs. cbn [when].
  kstep. kstep.
  rewrite upd_upd, upd_id; [reflexivity|].
  intros x Hx. rewrite Hj in Hx. injection Hx as <-. proc_eq.
Qed.

(** X8.  With no slot lock held and no RUNNABLE slot, a turn of the FCFS,
    of the PBS and of the DEFAULT scheduler switches to nothing and
    returns: interrupts have been switched on, FCFS and PBS have cleared
    [c->proc] at the top of the turn (the DEFAULT scheduler does not touch
    it), the candidate pointer is the one of the turn before, and the table
    is as it was, every lock free again. *)
Theorem scheduler_turn_without_runnable_slot tbs s :
  locks_free s ->
  (forall i q, procs s !! i = Some q -> state q <> RUNNABLE) ->
  scheduler_FCFS tbs s = Ret tbs (set_intr true (set_cpu_proc None s)) /\
  scheduler_PBS tbs s = Ret tbs (set_intr true (set_cpu_proc None s)) /\
  scheduler_DEFAULT s = Ret tt (set_intr true s).
Proof.
  intros Hfree Hno. split; [|split].
  - unfold scheduler_FCFS, intr_on. rewrite !bind_modify, bind_get.
    erewrite bind_eq_ret; cycle 1.
    { apply for_loop_skip. intros j Hj.
      destruct (lookup_lt_NPROC s j) as [x Hx]; [exact (proj2 Hj)|].
      apply (scheduler_FCFS_body_idle j x); [exact Hx|exact (Hfree j x Hx)|].
      exact (Hno j x Hx). }
    reflexivity.
  - unfold scheduler_PBS, intr_on. rewrite !bind_modify, bind_get.
    erewrite bind_eq_ret; cycle 1.
    { apply for_loop_skip. intros j Hj.
      destruct (lookup_lt_NPROC s j) as [x Hx]; [exact (proj2 Hj)|].
      apply (scheduler_PBS_body_idle j x); [exact Hx|exact (Hfree j x Hx)|].
      exact (Hno j x Hx). }
    reflexivity.
  - unfold scheduler_DEFAULT, intr_on. rewrite bind_modify, bind_get.
    erewrite bind_eq_ret; cycle 1.
    { apply for_loop_skip. intros j Hj.
      destruct (lookup_lt_NPROC s j) as [x Hx]; [exact (proj2 Hj)|].
      apply (scheduler_DEFAULT_body_idle j x); [exact Hx|exact (Hfree j x Hx)|].
      exact (Hno j x Hx). }
    reflexivity.
Qed.


Lemma round_robin_spins s :
  (forall i q, procs s !! i = Some q -> state q <> RUNNABLE) ->
  forall fuel rr, (rr < NPROC s)%nat -> round_robin fuel rr s = Stop OutOfFuel s.
Proof.
  intros Hno. induction fuel as [|fuel IH]; intros rr Hrr; [reflexivity|].
  cbn [round_robin].
  destruct (lookup_lt_NPROC s rr Hrr) as [q Hq].
  erewrite bind_getp by exact Hq. rewrite bind_get.
  rewrite decide_False by (apply (Hno rr q Hq)).
  apply IH. apply Nat.mod_upper_bound. lia.
Qed.

Lemma aged_idle s :
  (forall i q, procs s !! i = Some q -> state q <> RUNNABLE) -> aged s = procs s.
Proof.
  intros Hno. unfold aged. apply list_eq. intros i.
  rewrite list_lookup_fmap. destruct (procs s !! i) as [q|] eqn:Eq; [|reflexivity].
  cbn. f_equal. unfold upgrade_one. rewrite bool_decide_eq_false_2; [reflexivity|].
  intros [Hr _]. exact (Hno i q Eq Hr).
Qed.

(** X9.  With no RUNNABLE slot, a turn of the MLFQ scheduler does not end:
    after the aging step and the scan of the levels, which change nothing,
    the round-robin loop only moves its cursor; however many turns of that
    loop are allowed, the scheduler has neither switched nor returned, it
    has taken no lock, and the state is as it was but for interrupts being
    on and [c->proc] cleared. *)
Theorem scheduler_MLFQ_spins_without_runnable_slot fuel tbs rr s :
  (forall i q, procs s !! i = Some q -> state q <> RUNNABLE) ->
  (rr < NPROC s)%nat ->
  scheduler_MLFQ fuel tbs rr s
  = Stop OutOfFuel (set_cpu_proc None (set_intr true s)).
Proof.
  intros Hno Hrr.
  assert (Hok : levels_indexed (procs s)).
  { intros i q Hq Hr. exfalso. exact (Hno i q Hq Hr). }
  assert (Hs : mlfq_aged s = set_cpu_proc None (set_intr true s)).
  { unfold mlfq_aged. rewrite aged_idle by exact Hno.
    apply (set_procs_id (set_cpu_proc None (set_intr true s))). }
  rewrite scheduler_MLFQ_unfold by exact Hok. rewrite Hs.
  destruct (levels_scan_pass tbs (set_cpu_proc None (set_intr true s))) as [t1 Hpass].
  { intros k q Hq Hr. exfalso. exact (Hno k q Hq Hr). }
  erewrite bind_eq_ret by exact Hpass. cbv beta iota.
  apply bind_eq_stop. apply round_robin_spins; [exact Hno|exact Hrr].
Qed.

(** A scan whose slot [k] switches away, the slots before it doing
    nothing: when the other context switches back, the slot's body runs to
    its end and the scan goes on with the next slot. *)
Lemma for_loop_swtch {St R} (body : nat -> St -> M (St + R)) m k st s s1 kb :
  forall d i,
    k = (d + i)%nat ->
    (forall j, (i <= j < k)%nat -> body j st s = Ret (inl st) s) ->
    body k st s = Swtch s1 kb ->
    for_loop body i (d + S m) st s
    = Swtch s1 (fun s' =>
        run_bind (kb s')
          (fun r => match r with
                    | inl st' => for_loop body (S k) m st'
                    | inr v => ret (inr v)
                    end)).
Proof.
  induction d as [|d IH]; intros i Hk Hskip Hbody.
  - cbn [Nat.add] in Hk. subst i. cbn [Nat.add for_loop].
    unfold bind. rewrite Hbody. reflexivity.
  - cbn [Nat.add for_loop]. unfold bind at 1.
    rewrite Hskip by lia. cbn [run_bind].
    apply IH; [lia| |exact Hbody]. intros j Hj. apply Hskip. lia.
Qed.

Lemma scheduler_DEFAULT_body_switch t q s :
  procs s !! t = Some q -> lock q = false -> state q = RUNNABLE ->
  exists kb,
    scheduler_DEFAULT_body t tt s
    = Swtch (set_cpu_proc (Some t)
               (upd t (fun x => set_state RUNNING (set_lock true x)) s)) kb /\
    forall s', holding (ProcLock t) s' = true ->
      kb s' = Ret (inl tt) (upd t (set_lock false) (set_cpu_proc None s')).
Proof.
  intros Ht Hl Hs. unfold scheduler_DEFAULT_body.
  do 2 kstep. rewrite bool_decide_eq_true_2 by exact Hs. cbn [when].
  eexists. split.
  - cbv [bind setp modify swtch run_bind]. rewrite upd_upd. reflexivity.
  - intros s' Hheld. cbn [run_bind].
    unfold bind. rewrite release_run by exact Hheld. reflexivity.
Qed.

(** X10.  With no slot lock held, a turn of the DEFAULT scheduler switches
    to the first RUNNABLE slot in table order: that slot is RUNNING, its
    lock held, and it is the CPU's current process; nothing else has
    changed but interrupts being on.  When that process switches back (its
    lock held), the scheduler clears [c->proc], releases the slot's lock
    and goes on scanning with the next slot of the table. *)
Theorem scheduler_DEFAULT_runs_first_runnable s t q :
  locks_free s -> first_slot (fun x => state x = RUNNABLE) s t q ->
  exists kont,
    scheduler_DEFAULT s
    = Swtch (set_cpu_proc (Some t)
               (upd t (fun x => set_state RUNNING (set_lock true x))
                  (set_intr true s))) kont /\
    forall s', holding (ProcLock t) s' = true ->
      kont s'
      = (for_loop scheduler_DEFAULT_body (S t) (NPROC s - S t) tt ;;; ret tt)
          (upd t (set_lock false) (set_cpu_proc None s')).
Proof.
  intros Hfree (Ht & Hr & Hfirst).
  assert (Hlt : (t < NPROC s)%nat) by (eapply lookup_lt_Some, Ht).
  destruct (scheduler_DEFAULT_body_switch t q (set_intr true s) Ht (Hfree t q Ht) Hr)
    as (kb & Hbody & Hkb).
  unfold scheduler_DEFAULT, intr_on. rewrite bind_modify, bind_get.
  replace (NPROC (set_intr true s)) with (t + S (NPROC s - S t))%nat
    by (change (NPROC (set_intr true s)) with (NPROC s); lia).
  erewrite bind_eq_swtch; cycle 1.
  { apply (for_loop_swtch scheduler_DEFAULT_body (NPROC s - S t) t tt
             (set_intr true s) _ kb t 0%nat).
    - lia.
    - intros j Hj. destruct (lookup_lt_NPROC s j) as [x Hx]; [lia|].
      apply (scheduler_DEFAULT_body_idle j x);
        [exact Hx|exact (Hfree j x Hx)|apply (Hfirst j x); [lia|exact Hx]].
    - exact Hbody. }
  eexists. split; [reflexivity|].
  intros s' Hheld. cbn beta. rewrite (Hkb s' Hheld). reflexivity.
Qed.


(** ** The PBS scheduler *)

(** The dynamic priority where it is defined, and the key by which
    [PcbCompare] orders two processes: dynamic priority, then the number of
    times scheduled, then the creation tick. *)
Definition prio_of (q : proc) : Z :=
  match PSBPriority q with
  | Some a => a
  | None => 0
  end.

Definition pbs_key (q : proc) : Z * Z * Z :=
  (prio_of q, Times_scheduled q, start_time q).

Definition key_lt (x y : Z * Z * Z) : Prop :=
  fst (fst x) < fst (fst y) \/
  (fst (fst x) = fst (fst y) /\
   (snd (fst x) < snd (fst y) \/
    (snd (fst x) = snd (fst y) /\ snd x < snd y))).

#[local] Instance key_lt_dec x y : Decision (key_lt x y).
Proof. unfold key_lt. apply _. Defined.

Lemma PcbCompare_key p q :
  PSBPriority p <> None -> PSBPriority q <> None ->
  PcbCompare p q = Some (if decide (key_lt (pbs_key q) (pbs_key p)) then 1 else -1).
Proof.
  intros Hp Hq. unfold PcbCompare, key_lt, pbs_key, prio_of.
  destruct (PSBPriority p) as [a|]; [|contradiction].
  destruct (PSBPriority q) as [b|]; [|contradiction].
  cbn [fst snd]. rewrite !Z.gtb_ltb. f_equal.
  destruct (Z.ltb_spec a b), (Z.ltb_spec b a),
    (Z.ltb_spec (Times_scheduled q) (Times_scheduled p)),
    (Z.ltb_spec (Times_scheduled p) (Times_scheduled q)),
    (Z.ltb_spec (start_time p) (start_time q)),
    (Z.ltb_spec (start_time q) (start_time p));
    destruct (decide _) as [HD|HD]; try reflexivity; exfalso; lia.
Qed.

Lemma PSBPriority_set_lock b q : PSBPriority (set_lock b q) = PSBPriority q.
Proof. reflexivity. Qed.

Lemma pbs_key_set_lock b q : pbs_key (set_lock b q) = pbs_key q.
Proof. reflexivity. Qed.

(** X11.  [PcbCompare(p, q)] has no value exactly when the dynamic priority
    of [p] or of [q] has none (the zero divisor).  Otherwise it answers 1
    or -1, never 0, and it answers 1 exactly when [q] comes strictly before
    [p] in the lexicographic order of lower dynamic priority, then fewer
    times scheduled, then earlier creation tick; so it never answers 1 in
    both directions, and on a full tie (in particular for [p] against
    itself) it answers -1. *)
Theorem PcbCompare_orders_lexicographically p q :
  (PcbCompare p q = None <-> PSBPriority p = None \/ PSBPriority q = None) /\
  (forall a b, PSBPriority p = Some a -> PSBPriority q = Some b ->
     (PcbCompare p q = Some 1 \/ PcbCompare p q = Some (-1)) /\
     (PcbCompare p q = Some 1 <->
        b < a \/
        (b = a /\ (Times_scheduled q < Times_scheduled p \/
                   (Times_scheduled q = Times_scheduled p /\
                    start_time q < start_time p)))) /\
     (PcbCompare p q = Some 1 -> PcbCompare q p = Some (-1)) /\
     (a = b -> Times_scheduled p = Times_scheduled q ->
      start_time p = start_time q ->
      PcbCompare p q = Some (-1) /\ PcbCompare q p = Some (-1))).
Proof.
  split.
  - unfold PcbCompare. destruct (PSBPriority p), (PSBPriority q); split;
      try discriminate; intros H; try reflexivity; auto;
      destruct H; discriminate.
  - intros a b Ha Hb.
    assert (Hp : PSBPriority p <> None) by (rewrite Ha; discriminate).
    assert (Hq : PSBPriority q <> None) by (rewrite Hb; discriminate).
    rewrite (PcbCompare_key p q Hp Hq), (PcbCompare_key q p Hq Hp).
    unfold key_lt, pbs_key, prio_of. rewrite Ha, Hb. cbn [fst snd].
    destruct (decide _) as [H1|H1]; destruct (decide _) as [H2|H2].
    + exfalso. lia.
    + split; [left; reflexivity|].
      split; [split; [intros _; exact H1|reflexivity]|].
      split; [reflexivity|]. intros. exfalso. lia.
    + split; [right; reflexivity|].
      split; [split; [discriminate|intros H; contradiction]|].
      split; [discriminate|]. intros. exfalso. lia.
    + split; [right; reflexivity|].
      split; [split; [discriminate|intros H; contradiction]|].
      split; [discriminate|]. intros. split; reflexivity.
Qed.


Lemma key_lt_irrefl x : ~ key_lt x x.
Proof. unfold key_lt. lia. Qed.

Lemma key_lt_trans x y z : key_lt x y -> key_lt y z -> key_lt x z.
Proof. unfold key_lt. lia. Qed.

(** The candidate of the PBS scan after slot [j] ([None]: none yet). *)
Definition pbs_step (l : list proc) (acc : option nat) (j : nat) (q : proc)
  : option nat :=
  if decide (state q = RUNNABLE) then
    match acc with
    | None => Some j
    | Some t =>
        match l !! t with
        | Some tq =>
            if decide (key_lt (pbs_key q) (pbs_key tq)) then Some j else Some t
        | None => Some t
        end
    end
  else acc.

Fixpoint pbs_upto (l : list proc) (j : nat) : option nat :=
  match j with
  | O => None
  | S j' =>
      match l !! j' with
      | Some q => pbs_step l (pbs_upto l j') j' q
      | None => pbs_upto l j'
      end
  end.

(** Slot [t] is RUNNABLE and first in the order of [PcbCompare] among the
    RUNNABLE slots below [j], the lowest slot among those of equal key. *)
Definition pbs_best (l : list proc) (j t : nat) (qt : proc) : Prop :=
  (t < j)%nat /\ l !! t = Some qt /\ state qt = RUNNABLE /\
  forall k q, (k < j)%nat -> l !! k = Some q -> state q = RUNNABLE ->
    ~ key_lt (pbs_key q) (pbs_key qt) /\ (pbs_key q = pbs_key qt -> (t <= k)%nat).

Lemma pbs_upto_inv l j :
  match pbs_upto l j with
  | None => forall k q, (k < j)%nat -> l !! k = Some q -> state q <> RUNNABLE
  | Some t => exists qt, pbs_best l j t qt
  end.
Proof.
  induction j as [|j IH]; cbn [pbs_upto]; [intros; lia|].
  destruct (l !! j) as [q|] eqn:Eq.
  - unfold pbs_step. destruct (decide (state q = RUNNABLE)) as [Hr|Hr].
    + destruct (pbs_upto l j) as [t|].
      * destruct IH as (qt & Ht & Hqt & Hrt & Hbest). rewrite Hqt.
        destruct (decide (key_lt (pbs_key q) (pbs_key qt))) as [Hlt|Hge].
        -- exists q. split; [lia|]. split; [exact Eq|]. split; [exact Hr|].
           intros k x Hk Hx Hrx. destruct (decide (k = j)) as [->|Hne].
           ++ rewrite Eq in Hx. injection Hx as <-.
              split; [apply key_lt_irrefl|intros; lia].
           ++ destruct (Hbest k x ltac:(lia) Hx Hrx) as [Hnlt _]. split.
              ** intros H. apply Hnlt. eapply key_lt_trans; eassumption.
              ** intros E. exfalso. apply Hnlt. rewrite E. exact Hlt.
        -- exists qt. split; [lia|]. split; [exact Hqt|]. split; [exact Hrt|].
           intros k x Hk Hx Hrx. destruct (decide (k = j)) as [->|Hne].
           ++ rewrite Eq in Hx. injection Hx as <-. split; [exact Hge|intros; lia].
           ++ apply Hbest; [lia|exact Hx|exact Hrx].
      * exists q. split; [lia|]. split; [exact Eq|]. split; [exact Hr|].
        intros k x Hk Hx Hrx. destruct (decide (k = j)) as [->|Hne].
        -- rewrite Eq in Hx. injection Hx as <-.
           split; [apply key_lt_irrefl|intros; lia].
        -- exfalso. apply (IH k x); [lia|exact Hx|exact Hrx].
    + destruct (pbs_upto l j) as [t|].
      * destruct IH as (qt & Ht & Hqt & Hrt & Hbest).
        exists qt. split; [lia|]. split; [exact Hqt|]. split; [exact Hrt|].
        intros k x Hk Hx Hrx. destruct (decide (k = j)) as [->|Hne].
        -- rewrite Eq in Hx. injection Hx as <-. contradiction.
        -- apply Hbest; [lia|exact Hx|exact Hrx].
      * intros k x Hk Hx. destruct (decide (k = j)) as [->|Hne].
        -- rewrite Eq in Hx. injection Hx as <-. exact Hr.
        -- apply (IH k x); [lia|exact Hx].
  - apply lookup_ge_None in Eq.
    destruct (pbs_upto l j) as [t|].
    + destruct IH as (qt & Ht & Hqt & Hrt & Hbest).
      exists qt. split; [lia|]. split; [exact Hqt|]. split; [exact Hrt|].
      intros k x Hk Hx Hrx. apply Hbest; [|exact Hx|exact Hrx].
      apply lookup_lt_Some in Hx. lia.
    + intros k x Hk Hx. apply (IH k x); [|exact Hx].
      apply lookup_lt_Some in Hx. lia.
Qed.

(** The locals [intialized] and [ToBeScheduled], and the table, during a
    scan that keeps its candidate locked. *)
Definition pbs_locals (tbs0 : option nat) (acc : option nat) : Z * option nat :=
  match acc with
  | None => (-1, tbs0)
  | Some t => (0, Some t)
  end.

Definition pbs_held (acc : option nat) (s : kstate) : kstate :=
  match acc with
  | None => s
  | Some t => upd t (set_lock true) s
  end.


Lemma scheduler_PBS_body_run s j q acc tbs0 :
  locks_free s -> procs s !! j = Some q ->
  (forall t, acc = Some t ->
     (t < j)%nat /\ exists tq, procs s !! t = Some tq /\ PSBPriority tq <> None) ->
  (state q = RUNNABLE -> PSBPriority q <> None) ->
  scheduler_PBS_body j (pbs_locals tbs0 acc) (pbs_held acc s)
  = Ret (inl (pbs_locals tbs0 (pbs_step (procs s) acc j q)))
      (pbs_held (pbs_step (procs s) acc j q) s).
Proof.
  intros Hfree Hj Hacc Hprio.
  assert (Hl : lock q = false) by (eapply Hfree, Hj).
  unfold scheduler_PBS_body, pbs_step.
  destruct acc as [t|]; cbn [pbs_locals pbs_held].
  - (* a candidate [t] is held *)
    destruct (Hacc t eq_refl) as (Ht & tq & Htq & Hptq).
    assert (Hlt : lock tq = false) by (eapply Hfree, Htq).
    assert (Hne : t <> j) by lia.
    rewrite bind_acquire; cycle 1.
    { erewrite holding_proc; [exact Hl|]. rewrite upd_lookup_ne by exact Hne. exact Hj. }
    cbn [set_held].
    erewrite bind_getp by (eapply upd_lookup_eq; rewrite upd_lookup_ne by exact Hne; exact Hj).
    kred.
    assert (Hback : upd j (set_lock false) (upd j (set_lock true) (upd t (set_lock true) s))
                    = upd t (set_lock true) s).
    { eapply upd_lock_roundtrip; [|exact Hl]. rewrite upd_lookup_ne by exact Hne. exact Hj. }
    assert (Hrel : holding (ProcLock j) (upd j (set_lock true) (upd t (set_lock true) s)) = true).
    { erewrite holding_proc
        by (eapply upd_lookup_eq; rewrite upd_lookup_ne by exact Hne; exact Hj).
      reflexivity. }
    destruct (decide (state q = RUNNABLE)) as [Hr|Hr].
    + cbn [Z.eqb].
      rewrite bind_deref by (rewrite !upd_length; eapply lookup_lt_Some, Htq).
      erewrite bind_getp
        by (rewrite upd_lookup_ne by congruence; eapply upd_lookup_eq, Htq).
      rewrite Htq.
      rewrite (PcbCompare_key (set_lock true tq) (set_lock true q))
        by (rewrite PSBPriority_set_lock; auto).
      rewrite !pbs_key_set_lock.
      destruct (decide (key_lt (pbs_key q) (pbs_key tq))) as [Hlt'|Hge].
      * cbn [Z.gtb Z.compare].
        rewrite bind_release; cycle 1.
        { erewrite holding_proc
            by (rewrite upd_lookup_ne by congruence; eapply upd_lookup_eq, Htq).
          reflexivity. }
        cbn [set_held pbs_locals pbs_held]. unfold ret. f_equal.
        rewrite (upd_comm t j) by exact Hne.
        rewrite (upd_lock_roundtrip _ _ _ Htq Hlt). reflexivity.
      * cbn [Z.gtb Z.compare].
        rewrite bind_release by exact Hrel.
        cbn [set_held pbs_locals pbs_held]. rewrite Hback. reflexivity.
    + rewrite bind_release by exact Hrel.
      cbn [set_held pbs_locals pbs_held]. rewrite Hback. reflexivity.
  - (* no candidate yet *)
    rewrite bind_acquire by (rewrite (holding_proc _ _ _ Hj); exact Hl).
    cbn [set_held]. erewrite bind_getp by (eapply upd_lookup_eq, Hj). kred.
    destruct (decide (state q = RUNNABLE)) as [Hr|Hr].
    + reflexivity.
    + rewrite bind_release
        by (erewrite holding_proc by (eapply upd_lookup_eq, Hj); reflexivity).
      cbn [set_held pbs_locals pbs_held].
      rewrite (upd_lock_roundtrip _ _ _ Hj Hl). reflexivity.
Qed.

(** What the PBS dispatch does to the chosen slot at tick [tk]. *)
Definition pbs_dispatch (tk : Z) (q : proc) : proc :=
  set_running_time (wrap32 tk)
    (set_sleeping_time 0
       (set_Times_scheduled (wrap32 (Times_scheduled q + 1))
          (set_state RUNNING (set_lock true q)))).

Lemma scheduler_PBS_run tbs0 s t :
  locks_free s ->
  (forall i q, procs s !! i = Some q -> state q = RUNNABLE -> PSBPriority q <> None) ->
  pbs_upto (procs s) (NPROC s) = Some t ->
  scheduler_PBS tbs0 s
  = Swtch (set_cpu_proc (Some t)
             (upd t (pbs_dispatch (ticks s)) (set_intr true (set_cpu_proc None s))))
      (fun s' => run_bind (release (ProcLock t) s') (fun _ => ret (Some t))).
Proof.
  intros Hfree Hprio Hsel. unfold scheduler_PBS, intr_on.
  rewrite !bind_modify, bind_get.
  set (s0 := set_intr true (set_cpu_proc None s)).
  assert (Hfree0 : locks_free s0) by exact Hfree.
  erewrite bind_eq_ret; cycle 1.
  { pose proof (for_loop_exact scheduler_PBS_body
      (fun j => (pbs_locals tbs0 (pbs_upto (procs s) j),
                 pbs_held (pbs_upto (procs s) j) s0)) (NPROC s) 0) as H.
    cbn [fst snd] in H. apply H. intros j Hj.
    destruct (lookup_lt_NPROC s j) as [q Hq]; [lia|].
    cbn [pbs_upto]. rewrite Hq.
    apply (scheduler_PBS_body_run s0 j q).
    - exact Hfree0.
    - exact Hq.
    - intros t' Ht'. pose proof (pbs_upto_inv (procs s) j) as Hinv.
      rewrite Ht' in Hinv. destruct Hinv as (qt & Hlt & Hqt & Hrt & _).
      split; [exact Hlt|]. exists qt. split; [exact Hqt|].
      apply (Hprio t' qt Hqt Hrt).
    - apply (Hprio j q Hq). }
  cbv beta iota. cbn [Nat.add]. rewrite Hsel. cbn [pbs_locals pbs_held Z.eqb].
  pose proof (pbs_upto_inv (procs s) (NPROC s)) as Hinv.
  rewrite Hsel in Hinv. destruct Hinv as (qt & Hlt & Hqt & _).
  rewrite bind_deref by (rewrite upd_length; exact Hlt).
  rewrite !bind_setp, bind_get, bind_setp, bind_modify, !upd_upd.
  reflexivity.
Qed.

(** X12.  In a turn of the PBS scheduler that starts with no slot lock held
    and at least one RUNNABLE slot, every RUNNABLE slot having a dynamic
    priority, the scheduler switches to the RUNNABLE slot that comes first
    in the order of [PcbCompare]: lowest dynamic priority, then fewest
    times scheduled, then earliest creation tick, and the lowest slot of
    the table among those that tie on all three.  That slot is RUNNING,
    locked and the CPU's current process, its [Times_scheduled] is
    incremented, its [sleeping_time] is 0 and its [running_time] is the
    current tick; no other slot changes.  When the process switches back,
    the scheduler releases the slot's lock and ends its turn. *)
Theorem scheduler_PBS_picks_most_urgent tbs0 s :
  locks_free s ->
  (forall i q, procs s !! i = Some q -> state q = RUNNABLE -> PSBPriority q <> None) ->
  (exists i q, procs s !! i = Some q /\ state q = RUNNABLE) ->
  exists t qt s' kont,
    scheduler_PBS tbs0 s = Swtch s' kont /\
    procs s !! t = Some qt /\ state qt = RUNNABLE /\
    (forall j q, procs s !! j = Some q -> state q = RUNNABLE ->
       ~ key_lt (pbs_key q) (pbs_key qt) /\
       (pbs_key q = pbs_key qt -> (t <= j)%nat)) /\
    cpu_proc s' = Some t /\
    procs s' = <[t := pbs_dispatch (ticks s) qt]> (procs s) /\
    state (pbs_dispatch (ticks s) qt) = RUNNING /\
    lock (pbs_dispatch (ticks s) qt) = true /\
    Times_scheduled (pbs_dispatch (ticks s) qt) = wrap32 (Times_scheduled qt + 1) /\
    sleeping_time (pbs_dispatch (ticks s) qt) = 0 /\
    running_time (pbs_dispatch (ticks s) qt) = wrap32 (ticks s) /\
    forall s'', holding (ProcLock t) s'' = true ->
      kont s'' = Ret (Some t) (upd t (set_lock false) s'').
Proof.
  intros Hfree Hprio (i & q & Hi & Hr).
  pose proof (pbs_upto_inv (procs s) (NPROC s)) as Hinv.
  destruct (pbs_upto (procs s) (NPROC s)) as [t|] eqn:Hsel.
  - destruct Hinv as (qt & Hlt & Hqt & Hrt & Hbest).
    exists t, qt. eexists. eexists.
    split; [apply (scheduler_PBS_run tbs0 s t Hfree Hprio Hsel)|].
    split; [exact Hqt|]. split; [exact Hrt|].
    split.
    { intros j x Hj Hx. apply (Hbest j x); [eapply lookup_lt_Some, Hj|exact Hj|exact Hx]. }
    split; [reflexivity|].
    split.
    { exact (upd_insert t _ (set_intr true (set_cpu_proc None s)) qt Hqt). }
    repeat (split; [reflexivity|]).
    intros s'' Hheld. cbn beta. rewrite release_run by exact Hheld. reflexivity.
  - exfalso. apply (Hinv i q); [eapply lookup_lt_Some, Hi|exact Hi|exact Hr].
Qed.


(** ** [allocpid] and [allocproc] *)

Lemma set_pid_lock_roundtrip v s :
  pid_lock s = false ->
  set_pid_lock false (set_nextpid v (set_pid_lock true s)) = set_nextpid v s.
Proof. intros H. destruct s; cbn in *; subst; reflexivity. Qed.

Lemma allocpid_run s :
  pid_lock s = false ->
  allocpid s = Ret (nextpid s) (set_nextpid (wrap32 (nextpid s + 1)) s).
Proof.
  intros H. unfold allocpid. rewrite bind_acquire by exact H.
  cbn [set_held]. rewrite bind_get, bind_modify.
  rewrite bind_release by reflexivity. cbn [set_held].
  unfold ret. f_equal. apply set_pid_lock_roundtrip, H.
Qed.

Lemma allocproc_body_skip j q s :
  procs s !! j = Some q -> lock q = false -> state q <> UNUSED ->
  allocproc_body j tt s = Ret (inl tt) s.
Proof.
  intros Hj Hl Hs. unfold allocproc_body. do 2 kstep.
  rewrite decide_False by exact Hs. kstep.
  rewrite upd_upd, upd_id; [reflexivity|].
  intros x Hx. rewrite Hj in Hx. injection Hx as <-. proc_eq.
Qed.

Lemma allocproc_body_hit j q s :
  procs s !! j = Some q -> lock q = false -> state q = UNUSED ->
  allocproc_body j tt s = Ret (inr j) (upd j (set_lock true) s).
Proof.
  intros Hj Hl Hs. unfold allocproc_body. do 2 kstep.
  rewrite decide_True by exact Hs. reflexivity.
Qed.

(** The fields that [allocproc] sets for the policy at tick [tk]. *)
Definition policy_fields (tk : Z) (q : proc) : proc :=
  match pol with
  | DEFAULT => q
  | FCFS => set_start_time (wrap32 tk) q
  | PBS =>
      set_sleeping_time (-1) (set_running_time (-1) (set_start_time (wrap32 tk)
        (set_Times_scheduled 0 (set_Static_priority 60 q))))
  | MLFQ =>
      set_No_times 0 (set_no_of_ticks 0 (set_time_added tk (set_priority_number 0 q)))
  end.

(** The slot that [allocproc] hands out. *)
Definition allocated (page pt pid0 tk : Z) (q : proc) : proc :=
  policy_fields tk
    (set_ctime tk (set_etime 0 (set_rtime 0 (set_pagetable pt (set_trapframe page
      (set_Trace 0 (set_state USED (set_pid pid0 (set_lock true q))))))))).

Lemma upd_set_nextpid i f v s : upd i f (set_nextpid v s) = set_nextpid v (upd i f s).
Proof. reflexivity. Qed.

Lemma set_nextpid_procs v s : procs (set_nextpid v s) = procs s.
Proof. reflexivity. Qed.

Lemma upd_nextpid i f s : nextpid (upd i f s) = nextpid s.
Proof. reflexivity. Qed.

Lemma logs_set_nextpid evs v s : logs evs (set_nextpid v s) = set_nextpid v (logs evs s).
Proof. reflexivity. Qed.

Lemma allocproc_search s i q :
  locks_free s -> first_slot (fun x => state x = UNUSED) s i q ->
  for_loop allocproc_body 0 (NPROC s) tt s = Ret (inr i) (upd i (set_lock true) s).
Proof.
  intros Hfree (Hi & Hu & Hfirst).
  apply for_loop_hit with (k := i).
  - split; [lia|]. eapply lookup_lt_Some, Hi.
  - intros j Hj. destruct (lookup_lt_NPROC s j) as [x Hx].
    { apply lookup_lt_Some in Hi. unfold NPROC. lia. }
    apply (allocproc_body_skip j x); [exact Hx|exact (Hfree j x Hx)|].
    apply (Hfirst j x); [lia|exact Hx].
  - apply (allocproc_body_hit i q); [exact Hi|exact (Hfree i q Hi)|exact Hu].
Qed.

Lemma allocproc_ok page pt s i q :
  locks_free s -> pid_lock s = false ->
  first_slot (fun x => state x = UNUSED) s i q ->
  page <> 0 -> pt <> 0 ->
  allocproc page pt s
  = Ret (Some i)
      (set_nextpid (wrap32 (nextpid s + 1))
         (upd i (allocated page pt (nextpid s) (ticks s)) s)).
Proof.
  intros Hfree Hpl Hfirst Hpage Hpt. unfold allocproc. rewrite bind_get.
  erewrite bind_eq_ret by (apply (allocproc_search s i q); assumption).
  cbv beta iota.
  erewrite bind_eq_ret by (apply allocpid_run; exact Hpl).
  cbv beta. rewrite !bind_setp, !upd_set_nextpid, !upd_upd.
  rewrite (proj2 (Z.eqb_neq _ _) Hpage).
  rewrite bind_setp, upd_set_nextpid, upd_upd.
  rewrite (proj2 (Z.eqb_neq _ _) Hpt).
  rewrite !bind_setp, bind_get, bind_setp, !upd_set_nextpid, !upd_upd.
  unfold allocated, policy_fields.
  destruct pol; cbv [bind ret setp modify run_bind];
    rewrite ?upd_set_nextpid, ?upd_upd; reflexivity.
Qed.

Lemma allocproc_full page pt s :
  locks_free s ->
  (forall i q, procs s !! i = Some q -> state q <> UNUSED) ->
  allocproc page pt s = Ret None s.
Proof.
  intros Hfree Hno. unfold allocproc. rewrite bind_get.
  erewrite bind_eq_ret; cycle 1.
  { apply for_loop_skip. intros j Hj.
    destruct (lookup_lt_NPROC s j) as [x Hx]; [exact (proj2 Hj)|].
    apply (allocproc_body_skip j x); [exact Hx|exact (Hfree j x Hx)|exact (Hno j x Hx)]. }
  reflexivity.
Qed.

(** The slot after an allocation that failed. *)
Definition unallocated (q : proc) : proc := set_Trace 0 (freed_slot q).

Lemma allocproc_fails page pt s i q :
  locks_free s -> pid_lock s = false ->
  first_slot (fun x => state x = UNUSED) s i q ->
  pagetable q = 0 -> page = 0 \/ pt = 0 ->
  allocproc page pt s
  = Ret None
      (logs (if page =? 0 then [] else [EKfree page])
         (set_nextpid (wrap32 (nextpid s + 1)) (upd i unallocated s))).
Proof.
  intros Hfree Hpl Hfirst Hq0 Hfail. pose proof Hfirst as (Hi & Hu & _).
  assert (Hl : lock q = false) by exact (Hfree i q Hi).
  unfold allocproc. rewrite bind_get.
  erewrite bind_eq_ret by (apply (allocproc_search s i q); assumption).
  cbv beta iota.
  erewrite bind_eq_ret by (apply allocpid_run; exact Hpl).
  cbv beta. rewrite !bind_setp, !upd_set_nextpid, !upd_upd.
  destruct (page =? 0) eqn:Epage.
  - apply Z.eqb_eq in Epage. subst page.
    erewrite bind_eq_ret; cycle 1.
    { apply freeproc_run. rewrite set_nextpid_procs. apply upd_lookup_eq, Hi. }
    cbv beta. unfold free_events. kred. rewrite Hq0. cbn [Z.eqb app].
    rewrite logs_nil, upd_set_nextpid, upd_upd.
    rewrite bind_release; cycle 1.
    { erewrite holding_proc
        by (rewrite set_nextpid_procs; apply upd_lookup_eq, Hi).
      reflexivity. }
    cbn [set_held]. rewrite upd_set_nextpid, upd_upd, logs_nil, !upd_nextpid.
    unfold ret. f_equal. f_equal. apply upd_ext.
    intros x Hx. rewrite Hi in Hx. injection Hx as <-.
    unfold unallocated, freed_slot. proc_eq.
  - destruct Hfail as [Hz | ->]; [subst page; discriminate|].
    rewrite bind_setp, upd_set_nextpid, upd_upd. cbn [Z.eqb].
    erewrite bind_eq_ret; cycle 1.
    { apply freeproc_run. rewrite set_nextpid_procs. apply upd_lookup_eq, Hi. }
    cbv beta. unfold free_events. kred. rewrite Epage. cbn [Z.eqb app].
    rewrite upd_set_nextpid, upd_upd.
    rewrite bind_release; cycle 1.
    { erewrite holding_proc; cycle 1.
      { unfold logs. cbn [procs set_klog]. rewrite set_nextpid_procs.
        apply upd_lookup_eq, Hi. }
      reflexivity. }
    cbn [set_held]. rewrite upd_logs, upd_set_nextpid, upd_upd, !upd_nextpid.
    unfold ret. f_equal. f_equal. f_equal. apply upd_ext.
    intros x Hx. rewrite Hi in Hx. injection Hx as <-.
    unfold unallocated, freed_slot. proc_eq.
Qed.


(** X13.  [allocproc] called while no lock is held, both collaborators
    succeeding, takes the first UNUSED slot of the table and returns it
    with its lock held: the slot is USED, carries the pid that [nextpid]
    held (and [nextpid] has advanced by one), the trapframe page and the
    page table obtained, [Trace], [rtime] and [etime] zero, [ctime] the
    current tick, and the fields of the policy at their start values
    (FCFS: [start_time] the tick; PBS: static priority 60, never scheduled,
    both interval markers -1; MLFQ: level 0, enqueued at the tick).  It
    leaves every other field of the slot ([parent], [chan], [killed],
    [xstate], [sz], [name], the files) and every other slot as they
    were, and [pid_lock] free. *)
Theorem allocproc_sets_up_first_unused_slot page pt s i q :
  locks_free s -> pid_lock s = false ->
  first_slot (fun x => state x = UNUSED) s i q ->
  page <> 0 -> pt <> 0 ->
  exists s' q',
    allocproc page pt s = Ret (Some i) s' /\
    procs s' = <[i := q']> (procs s) /\
    nextpid s' = wrap32 (nextpid s + 1) /\
    pid_lock s' = false /\ wait_lock s' = wait_lock s /\ klog s' = klog s /\
    lock q' = true /\ state q' = USED /\ pid q' = nextpid s /\ Trace q' = 0 /\
    trapframe q' = page /\ pagetable q' = pt /\
    rtime q' = 0 /\ etime q' = 0 /\ ctime q' = ticks s /\
    (pol = FCFS -> start_time q' = wrap32 (ticks s)) /\
    (pol = PBS ->
     Static_priority q' = 60 /\ Times_scheduled q' = 0 /\
     start_time q' = wrap32 (ticks s) /\
     running_time q' = -1 /\ sleeping_time q' = -1) /\
    (pol = MLFQ ->
     priority_number q' = 0 /\ time_added q' = ticks s /\
     no_of_ticks q' = 0 /\ No_times q' = 0) /\
    parent q' = parent q /\ chan q' = chan q /\ killed q' = killed q /\
    xstate q' = xstate q /\ sz q' = sz q /\ name q' = name q /\
    ofile q' = ofile q /\ cwd q' = cwd q.
Proof.
  intros Hfree Hpl Hfirst Hpage Hpt. pose proof Hfirst as (Hi & _ & _).
  eexists. exists (allocated page pt (nextpid s) (ticks s) q).
  split; [apply (allocproc_ok page pt s i q); assumption|].
  split; [exact (upd_insert i _ s q Hi)|].
  split; [reflexivity|]. split; [exact Hpl|].
  split; [reflexivity|]. split; [reflexivity|].
  unfold allocated, policy_fields.
  destruct pol; repeat split; try reflexivity; try discriminate.
Qed.

(** X14.  [allocproc] called while no lock is held returns null in three
    cases.  With no UNUSED slot it leaves the kernel state as it was.  When
    [kalloc] gives no trapframe page, or [proc_pagetable] no page table,
    the first UNUSED slot (which has no page table of its own) is UNUSED
    again, unlocked, with pid, trapframe and page table zero; the trapframe
    page, if one was obtained, has been given back to [kfree]; but the pid
    has been used up: [nextpid] has advanced by one. *)
Theorem allocproc_failure_frees_the_slot page pt s :
  locks_free s -> pid_lock s = false ->
  ((forall i q, procs s !! i = Some q -> state q <> UNUSED) ->
   allocproc page pt s = Ret None s)
  /\
  (forall i q,
     first_slot (fun x => state x = UNUSED) s i q ->
     pagetable q = 0 -> page = 0 \/ pt = 0 ->
     exists s' q',
       allocproc page pt s = Ret None s' /\
       procs s' = <[i := q']> (procs s) /\
       state q' = UNUSED /\ lock q' = false /\ pid q' = 0 /\
       trapframe q' = 0 /\ pagetable q' = 0 /\
       klog s' = klog s ++ (if page =? 0 then [] else [EKfree page]) /\
       nextpid s' = wrap32 (nextpid s + 1) /\ pid_lock s' = false).
Proof.
  intros Hfree Hpl. split.
  - apply allocproc_full, Hfree.
  - intros i q Hfirst Hq0 Hfail. pose proof Hfirst as (Hi & _ & _).
    eexists. exists (unallocated q).
    split; [apply (allocproc_fails page pt s i q); assumption|].
    split.
    { unfold logs. cbn [procs set_klog]. rewrite set_nextpid_procs.
      exact (upd_insert i _ s q Hi). }
    split; [reflexivity|].
    split; [exact (Hfree i q Hi)|].
    repeat (split; [reflexivity|]). exact Hpl.
Qed.

(** ** [update_time] *)

Lemma update_time_body_run j q s :
  procs s !! j = Some q -> lock q = false ->
  update_time_body j tt s
  = Ret (inl tt)
      (upd j (fun x => if bool_decide (state x = RUNNING)
                       then set_rtime (wrapu32 (rtime x + 1)) x else x) s).
Proof.
  intros Hj Hl. unfold update_time_body. do 2 kstep.
  destruct (bool_decide (state q = RUNNING)) eqn:E; cbn [when].
  - kstep. rewrite upd_upd. kstep. rewrite upd_upd.
    unfold ret. f_equal. apply upd_ext.
    intros x Hx. rewrite Hj in Hx. injection Hx as <-. rewrite E. proc_eq.
  - kstep. kstep. rewrite upd_upd.
    unfold ret. f_equal. apply upd_ext.
    intros x Hx. rewrite Hj in Hx. injection Hx as <-. rewrite E. proc_eq.
Qed.

(** X15.  [update_time] called while no slot lock is held adds one tick to
    the [rtime] of every RUNNING slot (as an unsigned 32-bit value) and
    changes nothing else: no state, no other field, no other slot, and
    every lock is free again. *)
Theorem update_time_charges_running_slots s :
  locks_free s ->
  exists s',
    update_time s = Ret tt s' /\
    s' = set_procs (procs s') s /\
    length (procs s') = length (procs s) /\
    forall i q, procs s !! i = Some q ->
      (state q = RUNNING ->
       procs s' !! i = Some (set_rtime (wrapu32 (rtime q + 1)) q)) /\
      (state q <> RUNNING -> procs s' !! i = Some q).
Proof.
  intros Hfree.
  set (g := fun x => if bool_decide (state x = RUNNING)
                     then set_rtime (wrapu32 (rtime x + 1)) x else x).
  exists (set_procs (g <$> procs s) s).
  split.
  { unfold update_time. rewrite bind_get.
    erewrite bind_eq_ret; cycle 1.
    { rewrite <- (set_procs_id s) at 2.
      apply (for_loop_map update_time_body (fun _ => g)).
      - reflexivity.
      - intros j l' Hj Hlen Hlook.
        destruct (lookup_lt_NPROC s j) as [q Hq]; [lia|].
        rewrite (update_time_body_run j q).
        + reflexivity.
        + cbn [procs set_procs]. rewrite Hlook. exact Hq.
        + exact (Hfree j q Hq). }
    cbv beta. unfold ret. do 2 f_equal.
    apply list_eq. intros k. rewrite list_lookup_imap, list_lookup_fmap.
    destruct (procs s !! k); reflexivity. }
  split; [reflexivity|].
  split; [apply length_fmap|].
  intros i q Hq. cbn [procs set_procs]. rewrite list_lookup_fmap, Hq.
  cbn [fmap option_fmap option_map]. unfold g. split.
  - intros Hr. rewrite bool_decide_eq_true_2 by exact Hr. reflexivity.
  - intros Hr. rewrite bool_decide_eq_false_2 by exact Hr. reflexivity.
Qed.


(** ** [fork] *)

(** The child's file table after the first [n] descriptors of the parent's
    table [pf] have been looked at. *)
Fixpoint dup_upto (filedup : Z -> Z) (pf cf : list Z) (n : nat) : list Z :=
  match n with
  | O => cf
  | S n' =>
      match pf !! n' with
      | Some f =>
          if f =? 0 then dup_upto filedup pf cf n'
          else <[n' := filedup f]> (dup_upto filedup pf cf n')
      | None => dup_upto filedup pf cf n'
      end
  end.

Lemma dup_upto_length filedup pf cf n : length (dup_upto filedup pf cf n) = length cf.
Proof.
  induction n as [|n IH]; [reflexivity|]. cbn [dup_upto].
  destruct (pf !! n) as [f|]; [|exact IH].
  destruct (f =? 0); [exact IH|]. rewrite length_insert. exact IH.
Qed.

Lemma dup_upto_lookup filedup pf cf n fd f g :
  pf !! fd = Some f -> cf !! fd = Some g ->
  dup_upto filedup pf cf n !! fd
  = Some (if decide (fd < n)%nat then (if f =? 0 then g else filedup f) else g).
Proof.
  intros Hf Hg. induction n as [|n IH]; cbn [dup_upto].
  - rewrite decide_False by lia. exact Hg.
  - destruct (decide (fd = n)) as [->|Hne].
    + rewrite Hf. rewrite decide_True by lia.
      destruct (f =? 0) eqn:E.
      * rewrite IH. rewrite decide_False by lia. reflexivity.
      * rewrite list_lookup_insert_eq; [reflexivity|].
        rewrite dup_upto_length. eapply lookup_lt_Some, Hg.
    + assert (Hstep : forall l : list Z, (match pf !! n with
                                 | Some f0 => if f0 =? 0 then l else <[n := filedup f0]> l
                                 | None => l
                                 end) !! fd = l !! fd).
      { intros l. destruct (pf !! n) as [f0|]; [|reflexivity].
        destruct (f0 =? 0); [reflexivity|].
        apply list_lookup_insert_ne. congruence. }
      rewrite Hstep, IH.
      destruct (decide (fd < n)%nat), (decide (fd < S n)%nat); try reflexivity; lia.
Qed.

Lemma fork_files_body_run filedup p np q fd f g s :
  p <> np -> procs s !! p = Some q -> ofile q !! fd = Some f ->
  fork_files_body filedup p np fd tt
    (upd np (fun x => set_ofile (g (ofile x)) x) s)
  = Ret (inl tt)
      (upd np (fun x => set_ofile
                          (if f =? 0 then g (ofile x)
                           else <[fd := filedup f]> (g (ofile x))) x) s).
Proof.
  intros Hne Hp Hf. unfold fork_files_body.
  erewrite bind_getp by (rewrite upd_lookup_ne by congruence; exact Hp).
  rewrite Hf. destruct (f =? 0); cbn [negb when].
  - reflexivity.
  - rewrite bind_setp, upd_upd. reflexivity.
Qed.

Lemma fork_files_run filedup p np q s :
  p <> np -> procs s !! p = Some q ->
  for_loop (fork_files_body filedup p np) 0 (length (ofile q)) tt s
  = Ret (inl tt)
      (upd np (fun x => set_ofile
                          (dup_upto filedup (ofile q) (ofile x) (length (ofile q))) x) s).
Proof.
  intros Hne Hp.
  pose proof (for_loop_exact (fork_files_body filedup p np)
    (fun fd => (tt, upd np (fun x => set_ofile (dup_upto filedup (ofile q) (ofile x) fd) x) s))
    (length (ofile q)) 0) as H.
  cbn [fst snd] in H.
  replace (upd np (fun x => set_ofile (dup_upto filedup (ofile q) (ofile x) 0) x) s)
    with s in H.
  - apply H. intros fd Hfd.
    destruct (lookup_lt_is_Some_2 (ofile q) fd) as [f Hf]; [lia|].
    rewrite (fork_files_body_run filedup p np q fd f
               (fun l => dup_upto filedup (ofile q) l fd) s Hne Hp Hf).
    unfold ret. f_equal. apply upd_ext. intros x _.
    cbn [dup_upto]. rewrite Hf. reflexivity.
  - symmetry. apply upd_id. intros x _. cbn [dup_upto]. proc_eq.
Qed.


Lemma allocated_keeps page pt pid0 tk q :
  name (allocated page pt pid0 tk q) = name q /\
  ofile (allocated page pt pid0 tk q) = ofile q.
Proof. unfold allocated, policy_fields. destruct pol; split; reflexivity. Qed.

(** The child's slot when [fork] is done with it. *)
Definition forked (filedup idup : Z -> Z) (safestrcpy : list Z -> list Z -> list Z)
    (page pt pid0 tk : Z) (me : option nat) (q nq : proc) : proc :=
  set_lock false (set_state RUNNABLE (set_parent me
    (set_name (safestrcpy (name nq) (name q))
      (set_cwd (idup (cwd q))
        (set_ofile (dup_upto filedup (ofile q) (ofile nq) (length (ofile q)))
          (set_Trace (Trace q) (set_sz (sz q) (allocated page pt pid0 tk nq)))))))).

Lemma fork_prefix filedup idup safestrcpy page pt copied s p q i nq :
  locks_free s -> wait_lock s = false -> pid_lock s = false ->
  cpu_proc s = Some p -> procs s !! p = Some q -> state q <> UNUSED ->
  first_slot (fun x => state x = UNUSED) s i nq ->
  page <> 0 -> pt <> 0 -> 0 <= copied ->
  fork filedup idup safestrcpy page pt copied s
  = bind (match pol with
          | MLFQ =>
              q <- getp p ;;
              when (negb (priority_number q =? 0))
                (setp p (set_no_of_ticks 0) ;;; yield)
          | _ => ret tt
          end) (fun _ => ret (nextpid s))
      (upd i (forked filedup idup safestrcpy page pt (nextpid s) (ticks s) (Some p) q)
         (set_nextpid (wrap32 (nextpid s + 1)) s)).
Proof.
  intros Hfree Hw Hpl Hme Hp Hq Hfirst Hpage Hpt Hcopied.
  pose proof Hfirst as (Hi & Hu & _).
  assert (Hne : p <> i) by (intros ->; rewrite Hp in Hi; injection Hi as ->; contradiction).
  unfold fork. rewrite bind_myproc, Hme.
  erewrite bind_eq_ret by (apply (allocproc_ok page pt s i nq); assumption).
  cbv beta iota.
  set (s1 := set_nextpid (wrap32 (nextpid s + 1)) s).
  rewrite <- upd_set_nextpid. fold s1.
  assert (Hp1 : procs s1 !! p = Some q) by exact Hp.
  assert (Hi1 : procs s1 !! i = Some nq) by exact Hi.
  rewrite bind_deref by (rewrite upd_length; eapply lookup_lt_Some, Hp1).
  erewrite bind_getp by (rewrite upd_lookup_ne by congruence; exact Hp1).
  rewrite (proj2 (Z.ltb_ge _ _) Hcopied).
  rewrite !bind_setp, !upd_upd.
  erewrite bind_eq_ret; cycle 1.
  { apply (fork_files_run filedup p i q); [exact Hne|].
    rewrite upd_lookup_ne by congruence. exact Hp1. }
  cbv beta. rewrite upd_upd.
  erewrite bind_getp by (rewrite upd_lookup_ne by congruence; exact Hp1).
  rewrite !bind_setp, !upd_upd.
  erewrite bind_getp by exact (upd_lookup_eq i _ s1 nq Hi1).
  match goal with
  | |- context [ret (pid ?X)] =>
      replace (pid X) with (nextpid s)
        by (unfold allocated, policy_fields; destruct pol; reflexivity)
  end.
  match goal with
  | |- context [upd i ?F s1] => set (G := F)
  end.
  assert (HG : lock (G nq) = true)
    by (unfold G, allocated, policy_fields; destruct pol; reflexivity).
  rewrite bind_release
    by (erewrite holding_proc by exact (upd_lookup_eq i G s1 nq Hi1); exact HG).
  cbn [set_held]. rewrite upd_upd.
  rewrite bind_acquire by exact Hw.
  cbn [set_held]. rewrite bind_setp.
  rewrite (set_held_upd_comm WaitLock true i) by discriminate.
  rewrite upd_upd.
  rewrite bind_release by reflexivity.
  rewrite (set_held_upd_comm WaitLock false i) by discriminate.
  cbn [set_held]. rewrite set_wait_lock_roundtrip by exact Hw.
  rewrite bind_acquire
    by (erewrite holding_proc by exact (upd_lookup_eq i _ s1 nq Hi1); reflexivity).
  cbn [set_held]. rewrite upd_upd, bind_setp, upd_upd.
  rewrite bind_release
    by (erewrite holding_proc by exact (upd_lookup_eq i _ s1 nq Hi1); reflexivity).
  cbn [set_held]. rewrite upd_upd.
  f_equal. apply upd_ext. intros x Hx.
  unfold G, forked.
  pose proof (allocated_keeps page pt (nextpid s) (ticks s) x) as [Hn Ho].
  set (a := allocated page pt (nextpid s) (ticks s) x) in *.
  kred. rewrite Hn, Ho.
  generalize (set_name (safestrcpy (name x) (name q))
                (set_cwd (idup (cwd q))
                   (set_ofile (dup_upto filedup (ofile q) (ofile x) (length (ofile q)))
                      (set_Trace (Trace q) (set_sz (sz q) a))))).
  intros y. destruct y; reflexivity.
Qed.

Lemma forked_facts filedup idup safestrcpy page pt pid0 tk me q nq :
  let c := forked filedup idup safestrcpy page pt pid0 tk me q nq in
  lock c = false /\ state c = RUNNABLE /\ parent c = me /\ pid c = pid0 /\
  sz c = sz q /\ Trace c = Trace q /\ cwd c = idup (cwd q) /\
  name c = safestrcpy (name nq) (name q) /\
  ofile c = dup_upto filedup (ofile q) (ofile nq) (length (ofile q)) /\
  trapframe c = page /\ pagetable c = pt /\
  rtime c = 0 /\ etime c = 0 /\ ctime c = tk /\
  killed c = killed nq /\ xstate c = xstate nq /\ chan c = chan nq.
Proof.
  unfold forked, allocated, policy_fields.
  destruct pol; repeat split; reflexivity.
Qed.

(** X16.  [fork] called by the current process while no lock is held, on a
    table with an UNUSED slot, both allocations and the copy of the user
    memory succeeding (and, under MLFQ, the caller being at level 0),
    returns the pid that [nextpid] held.  The first UNUSED slot is the
    child: RUNNABLE, unlocked, with that pid, the caller as its parent, the
    caller's [sz] and [Trace], a duplicate of each open file of the caller
    (the other entries of its file table untouched), a duplicate of the
    caller's current directory and the caller's name; its accounting
    starts at the current tick.  No other slot has changed, the caller's
    included, and no lock is held. *)
Theorem fork_creates_a_runnable_child filedup idup safestrcpy page pt copied s p q i nq :
  locks_free s -> wait_lock s = false -> pid_lock s = false ->
  cpu_proc s = Some p -> procs s !! p = Some q -> state q <> UNUSED ->
  first_slot (fun x => state x = UNUSED) s i nq ->
  page <> 0 -> pt <> 0 -> 0 <= copied ->
  pol <> MLFQ \/ priority_number q = 0 ->
  exists s' c,
    fork filedup idup safestrcpy page pt copied s = Ret (nextpid s) s' /\
    procs s' = <[i := c]> (procs s) /\ i <> p /\
    pid c = nextpid s /\ parent c = Some p /\ state c = RUNNABLE /\
    sz c = sz q /\ Trace c = Trace q /\ cwd c = idup (cwd q) /\
    name c = safestrcpy (name nq) (name q) /\
    (forall fd f g, ofile q !! fd = Some f -> ofile nq !! fd = Some g ->
       ofile c !! fd = Some (if f =? 0 then g else filedup f)) /\
    trapframe c = page /\ pagetable c = pt /\
    rtime c = 0 /\ etime c = 0 /\ ctime c = ticks s /\
    locks_free s' /\ wait_lock s' = false /\ pid_lock s' = false /\
    nextpid s' = wrap32 (nextpid s + 1) /\ klog s' = klog s.
Proof.
  intros Hfree Hw Hpl Hme Hp Hq Hfirst Hpage Hpt Hcopied Hlevel.
  pose proof Hfirst as (Hi & Hu & _).
  assert (Hne : i <> p) by (intros ->; rewrite Hp in Hi; injection Hi as ->; contradiction).
  set (c := forked filedup idup safestrcpy page pt (nextpid s) (ticks s) (Some p) q nq).
  set (s1 := set_nextpid (wrap32 (nextpid s + 1)) s).
  destruct (forked_facts filedup idup safestrcpy page pt (nextpid s) (ticks s)
              (Some p) q nq)
    as (Hcl & Hcs & Hcp & Hcpid & Hcsz & Hctr & Hccwd & Hcname & Hcof & Hctf & Hcpt
        & Hcr & Hce & Hcc & _).
  fold c in Hcl, Hcs, Hcp, Hcpid, Hcsz, Hctr, Hccwd, Hcname, Hcof, Hctf, Hcpt, Hcr, Hce, Hcc.
  exists (upd i (forked filedup idup safestrcpy page pt (nextpid s) (ticks s) (Some p) q) s1), c.
  split.
  { rewrite (fork_prefix filedup idup safestrcpy page pt copied s p q i nq) by assumption.
    fold s1.
    destruct Hlevel as [Hpol|Hzero].
    - destruct pol; try reflexivity. contradiction.
    - destruct pol; try reflexivity.
      erewrite bind_eq_ret; [reflexivity|].
      erewrite bind_getp by (rewrite upd_lookup_ne by exact Hne; exact Hp).
      rewrite Hzero. reflexivity. }
  split; [exact (upd_insert i _ s1 nq Hi)|].
  split; [exact Hne|].
  split; [exact Hcpid|]. split; [exact Hcp|]. split; [exact Hcs|].
  split; [exact Hcsz|]. split; [exact Hctr|]. split; [exact Hccwd|].
  split; [exact Hcname|].
  split.
  { intros fd f g Hf Hg. rewrite Hcof.
    rewrite (dup_upto_lookup filedup (ofile q) (ofile nq) _ fd f g Hf Hg).
    rewrite decide_True by (eapply lookup_lt_Some, Hf). reflexivity. }
  split; [exact Hctf|]. split; [exact Hcpt|].
  split; [exact Hcr|]. split; [exact Hce|]. split; [exact Hcc|].
  split.
  { intros k x Hx. destruct (decide (k = i)) as [->|Hk].
    - rewrite (upd_lookup_eq i _ s1 nq Hi) in Hx. injection Hx as <-. exact Hcl.
    - rewrite upd_lookup_ne in Hx by congruence. exact (Hfree k x Hx). }
  split; [exact Hw|]. split; [exact Hpl|]. split; reflexivity.
Qed.

Lemma freed_slot_lock q : lock (freed_slot q) = lock q.
Proof. reflexivity. Qed.

Lemma allocated_facts page pt pid0 tk nq :
  lock (allocated page pt pid0 tk nq) = true /\
  trapframe (allocated page pt pid0 tk nq) = page /\
  pagetable (allocated page pt pid0 tk nq) = pt /\
  sz (allocated page pt pid0 tk nq) = sz nq.
Proof. unfold allocated, policy_fields. destruct pol; repeat split; reflexivity. Qed.

(** X17.  [fork] returns -1 when [allocproc] returns null (no UNUSED slot:
    the kernel state is untouched) and when the copy of the user memory
    fails.  In the second case the slot that had been allocated is given
    back: its trapframe page goes to [kfree] and its page table to
    [proc_freepagetable], and the slot is UNUSED again, unlocked, with no
    pid and no parent; the pid has been used up; the caller's slot and
    every other slot are as before. *)
Theorem fork_failure_gives_the_slot_back filedup idup safestrcpy page pt copied s p q :
  locks_free s -> wait_lock s = false -> pid_lock s = false ->
  cpu_proc s = Some p -> procs s !! p = Some q -> state q <> UNUSED ->
  ((forall i x, procs s !! i = Some x -> state x <> UNUSED) ->
   fork filedup idup safestrcpy page pt copied s = Ret (-1) s)
  /\
  (forall i nq,
     first_slot (fun x => state x = UNUSED) s i nq ->
     page <> 0 -> pt <> 0 -> copied < 0 ->
     exists s' c,
       fork filedup idup safestrcpy page pt copied s = Ret (-1) s' /\
       procs s' = <[i := c]> (procs s) /\ i <> p /\
       state c = UNUSED /\ lock c = false /\ pid c = 0 /\ parent c = None /\
       trapframe c = 0 /\ pagetable c = 0 /\ sz c = 0 /\
       klog s' = klog s ++ [EKfree page; EFreePagetable pt (sz nq)] /\
       nextpid s' = wrap32 (nextpid s + 1) /\
       wait_lock s' = false /\ pid_lock s' = false).
Proof.
  intros Hfree Hw Hpl Hme Hp Hq. split.
  - intros Hno. unfold fork. rewrite bind_myproc, Hme.
    erewrite bind_eq_ret by (apply allocproc_full; assumption).
    reflexivity.
  - intros i nq Hfirst Hpage Hpt Hcopied. pose proof Hfirst as (Hi & Hu & _).
    assert (Hne : i <> p)
      by (intros ->; rewrite Hp in Hi; injection Hi as ->; contradiction).
    destruct (allocated_facts page pt (nextpid s) (ticks s) nq)
      as (Hal & Htf & Hptb & Hsz).
    set (s1 := set_nextpid (wrap32 (nextpid s + 1)) s).
    assert (Hp1 : procs s1 !! p = Some q) by exact Hp.
    assert (Hi1 : procs s1 !! i = Some nq) by exact Hi.
    exists (logs [EKfree page; EFreePagetable pt (sz nq)]
              (upd i (fun x => set_lock false
                                 (freed_slot (allocated page pt (nextpid s) (ticks s) x)))
                 s1)).
    exists (set_lock false (freed_slot (allocated page pt (nextpid s) (ticks s) nq))).
    split.
    { unfold fork. rewrite bind_myproc, Hme.
      erewrite bind_eq_ret by (apply (allocproc_ok page pt s i nq); assumption).
      cbv beta iota. rewrite <- upd_set_nextpid. fold s1.
      rewrite bind_deref by (rewrite upd_length; eapply lookup_lt_Some, Hp1).
      erewrite bind_getp by (rewrite upd_lookup_ne by congruence; exact Hp1).
      rewrite (proj2 (Z.ltb_lt _ _) Hcopied).
      erewrite bind_eq_ret; cycle 1.
      { apply freeproc_run. exact (upd_lookup_eq i _ s1 nq Hi1). }
      cbv beta. unfold free_events. rewrite Htf, Hptb, Hsz.
      rewrite (proj2 (Z.eqb_neq _ _) Hpage), (proj2 (Z.eqb_neq _ _) Hpt).
      cbn [app]. rewrite upd_upd.
      rewrite bind_release; cycle 1.
      { erewrite holding_proc; cycle 1.
        { unfold logs. cbn [procs set_klog]. exact (upd_lookup_eq i _ s1 nq Hi1). }
        rewrite freed_slot_lock. exact Hal. }
      cbn [set_held]. rewrite upd_logs, upd_upd. reflexivity. }
    split.
    { unfold logs. cbn [procs set_klog]. exact (upd_insert i _ s1 nq Hi1). }
    split; [exact Hne|].
    repeat (split; [reflexivity|]).
    split; [exact Hw|exact Hpl].
Qed.

Lemma forked_child_free filedup idup safestrcpy page pt s p q i nq :
  locks_free s -> procs s !! i = Some nq ->
  locks_free (upd i (forked filedup idup safestrcpy page pt (nextpid s) (ticks s)
                       (Some p) q)
                (set_nextpid (wrap32 (nextpid s + 1)) s)).
Proof.
  intros Hfree Hi k x Hx. destruct (decide (k = i)) as [->|Hk].
  - rewrite (upd_lookup_eq i _ (set_nextpid (wrap32 (nextpid s + 1)) s) nq Hi) in Hx.
    injection Hx as <-. apply forked_facts.
  - rewrite upd_lookup_ne in Hx by congruence. exact (Hfree k x Hx).
Qed.

(** X18.  Under MLFQ a caller that is not at level 0 does not return from
    [fork] at once: with the child set up as in the other case, it clears
    its own [no_of_ticks] and yields, so that [fork] switches to the
    scheduler with the caller RUNNABLE under its own lock; when the caller
    is switched back to, [fork] releases that lock and returns the child's
    pid. *)
Theorem fork_yields_below_the_top_level filedup idup safestrcpy page pt copied s p q i nq :
  pol = MLFQ -> priority_number q <> 0 ->
  locks_free s -> wait_lock s = false -> pid_lock s = false ->
  cpu_proc s = Some p -> procs s !! p = Some q -> state q <> UNUSED ->
  first_slot (fun x => state x = UNUSED) s i nq ->
  page <> 0 -> pt <> 0 -> 0 <= copied ->
  exists s' kont c,
    fork filedup idup safestrcpy page pt copied s = Swtch s' kont /\
    procs s' = <[p := set_state RUNNABLE (set_lock true (set_no_of_ticks 0 q))]>
                 (<[i := c]> (procs s)) /\
    pid c = nextpid s /\ parent c = Some p /\ state c = RUNNABLE /\ lock c = false /\
    forall s'', holding (ProcLock p) s'' = true ->
      kont s'' = Ret (nextpid s) (upd p (set_lock false) (set_intena (intena s) s'')).
Proof.
  intros Hpol Hlevel Hfree Hw Hpl Hme Hp Hq Hfirst Hpage Hpt Hcopied.
  pose proof Hfirst as (Hi & Hu & _).
  assert (Hne : i <> p)
    by (intros ->; rewrite Hp in Hi; injection Hi as ->; contradiction).
  set (F := forked filedup idup safestrcpy page pt (nextpid s) (ticks s) (Some p) q).
  set (s1 := set_nextpid (wrap32 (nextpid s + 1)) s).
  pose proof (forked_child_free filedup idup safestrcpy page pt s p q i nq Hfree Hi)
    as Hfree2.
  fold F s1 in Hfree2.
  assert (Hp2 : procs (upd i F s1) !! p = Some q)
    by (rewrite upd_lookup_ne by exact Hne; exact Hp).
  destruct (forked_facts filedup idup safestrcpy page pt (nextpid s) (ticks s)
              (Some p) q nq) as (Hcl & Hcs & Hcp & Hcpid & _).
  fold F in Hcl, Hcs, Hcp, Hcpid.
  eexists. eexists. exists (F nq).
  split.
  { rewrite (fork_prefix filedup idup safestrcpy page pt copied s p q i nq) by assumption.
    fold F s1. rewrite Hpol.
    erewrite bind_eq_swtch; [reflexivity|].
    erewrite bind_getp by exact Hp2.
    rewrite (proj2 (Z.eqb_neq _ _) Hlevel). cbn [negb when].
    rewrite bind_setp.
    apply (yield_run _ p (set_no_of_ticks 0 q)).
    - exact Hme.
    - exact (upd_lookup_eq p _ _ q Hp2).
    - intros k x Hx. destruct (decide (k = p)) as [->|Hk].
      + rewrite (upd_lookup_eq p _ _ q Hp2) in Hx. injection Hx as <-.
        exact (Hfree p q Hp).
      + rewrite upd_lookup_ne in Hx by congruence. exact (Hfree2 k x Hx).
    - exact Hw.
    - exact Hpl. }
  split.
  { rewrite upd_upd. rewrite (upd_insert p _ _ q Hp2).
    rewrite (upd_insert i _ s1 nq Hi). reflexivity. }
  split; [exact Hcpid|]. split; [exact Hcp|]. split; [exact Hcs|]. split; [exact Hcl|].
  intros s'' Hheld. cbn [run_bind].
  unfold bind. rewrite release_run; [reflexivity|].
  destruct (procs s'' !! p) as [x|] eqn:Ex.
  - cbn [holding] in Hheld |- *. cbn [procs set_intena]. rewrite Ex in Hheld |- *.
    exact Hheld.
  - cbn [holding] in Hheld. rewrite Ex in Hheld. discriminate.
Qed.


(** ** Dynamic priority along the life of a process (PBS) *)

Lemma PSBPriority_fresh q :
  fresh q -> 0 <= Static_priority q <= 100 -> PSBPriority q = Some (Static_priority q).
Proof.
  intros [Hs Hr] Hsp. unfold PSBPriority, niceness.
  rewrite bool_decide_eq_true_2 by (split; assumption).
  rewrite wrap32_add_l, wrap32_id by (unfold is_int; lia).
  replace (Static_priority q - 5 + 5) with (Static_priority q) by lia.
  destruct (Static_priority q >? 100) eqn:E1.
  - apply Z.gtb_lt in E1. lia.
  - destruct (Static_priority q <? 0) eqn:E2; [|reflexivity].
    apply Z.ltb_lt in E2. lia.
Qed.

Lemma PSBPriority_set_state st q : PSBPriority (set_state st q) = PSBPriority q.
Proof. reflexivity. Qed.

(** X19.  Under PBS a process whose interval markers are fresh runs at its
    static priority: the slot that [allocproc] hands out has the dynamic
    priority 60, and after [set_priority_i(priority, pid)] has found its
    target the target's dynamic priority is [priority], in the state in
    which the call returns as well as in the state in which it yields. *)
Theorem fresh_process_has_its_static_priority s :
  pol = PBS -> locks_free s ->
  (forall page pt i q,
     pid_lock s = false -> first_slot (fun x => state x = UNUSED) s i q ->
     page <> 0 -> pt <> 0 ->
     exists s' q',
       allocproc page pt s = Ret (Some i) s' /\
       procs s' !! i = Some q' /\ PSBPriority q' = Some 60)
  /\
  (forall priority pid0 i q,
     0 <= priority <= 100 -> pid0 <> -1 -> first_slot (eligible pid0) s i q ->
     (priority <= Static_priority q ->
      exists s' q',
        set_priority_i priority pid0 s = Ret (Static_priority q) s' /\
        procs s' !! i = Some q' /\ PSBPriority q' = Some priority)
     /\
     (Static_priority q < priority ->
      forall me, cpu_proc s = Some me -> (me < NPROC s)%nat ->
      wait_lock s = false -> pid_lock s = false ->
      exists s' kont q',
        set_priority_i priority pid0 s = Swtch s' kont /\
        procs s' !! i = Some q' /\ PSBPriority q' = Some priority)).
Proof.
  intros Hpol Hfree. split.
  - intros page pt i q Hpl Hfirst Hpage Hpt. pose proof Hfirst as (Hi & _ & _).
    eexists. exists (allocated page pt (nextpid s) (ticks s) q).
    split; [apply (allocproc_ok page pt s i q); assumption|].
    split; [exact (upd_lookup_eq i _ (set_nextpid _ s) q Hi)|].
    unfold allocated, policy_fields. rewrite Hpol.
    apply PSBPriority_fresh; [split; reflexivity|cbn; lia].
  - intros priority pid0 i q Hr Hpid Hfirst. pose proof Hfirst as (Hi & _ & _).
    pose proof (set_priority_found_prefix priority pid0 s i q Hpol Hr Hpid Hfree Hfirst)
      as Hrun.
    set (s1 := upd i (reprioritized priority) s) in *.
    assert (Hi1 : procs s1 !! i = Some (reprioritized priority q))
      by exact (upd_lookup_eq i _ s q Hi).
    assert (Hprio : PSBPriority (reprioritized priority q) = Some priority).
    { unfold reprioritized.
      rewrite PSBPriority_fresh; [reflexivity|split; reflexivity|cbn; lia]. }
    split.
    + intros Hle. exists s1, (reprioritized priority q).
      split; [|split; [exact Hi1|exact Hprio]].
      rewrite Hrun.
      replace (priority >? Static_priority q) with false
        by (symmetry; rewrite Z.gtb_ltb; apply Z.ltb_ge; exact Hle).
      reflexivity.
    + intros Hlt me Hme Hlen Hw Hpl.
      assert (Hfree1 : locks_free s1).
      { intros k y Hk. unfold s1 in Hk.
        destruct (decide (i = k)) as [<-|Hne].
        - erewrite upd_lookup_eq in Hk by exact Hi. injection Hk as <-.
          cbn. eapply Hfree, Hi.
        - rewrite upd_lookup_ne in Hk by done. eapply Hfree, Hk. }
      destruct (lookup_lt_NPROC s1 me) as [mq Hmq];
        [unfold s1; rewrite upd_length; exact Hlen|].
      destruct (decide (i = me)) as [->|Hne].
      * eexists. eexists. exists (set_state RUNNABLE (set_lock true (reprioritized priority q))).
        split.
        { rewrite Hrun.
          replace (priority >? Static_priority q) with true
            by (symmetry; rewrite Z.gtb_ltb; apply Z.ltb_lt; exact Hlt).
          cbn [when]. apply bind_eq_swtch.
          apply (yield_run s1 me mq); assumption. }
        split; [exact (upd_lookup_eq me _ s1 _ Hi1)|].
        rewrite PSBPriority_set_state, PSBPriority_set_lock. exact Hprio.
      * eexists. eexists. exists (reprioritized priority q).
        split.
        { rewrite Hrun.
          replace (priority >? Static_priority q) with true
            by (symmetry; rewrite Z.gtb_ltb; apply Z.ltb_lt; exact Hlt).
          cbn [when]. apply bind_eq_swtch.
          apply (yield_run s1 me mq); assumption. }
        split; [rewrite upd_lookup_ne by congruence; exact Hi1|exact Hprio].
Qed.

(** X20.  Under PBS the niceness of a process that was dispatched at tick
    [t0], went to sleep at tick [t1] and was woken up at tick [t2] is ten
    times the share of that interval it spent asleep,
    [(t2 - t1) * 10 / (t2 - t0)] (rounded down), its markers being
    [running_time = t1 - t0] and [sleeping_time = t2 - t1]; while it runs
    (markers [running_time = t0], [sleeping_time = 0]) its niceness is 0.
    The division has a zero divisor when the three ticks are the same one,
    and for a running process that was dispatched at tick 0. *)
Theorem niceness_is_the_share_of_time_slept c t0 t1 t2 q :
  pol = PBS -> 0 <= t0 -> t0 <= t1 -> t1 <= t2 -> t2 < 2 ^ 27 ->
  let running := pbs_dispatch t0 q in
  let woken := wake_one c t2 (asleep c t1 running) in
  running_time running = t0 /\ sleeping_time running = 0 /\
  (0 < t0 -> niceness running = Some 0) /\
  (t0 = 0 -> niceness running = None) /\
  state woken = RUNNABLE /\
  running_time woken = t1 - t0 /\ sleeping_time woken = t2 - t1 /\
  (t0 < t2 -> niceness woken = Some ((t2 - t1) * 10 / (t2 - t0))) /\
  (t0 = t2 -> niceness woken = None).
Proof.
  intros Hpol H0 H1 H2 Hmax. cbv zeta.
  assert (Hb : 2 ^ 27 = 134217728) by reflexivity.
  assert (Hw : forall x, - 2 ^ 31 <= x < 2 ^ 31 -> wrap32 x = x)
    by (intros x Hx; apply wrap32_id; exact Hx).
  assert (Hb31 : 2 ^ 31 = 2147483648) by reflexivity.
  assert (Hrun : running_time (pbs_dispatch t0 q) = t0)
    by (unfold pbs_dispatch; cbn; apply Hw; lia).
  assert (Hsl : sleeping_time (pbs_dispatch t0 q) = 0) by reflexivity.
  assert (Has : asleep c t1 (pbs_dispatch t0 q)
                = set_sleeping_time t1 (set_running_time (t1 - t0)
                    (set_state SLEEPING (set_chan c (set_lock true (pbs_dispatch t0 q)))))).
  { unfold asleep. rewrite Hpol, Hrun. rewrite !Hw by lia. reflexivity. }
  assert (Hwk : wake_one c t2 (asleep c t1 (pbs_dispatch t0 q))
                = set_sleeping_time (t2 - t1) (set_state RUNNABLE
                    (asleep c t1 (pbs_dispatch t0 q)))).
  { unfold wake_one. rewrite Has. cbn [state chan set_sleeping_time set_running_time
      set_state set_chan].
    rewrite bool_decide_eq_true_2 by (split; reflexivity).
    rewrite Hpol. cbn [sleeping_time set_sleeping_time]. rewrite Hw by lia. reflexivity. }
  split; [exact Hrun|]. split; [exact Hsl|].
  split.
  { intros Hpos. unfold niceness. rewrite Hrun, Hsl.
    rewrite bool_decide_eq_false_2 by (intros [? _]; discriminate).
    unfold int_div. cbn [Z.mul]. rewrite !Hw by lia.
    rewrite Z.add_0_r, (proj2 (Z.eqb_neq _ _)) by lia.
    rewrite Z.quot_0_l by lia. reflexivity. }
  split.
  { intros ->. unfold niceness. rewrite Hrun, Hsl.
    rewrite bool_decide_eq_false_2 by (intros [? _]; discriminate).
    reflexivity. }
  rewrite Hwk, Has.
  split; [reflexivity|]. split; [reflexivity|]. split; [reflexivity|].
  unfold niceness.
  cbn [sleeping_time running_time set_sleeping_time set_running_time set_state
       set_chan set_lock].
  rewrite bool_decide_eq_false_2 by (intros [? ?]; lia).
  unfold int_div. rewrite (Hw ((t2 - t1) * 10)), (Hw (t1 - t0 + (t2 - t1))) by lia.
  replace (t1 - t0 + (t2 - t1)) with (t2 - t0) by lia.
  split.
  - intros Hlt. rewrite (proj2 (Z.eqb_neq _ _)) by lia.
    rewrite Z.quot_div_nonneg by lia.
    rewrite Hw; [reflexivity|].
    assert (0 <= (t2 - t1) * 10 / (t2 - t0) <= (t2 - t1) * 10).
    { split; [apply Z.div_pos; lia|].
      apply Z.div_le_upper_bound; [lia|]. nia. }
    lia.
  - intros ->. rewrite Z.sub_diag. reflexivity.
Qed.


(** ** [exit] of a child and [wait] of its parent *)

Lemma wake_one_keeps c tk x :
  lock (wake_one c tk x) = lock x /\ parent (wake_one c tk x) = parent x /\
  pagetable (wake_one c tk x) = pagetable x /\
  (state (wake_one c tk x) = ZOMBIE -> state x = ZOMBIE).
Proof.
  unfold wake_one. destruct (bool_decide _); [|repeat split; auto].
  destruct pol; repeat split; try reflexivity; cbn; discriminate.
Qed.

Lemma wake_at_keeps c me tk k x :
  lock (wake_at c me tk k x) = lock x /\ parent (wake_at c me tk k x) = parent x /\
  pagetable (wake_at c me tk k x) = pagetable x /\
  (state (wake_at c me tk k x) = ZOMBIE -> state x = ZOMBIE).
Proof.
  unfold wake_at. destruct (decide _); [repeat split; auto|apply wake_one_keeps].
Qed.

Lemma wake_if_at_keeps b c me tk k x :
  lock (wake_if_at b c me tk k x) = lock x /\
  parent (wake_if_at b c me tk k x) = parent x /\
  pagetable (wake_if_at b c me tk k x) = pagetable x /\
  (state (wake_if_at b c me tk k x) = ZOMBIE -> state x = ZOMBIE).
Proof.
  unfold wake_if_at. destruct b; [apply wake_at_keeps|repeat split; auto].
Qed.

Lemma reparented_keeps p init x :
  lock (reparented p init x) = lock x /\
  pagetable (reparented p init x) = pagetable x.
Proof. unfold reparented. destruct (decide _); split; reflexivity. Qed.

(** What [exit] leaves of a slot other than the caller's. *)
Definition after_exit (p : nat) (q : proc) (s : kstate) (k : nat) (x : proc) : proc :=
  wake_at (chan_of (parent (reparented (Some p) (initproc s) q))) (Some p)
    (ticks s) k
    (wake_if_at (0 <? nchildren p s)%nat (chan_of (initproc s)) (Some p)
       (ticks s) k (reparented (Some p) (initproc s) x)).

Lemma after_exit_keeps p q s k x :
  lock (after_exit p q s k x) = lock x /\
  pagetable (after_exit p q s k x) = pagetable x /\
  (state (after_exit p q s k x) = ZOMBIE -> state x = ZOMBIE) /\
  (parent x <> Some p -> parent (after_exit p q s k x) = parent x).
Proof.
  unfold after_exit.
  match goal with
  | |- context [wake_at ?c ?me ?tk k (wake_if_at ?b ?c2 ?me ?tk k ?y)] =>
      destruct (wake_at_keeps c me tk k (wake_if_at b c2 me tk k y)) as (A1 & A2 & A3 & A4);
      destruct (wake_if_at_keeps b c2 me tk k y) as (B1 & B2 & B3 & B4)
  end.
  destruct (reparented_keeps (Some p) (initproc s) x) as (C1 & C3).
  split; [rewrite A1, B1, C1; reflexivity|].
  split; [rewrite A3, B3, C3; reflexivity|].
  split.
  - intros H. apply A4, B4 in H. rewrite reparented_state in H. exact H.
  - intros H. rewrite A2, B2, reparented_other by exact H. reflexivity.
Qed.

(** The caller's own slot when [exit] switches away. *)
Definition exited (status tk : Z) (q : proc) : proc :=
  set_etime tk (set_state ZOMBIE (set_xstate status (set_lock true
    (set_cwd 0 (set_ofile (zero_upto (length (ofile q)) (ofile q)) q))))).

Lemma exit_post_lookup_self_exact status p q s :
  cpu_proc s = Some p -> procs s !! p = Some q -> parent q <> Some p ->
  procs (exit_post status p q s) !! p = Some (exited status (ticks s) q).
Proof.
  intros Hme Hp Hpar. rewrite exit_post_unfold, set_wait_lock_procs.
  assert (procs (wakeup_post
            (chan_of (parent (reparented (Some p) (initproc s) q)))
            (reparent_post (Some p) (set_wait_lock true (exit_files p q s)))) !! p
          = Some (set_cwd 0 (set_ofile (zero_upto (length (ofile q)) (ofile q)) q)))
    as Hx.
  { rewrite wakeup_post_lookup, reparent_post_lookup, set_wait_lock_procs.
    rewrite (exit_files_lookup _ _ _ _ Hp). rewrite decide_True by reflexivity.
    rewrite reparent_post_cpu_proc, set_wait_lock_cpu_proc, exit_files_cpu_proc, Hme.
    cbn [fmap option_fmap option_map]. f_equal.
    unfold wake_at. rewrite decide_True by reflexivity.
    unfold wake_if_at, wake_at. rewrite decide_True by reflexivity.
    rewrite reparented_other by exact Hpar.
    destruct (0 <? _)%nat; reflexivity. }
  unfold exited. do 4 (eapply upd_lookup_eq). exact Hx.
Qed.


(** X21.  A child [c] calls [exit(status)] while its parent [pp] sleeps in
    [wait] (SLEEPING on the address of its own slot), no slot of the table
    being a ZOMBIE child of either.  [exit] switches to the scheduler with
    the parent RUNNABLE.  The scheduler then releases the child's lock and
    dispatches the parent ([d] is what it does to the parent's slot: the
    slot is RUNNING, its page table the same); the parent clears its
    channel, releases its lock and goes on in [wait].  That
    [wait] returns the child's pid in its first turn: the status has been
    copied out through the parent's page table (when an address was given
    and the copy succeeds) and the child's slot is UNUSED again, its pid and
    parent link cleared, its trapframe and page table given back. *)
Theorem exit_hands_its_status_to_the_waiting_parent
    status fuel addr (d : proc -> proc) iw s c cq pp pq :
  cpu_proc s = Some c -> procs s !! c = Some cq -> initproc s <> Some c ->
  locks_free s -> wait_lock s = false -> pid_lock s = false ->
  parent cq = Some pp -> pp <> c -> procs s !! pp = Some pq ->
  state pq = SLEEPING -> chan pq = CProc pp ->
  (forall j x, procs s !! j = Some x -> state x = ZOMBIE ->
     parent x <> Some pp /\ parent x <> Some c) ->
  (forall x, state (d x) = RUNNING /\ pagetable (d x) = pagetable x) ->
  addr = 0 \/ 0 <= copyout (pagetable pq) addr status ->
  exists s1 kont,
    exit status s = Swtch s1 kont /\
    (exists y, procs s1 !! pp = Some y /\ state y = RUNNABLE) /\
    exists s4,
      wait (S fuel) addr
        (upd pp (fun x => set_lock false (set_chan CNull x))
           (set_intena iw
              (set_cpu_proc (Some pp) (upd pp d (upd c (set_lock false) s1)))))
      = Ret (pid cq) s4 /\
      (exists y, procs s4 !! c = Some y /\
         state y = UNUSED /\ pid y = 0 /\ parent y = None /\
         trapframe y = 0 /\ pagetable y = 0) /\
      klog s4 = klog s1
                ++ (if addr =? 0 then []
                    else [ECopyout (pagetable pq) addr status])
                ++ free_events cq.
Proof.
  intros Hme Hc Hinit Hfree Hw Hpl Hpar Hne Hpp Hsl Hch Hnoz Hd Hcopy.
  assert (Hself : parent cq <> Some c) by (rewrite Hpar; congruence).
  exists (exit_post status c cq s),
         (fun s' => Stop (PanicMsg "zombie exit") (set_intena (intena s) s')).
  split; [apply exit_run; assumption|].
  assert (L1 : forall j x, j <> c -> procs s !! j = Some x ->
            procs (exit_post status c cq s) !! j = Some (after_exit c cq s j x)).
  { intros j x Hj Hx. rewrite (exit_post_lookup_other _ _ _ _ _ Hme Hc Hj), Hx.
    reflexivity. }
  assert (L0 : forall j, j <> c -> procs s !! j = None ->
            procs (exit_post status c cq s) !! j = None).
  { intros j Hj Hx. rewrite (exit_post_lookup_other _ _ _ _ _ Hme Hc Hj), Hx.
    reflexivity. }
  pose proof (exit_post_lookup_self_exact status c cq s Hme Hc Hself) as L2.
  assert (Hw1 : wait_lock (exit_post status c cq s) = false).
  { rewrite exit_post_unfold. reflexivity. }
  generalize dependent (exit_post status c cq s). intros s1 L1 L0 L2 Hw1.
  set (zq := set_lock false (exited status (ticks s) cq)).
  set (pq3 := set_lock false (set_chan CNull (d (after_exit c cq s pp pq)))).
  set (s3 := upd pp (fun x => set_lock false (set_chan CNull x))
               (set_intena iw
                  (set_cpu_proc (Some pp) (upd pp d (upd c (set_lock false) s1))))).
  assert (Hcpu3 : cpu_proc s3 = Some pp) by reflexivity.
  assert (Hw3 : wait_lock s3 = false) by exact Hw1.
  assert (Hk3 : klog s3 = klog s1) by reflexivity.
  assert (Lp : procs s3 !! pp = Some pq3).
  { unfold s3, pq3.
    apply (upd_lookup_eq pp (fun x => set_lock false (set_chan CNull x))).
    cbn [procs set_intena set_cpu_proc].
    apply (upd_lookup_eq pp d (upd c (set_lock false) s1)).
    rewrite upd_lookup_ne by congruence. apply L1; [exact Hne|exact Hpp]. }
  assert (Lc : procs s3 !! c = Some zq).
  { unfold s3. rewrite upd_lookup_ne by exact Hne. cbn [procs set_intena set_cpu_proc].
    rewrite upd_lookup_ne by exact Hne. apply upd_lookup_eq. exact L2. }
  assert (Lo : forall j y, j <> pp -> j <> c -> procs s3 !! j = Some y ->
            exists x, procs s !! j = Some x /\ y = after_exit c cq s j x).
  { intros j y H1 H2 Hy. unfold s3 in Hy. rewrite upd_lookup_ne in Hy by congruence.
    cbn [procs set_intena set_cpu_proc] in Hy.
    rewrite !upd_lookup_ne in Hy by congruence.
    destruct (procs s !! j) as [x|] eqn:Ex.
    - rewrite (L1 j x H2 Ex) in Hy. injection Hy as <-. eauto.
    - rewrite (L0 j H2 Ex) in Hy. discriminate. }
  clearbody s3.
  split.
  { eexists. split; [apply L1; [exact Hne|exact Hpp]|].
    unfold after_exit. apply wake_twice_runnable.
    - congruence.
    - rewrite reparented_state. exact Hsl.
    - left. rewrite reparented_chan, (reparented_other _ _ cq) by exact Hself.
      rewrite Hpar. exact Hch. }
  set (evs := if addr =? 0 then [] else [ECopyout (pagetable pq) addr status]).
  exists (reaped c zq evs s3).
  split; [|split].
  - change (pid cq) with (pid zq). apply wait_reaps.
    + intros j y Hy. destruct (decide (j = pp)) as [->|H1].
      { rewrite Lp in Hy. injection Hy as <-. reflexivity. }
      destruct (decide (j = c)) as [->|H2].
      { rewrite Lc in Hy. injection Hy as <-. reflexivity. }
      destruct (Lo j y H1 H2 Hy) as (x & Hx & ->).
      destruct (after_exit_keeps c cq s j x) as (A & _). rewrite A.
      apply (Hfree j x Hx).
    + exact Hw3.
    + rewrite Hcpu3. split; [exact Lc|]. split.
      * split; [exact Hpar|reflexivity].
      * intros j y Hj Hy [Hyp Hys].
        destruct (decide (j = pp)) as [->|H1].
        { rewrite Lp in Hy. injection Hy as <-. unfold pq3 in Hys.
          cbn [state set_lock set_chan] in Hys.
          destruct (Hd (after_exit c cq s pp pq)) as [Hr _]. congruence. }
        destruct (Lo j y H1 ltac:(lia) Hy) as (x & Hx & ->).
        destruct (after_exit_keeps c cq s j x) as (_ & _ & B & C).
        specialize (B Hys). destruct (Hnoz j x Hx B) as [N1 N2].
        rewrite (C N2) in Hyp. contradiction.
    + rewrite Hcpu3. unfold copy_outcome, evs.
      destruct (addr =? 0) eqn:Ea; [reflexivity|].
      rewrite Lp.
      replace (pagetable pq3) with (pagetable pq); cycle 1.
      { unfold pq3. cbn [pagetable set_lock set_chan].
        destruct (Hd (after_exit c cq s pp pq)) as [_ ->].
        destruct (after_exit_keeps c cq s pp pq) as (_ & -> & _). reflexivity. }
      change (xstate zq) with status.
      destruct Hcopy as [->|Hok]; [discriminate|].
      destruct (Z.ltb_spec (copyout (pagetable pq) addr status) 0); [lia|reflexivity].
  - exists (freed_slot zq). split; [|repeat split; reflexivity].
    unfold reaped, logs. cbn [procs set_klog]. apply upd_lookup_eq, Lc.
  - unfold reaped, logs. cbn [klog set_klog]. rewrite upd_klog, Hk3.
    replace (free_events zq) with (free_events cq) by reflexivity.
    rewrite app_assoc. reflexivity.
Qed.


(** ** Process identifiers *)

(** Every pid of the table was handed out before [nextpid]. *)
Definition pids_below (s : kstate) : Prop :=
  forall i q, procs s !! i = Some q -> pid q < nextpid s.

Lemma allocated_pid page pt pid0 tk q : pid (allocated page pt pid0 tk q) = pid0.
Proof. unfold allocated, policy_fields. destruct pol; reflexivity. Qed.

(** X22.  As long as the counter [nextpid] has not reached the largest
    [int] and lies above every pid of the table, the pid that [allocproc]
    gives to the slot it sets up is carried by no other slot, and the
    counter lies above every pid of the table again. *)
Theorem allocproc_gives_a_fresh_pid page pt s i q :
  locks_free s -> pid_lock s = false ->
  first_slot (fun x => state x = UNUSED) s i q ->
  page <> 0 -> pt <> 0 ->
  pids_below s -> - 2 ^ 31 <= nextpid s < 2 ^ 31 - 1 ->
  exists s' q',
    allocproc page pt s = Ret (Some i) s' /\
    procs s' !! i = Some q' /\ pid q' = nextpid s /\
    (forall j x, j <> i -> procs s' !! j = Some x -> pid x <> nextpid s) /\
    nextpid s' = nextpid s + 1 /\
    pids_below s'.
Proof.
  intros Hfree Hpl Hfirst Hpage Hpt Hbelow Hrange.
  pose proof Hfirst as (Hi & _ & _).
  assert (Hn : wrap32 (nextpid s + 1) = nextpid s + 1).
  { apply wrap32_id. unfold is_int. lia. }
  exists (set_nextpid (wrap32 (nextpid s + 1))
            (upd i (allocated page pt (nextpid s) (ticks s)) s)),
         (allocated page pt (nextpid s) (ticks s) q).
  split; [apply (allocproc_ok page pt s i q); assumption|].
  rewrite set_nextpid_procs.
  split; [apply upd_lookup_eq, Hi|].
  split; [apply allocated_pid|].
  split.
  { intros j x Hj Hx. rewrite upd_lookup_ne in Hx by congruence.
    specialize (Hbelow j x Hx). lia. }
  split; [exact Hn|].
  intros j x Hx. rewrite set_nextpid_procs in Hx.
  cbn [nextpid set_nextpid]. rewrite Hn.
  destruct (decide (j = i)) as [->|Hj].
  - rewrite (upd_lookup_eq i _ s q Hi) in Hx. injection Hx as <-.
    rewrite allocated_pid. lia.
  - rewrite upd_lookup_ne in Hx by congruence. specialize (Hbelow j x Hx). lia.
Qed.

End Kernel.

(** * Worked examples

    A small table: init sleeps in [wait]; the current process (pid 2) has a
    ZOMBIE child, a SLEEPING child and a RUNNABLE child; the last slot is
    free. *)

Definition blank : proc :=
  mkProc false UNUSED CNull 0 0 0 None 0 0 0 [0; 0] 0 [0; 0; 0; 0] 0 0 0 0
    0 60 0 (-1) (-1) 0 0 0 0.

Definition slot (st : procstate) (pid0 : Z) (par : option nat) (c : chan_t) : proc :=
  set_state st (set_pid pid0 (set_parent par (set_chan c
    (set_sz 4096 (set_pagetable (65536 + pid0) (set_trapframe (131072 + pid0)
      (set_name [105; 110; 0; 0] blank))))))).

Definition ex_procs : list proc :=
  [ slot SLEEPING 1 None (CProc 0);
    set_ofile [7; 0] (set_cwd 3 (slot RUNNING 2 (Some 0%nat) CNull));
    set_xstate 7 (slot ZOMBIE 3 (Some 1%nat) CNull);
    slot SLEEPING 4 (Some 1%nat) (CAddr 99);
    slot RUNNABLE 5 (Some 1%nat) CNull;
    blank ].

Definition ex_table : kstate :=
  mkKstate ex_procs (Some 0%nat) 6 100 false false (Some 1%nat) false false [].

(** The same table, the current process having been killed. *)
Definition ex_killed : kstate :=
  upd 1 (set_killed 1) ex_table.

(** Collaborators: a [copyout] that succeeds and one that fails. *)
Definition copyout_ok (pt dst val : Z) : Z := 0.
Definition copyout_bad (pt dst val : Z) : Z := -1.

(** Three RUNNABLE processes enqueued at ticks 5, 3 and 9, no lock held, no
    current process. *)
Definition ex_fcfs : kstate :=
  mkKstate
    [ set_start_time 5 (slot RUNNABLE 1 None CNull);
      set_start_time 3 (slot RUNNABLE 2 (Some 0%nat) CNull);
      set_start_time 9 (slot RUNNABLE 3 (Some 0%nat) CNull) ]
    (Some 0%nat) 4 20 false false None false false [].

Lemma locks_free_Forall s : Forall (fun q => lock q = false) (procs s) -> locks_free s.
Proof. intros H i q Hi. eapply Forall_lookup_1 in H; eauto. Defined.

Ltac ex_free := apply locks_free_Forall; repeat constructor.

(** Settles [first_slot] on a concrete table. *)
Ltac ex_first :=
  split; [reflexivity|]; split;
  [ vm_compute; repeat split; congruence
  | let j := fresh "j" in let q' := fresh "q" in let Hj := fresh in let Hq := fresh in
    intros j q' Hj Hq;
    repeat (destruct j as [|j]; [vm_compute in Hq; injection Hq as <-; vm_compute;
                                 intuition congruence|]);
    exfalso; lia ].

Lemma wait_returns_or_reaps_witness :
  locks_free ex_table /\ wait_lock ex_table = false /\
  exists s',
    wait DEFAULT copyout_ok 1 0 ex_table = Ret 3 s' /\
    procs s' !! 2%nat = Some (set_name [0; 110; 0; 0] blank) /\
    klog s' = [EKfree 131075; EFreePagetable 65539 4096].
Proof.
  assert (Hfree : locks_free ex_table) by ex_free.
  split; [exact Hfree|]. split; [reflexivity|].
  destruct (wait_returns_or_reaps DEFAULT copyout_ok 0 0 ex_table Hfree eq_refl)
    as (_ & _ & H).
  destruct (H 2%nat (set_xstate 7 (slot ZOMBIE 3 (Some 1%nat) CNull)) [])
    as (s' & Hrun & Hprocs & Hlog & _).
  - ex_first.
  - reflexivity.
  - exists s'. split; [exact Hrun|]. rewrite Hprocs, Hlog. split; reflexivity.
Defined.

(** The claim C1 as it is worded fails: the caller has been killed, yet
    [wait] reaps its ZOMBIE child and returns the child's pid. *)
Lemma wait_killed_caller_counterexample :
  (killed <$> procs ex_killed !! 1%nat) = Some 1 /\
  cpu_proc ex_killed = Some 1%nat /\
  exists s', wait DEFAULT copyout_ok 1 0 ex_killed = Ret 3 s' /\ 3 <> -1.
Proof.
  split; [reflexivity|]. split; [reflexivity|].
  eexists. split; [vm_compute; reflexivity|discriminate].
Qed.

Lemma exit_reparents_and_becomes_zombie_witness :
  (cpu_proc ex_table = Some 1%nat /\ initproc ex_table <> Some 1%nat /\
   locks_free ex_table /\ pid_lock ex_table = false /\ wait_lock ex_table = false) /\
  exists s' kont,
    exit DEFAULT 5 ex_table = Swtch s' kont /\
    (parent <$> procs s') = [None; Some 0; Some 0; Some 0; Some 0; None]%nat /\
    (state <$> procs s') = [RUNNABLE; ZOMBIE; ZOMBIE; SLEEPING; RUNNABLE; UNUSED] /\
    klog s' = [EFileclose 7; EBeginOp; EIput 3; EEndOp; EWakeup (CProc 0);
               EWakeup (CProc 0); EWakeup (CProc 0); EWakeup (CProc 0)].
Proof.
  assert (Hfree : locks_free ex_table) by ex_free.
  split; [repeat split; [discriminate|exact Hfree]|].
  destruct (exit_reparents_and_becomes_zombie DEFAULT 5 ex_table 1%nat
              (set_ofile [7; 0] (set_cwd 3 (slot RUNNING 2 (Some 0%nat) CNull))))
    as (_ & H & _); try reflexivity; try discriminate; try exact Hfree.
  destruct (H eq_refl) as (s' & kont & Hrun & _).
  exists s', kont. split; [exact Hrun|].
  assert (Hs : s' = match exit DEFAULT 5 ex_table with Swtch x _ => x | _ => ex_table end)
    by (rewrite Hrun; reflexivity).
  rewrite Hs. vm_compute. repeat split; reflexivity.
Defined.

Lemma kill_first_slot_with_pid_witness :
  locks_free ex_table /\
  (state <$> procs ex_table !! 3%nat) = Some SLEEPING /\
  (exists s', kill 4 ex_table = Ret 0 s' /\
     (state <$> procs s' !! 3%nat) = Some RUNNABLE /\
     (killed <$> procs s' !! 3%nat) = Some 1) /\
  kill 77 ex_table = Ret (-1) ex_table.
Proof.
  assert (Hfree : locks_free ex_table) by ex_free.
  split; [exact Hfree|]. split; [reflexivity|].
  destruct (kill_first_slot_with_pid ex_table 4 Hfree) as [H _].
  destruct (kill_first_slot_with_pid ex_table 77 Hfree) as [_ H'].
  split.
  - eexists. split.
    + apply (H 3%nat (slot SLEEPING 4 (Some 1%nat) (CAddr 99))); [ex_first|discriminate].
    + split; reflexivity.
  - apply H'. intros i q Hq.
    repeat (destruct i as [|i]; [vm_compute in Hq; injection Hq as <-; vm_compute;
                                 congruence|]).
    discriminate.
Defined.

(** The claim C8 as it is worded fails: pid 3 is a ZOMBIE, yet [kill]
    returns 0 and sets its kill flag. *)
Lemma kill_zombie_counterexample :
  (state <$> procs ex_table !! 2%nat) = Some ZOMBIE /\
  (pid <$> procs ex_table !! 2%nat) = Some 3 /\
  (killed <$> procs ex_table !! 2%nat) = Some 0 /\
  exists s', kill 3 ex_table = Ret 0 s' /\
    (killed <$> procs s' !! 2%nat) = Some 1 /\ 0 <> -1.
Proof.
  repeat split; try reflexivity.
  eexists. split; [vm_compute; reflexivity|]. split; [reflexivity|discriminate].
Qed.

Lemma wait_copyout_failure_keeps_zombie_witness :
  (locks_free ex_table /\ wait_lock ex_table = false /\
   cpu_proc ex_table = Some 1%nat /\ 512 <> 0 /\ copyout_bad 65538 512 7 < 0) /\
  wait DEFAULT copyout_bad 1 512 ex_table = Ret (-1) ex_table /\
  waitx DEFAULT copyout_bad 1 512 (0, 0) ex_table = Ret (-1, (0, 0)) ex_table /\
  (state <$> procs ex_table !! 2%nat) = Some ZOMBIE /\
  exists s', wait DEFAULT copyout_bad 1 0 ex_table = Ret 3 s'.
Proof.
  assert (Hfree : locks_free ex_table) by ex_free.
  split; [repeat split; [exact Hfree|discriminate]|].
  destruct (wait_copyout_failure_keeps_zombie DEFAULT copyout_bad 0 512 (0, 0) ex_table
              2%nat (set_xstate 7 (slot ZOMBIE 3 (Some 1%nat) CNull)) 1%nat
              (set_ofile [7; 0] (set_cwd 3 (slot RUNNING 2 (Some 0%nat) CNull))))
    as (H1 & H2 & _ & H3); try reflexivity; try discriminate; try exact Hfree.
  - ex_first.
  - split; [exact H1|]. split; [exact H2|]. split; [reflexivity|].
    eexists. exact H3.
Defined.

Lemma PSBPriority_clamped_formula_witness :
  let p := set_sleeping_time 80 (set_running_time 20 blank) in
  (representable p /\ (fresh p \/ running_time p + sleeping_time p <> 0)) /\
  niceness p = Some 8 /\ PSBPriority p = Some 57.
Proof.
  intros p.
  assert (Hrep : representable p).
  { unfold representable, is_int. vm_compute. intuition congruence. }
  assert (Hdiv : fresh p \/ running_time p + sleeping_time p <> 0)
    by (right; vm_compute; congruence).
  split; [split; assumption|].
  destruct (PSBPriority_clamped_formula p) as (H & _ & _).
  destruct (H Hrep Hdiv) as (Hn & Hp & _).
  split; [exact Hn|exact Hp].
Defined.

Lemma scheduler_FCFS_picks_earliest_witness :
  locks_free ex_fcfs /\
  exists s' kont,
    scheduler_FCFS None ex_fcfs = Swtch s' kont /\
    cpu_proc s' = Some 1%nat /\
    (start_time <$> procs s' !! 1%nat) = Some 3 /\
    (state <$> procs s') = [RUNNABLE; RUNNING; RUNNABLE].
Proof.
  assert (Hfree : locks_free ex_fcfs) by ex_free.
  split; [exact Hfree|].
  destruct (scheduler_FCFS_picks_earliest None ex_fcfs Hfree)
    as (t & qt & s' & kont & Hrun & _).
  - intros i q Hq _.
    repeat (destruct i as [|i]; [vm_compute in Hq; injection Hq as <-; vm_compute;
                                 congruence|]).
    discriminate.
  - exists 0%nat. eexists. split; reflexivity.
  - exists s', kont. split; [exact Hrun|].
    assert (Hs : s' = match scheduler_FCFS None ex_fcfs with
                      | Swtch x _ => x | _ => ex_fcfs end)
      by (rewrite Hrun; reflexivity).
    rewrite Hs. vm_compute. repeat split; reflexivity.
Defined.

(** [set_priority_i] under PBS on the example table, whose slots all carry
    the static priority 60: pid 4 (slot 3) sleeps, the caller is slot 1. *)
Lemma set_priority_i_spec_witness :
  PBS = PBS /\ locks_free ex_table /\
  set_priority_i PBS 101 4 ex_table = Ret 1 ex_table /\
  set_priority_i PBS 50 9 ex_table = Ret 2 ex_table /\
  (exists s',
     set_priority_i PBS 50 4 ex_table = Ret 60 s' /\
     (Static_priority <$> procs s' !! 3%nat) = Some 50 /\
     (running_time <$> procs s' !! 3%nat) = Some (-1) /\
     (sleeping_time <$> procs s' !! 3%nat) = Some (-1)) /\
  (exists s' kont,
     set_priority_i PBS 70 4 ex_table = Swtch s' kont /\
     (Static_priority <$> procs s' !! 3%nat) = Some 70 /\
     (state <$> procs s' !! 1%nat) = Some RUNNABLE).
Proof.
  assert (Hfree : locks_free ex_table) by ex_free.
  assert (Hfirst : first_slot (eligible 4) ex_table 3
                     (slot SLEEPING 4 (Some 1%nat) (CAddr 99))).
  { split; [reflexivity|]. split; [split; [right; reflexivity|reflexivity]|].
    intros j x Hj Hx.
    repeat (destruct j as [|j]; [vm_compute in Hx; injection Hx as <-; vm_compute;
                                 intuition congruence|]).
    exfalso. lia. }
  split; [reflexivity|]. split; [exact Hfree|].
  split; [|split; [|split]].
  - apply (set_priority_i_spec PBS 101 4 ex_table eq_refl Hfree). lia.
  - apply (set_priority_i_spec PBS 50 9 ex_table eq_refl Hfree); [lia|].
    intros i q Hq.
    repeat (destruct i as [|i]; [vm_compute in Hq; injection Hq as <-; vm_compute;
                                 intuition congruence|]).
    discriminate.
  - destruct (set_priority_i_spec PBS 50 4 ex_table eq_refl Hfree) as (_ & _ & H).
    destruct (H 3%nat _ ltac:(lia) ltac:(lia) Hfirst) as [Hle _].
    eexists. split; [apply Hle; vm_compute; discriminate|].
    vm_compute. repeat split; reflexivity.
  - destruct (set_priority_i_spec PBS 70 4 ex_table eq_refl Hfree) as (_ & _ & H).
    destruct (H 3%nat _ ltac:(lia) ltac:(lia) Hfirst) as [_ Hlt].
    destruct (Hlt ltac:(vm_compute; reflexivity) 1%nat eq_refl ltac:(vm_compute; lia)
                eq_refl eq_refl) as (kont & Hrun & _).
    eexists. exists kont. split; [exact Hrun|].
    vm_compute. repeat split; reflexivity.
Defined.

(** The caller does not yield when it makes pid 4 more urgent (60 to 50); it
    yields when it makes pid 4 less urgent (60 to 70). *)
Lemma set_priority_yield_counterexample :
  (Static_priority <$> procs ex_table !! 3%nat) = Some 60 /\
  (exists s', set_priority_i PBS 50 4 ex_table = Ret 60 s') /\
  (exists s' kont, set_priority_i PBS 70 4 ex_table = Swtch s' kont).
Proof.
  split; [reflexivity|]. split.
  - eexists. vm_compute. reflexivity.
  - eexists. eexists. vm_compute. reflexivity.
Qed.

(** Two RUNNABLE processes at level 3, enqueued at ticks 20 and 10; at tick
    50 neither has waited long enough to be promoted. *)
Definition ex_mlfq : kstate :=
  mkKstate
    [ set_priority_number 3 (set_time_added 20 (slot RUNNABLE 1 None CNull));
      set_priority_number 3 (set_time_added 10 (slot RUNNABLE 2 (Some 0%nat) CNull)) ]
    (Some 0%nat) 3 50 false false None false false [].

(** Two RUNNABLE processes at level 4, enqueued at ticks 45 and 48, and a
    sleeper; at tick 50 neither has waited long enough to be promoted. *)
Definition ex_mlfq_low : kstate :=
  mkKstate
    [ set_priority_number 4 (set_time_added 45 (slot RUNNABLE 1 None CNull));
      set_priority_number 4 (set_time_added 48 (slot RUNNABLE 2 (Some 0%nat) CNull));
      slot SLEEPING 3 (Some 0%nat) (CAddr 7) ]
    (Some 0%nat) 4 50 false false None false false [].

(** On [ex_mlfq] the scan of level 3 picks slot 1, the earlier enqueued, and
    leaves the cursor at 0; on [ex_mlfq_low] with the cursor at 1 the
    round-robin loop picks slot 1, the later enqueued, and moves the cursor
    to 2. *)
Lemma scheduler_MLFQ_selection_witness :
  locks_free ex_mlfq /\ levels_indexed (procs ex_mlfq) /\
  (exists s' kont,
     scheduler_MLFQ 2 None 0 ex_mlfq = Swtch s' kont /\
     cpu_proc s' = Some 1%nat /\
     (state <$> procs s') = [RUNNABLE; RUNNING] /\
     (time_added <$> procs s') = [20; 0] /\
     (No_times <$> procs s') = [0; 1] /\
     exists s'', kont s' = Ret (Some 1%nat, 0%nat) s'') /\
  locks_free ex_mlfq_low /\ levels_indexed (procs ex_mlfq_low) /\
  (exists s' kont,
     scheduler_MLFQ 3 None 1 ex_mlfq_low = Swtch s' kont /\
     cpu_proc s' = Some 1%nat /\
     (state <$> procs s') = [RUNNABLE; RUNNING; SLEEPING] /\
     (time_added <$> procs s') = [45; 0; 0] /\
     (No_times <$> procs s') = [0; 1; 0] /\
     exists s'', kont s' = Ret (Some 1%nat, 2%nat) s'').
Proof.
  assert (Hfree : locks_free ex_mlfq) by ex_free.
  assert (Hfree' : locks_free ex_mlfq_low) by ex_free.
  assert (Hok : levels_indexed (procs ex_mlfq)).
  { intros i q Hq _.
    repeat (destruct i as [|i]; [vm_compute in Hq; injection Hq as <-; vm_compute;
                                 intuition congruence|]).
    discriminate. }
  assert (Hok' : levels_indexed (procs ex_mlfq_low)).
  { intros i q Hq Hr. revert Hr.
    repeat (destruct i as [|i]; [vm_compute in Hq; injection Hq as <-; vm_compute;
                                 intuition congruence|]).
    discriminate. }
  split; [exact Hfree|]. split; [exact Hok|]. split; [|split; [exact Hfree'|split; [exact Hok'|]]].
  - destruct (scheduler_MLFQ_selection 2 None 0 ex_mlfq Hfree Hok) as (H & _ & _).
    destruct H as (t & qt & Hleast & _ & Hrun).
    { exists 0%nat. eexists. split; [reflexivity|]. split; [reflexivity|].
      vm_compute. discriminate. }
    { intros k q Hq _ _.
      repeat (destruct k as [|k]; [vm_compute in Hq; injection Hq as <-; vm_compute;
                                   congruence|]).
      discriminate. }
    assert (t = 1%nat) as ->.
    { destruct Hleast as (Hq & Hr & Hmin).
      destruct t as [|[|t]]; [|reflexivity|discriminate].
      vm_compute in Hq. injection Hq as <-.
      destruct (Hmin 1%nat _ eq_refl eq_refl) as [H|(_ & H & _)];
        vm_compute in H; congruence. }
    eexists. eexists. split; [exact Hrun|].
    vm_compute. repeat split; try reflexivity. eexists. reflexivity.
  - destruct (scheduler_MLFQ_selection 3 None 1 ex_mlfq_low Hfree' Hok') as (_ & H & _).
    destruct H as (d & t & Hd & Ht & Hat & Hfirst & Hrun).
    { intros k q Hq Hr. revert Hr.
      repeat (destruct k as [|k]; [vm_compute in Hq; injection Hq as <-;
                                   first [reflexivity|discriminate]|]).
      discriminate. }
    { exists 0%nat. eexists. split; reflexivity. }
    { vm_compute. lia. }
    { vm_compute. lia. }
    assert (d = 0%nat) as ->.
    { destruct d as [|d]; [reflexivity|]. exfalso.
      apply (Hfirst 0%nat); [lia|]. eexists. split; reflexivity. }
    vm_compute in Ht. subst t.
    eexists. eexists. split; [exact Hrun|].
    vm_compute. repeat split; try reflexivity. eexists. reflexivity.
Defined.

(** No RUNNABLE process is at the levels 0 to 2 of [ex_mlfq] and the cursor
    is at slot 0, which is RUNNABLE at level 3; the scheduler switches to
    slot 1 and leaves the cursor at 0. *)
Lemma scheduler_MLFQ_level3_counterexample :
  (priority_number <$> procs ex_mlfq) = [3; 3] /\
  (state <$> procs ex_mlfq) = [RUNNABLE; RUNNABLE] /\
  exists s' kont s'',
    scheduler_MLFQ 2 None 0 ex_mlfq = Swtch s' kont /\
    cpu_proc s' = Some 1%nat /\
    (state <$> procs s') = [RUNNABLE; RUNNING] /\
    kont s' = Ret (Some 1%nat, 0%nat) s''.
Proof.
  split; [reflexivity|]. split; [reflexivity|].
  eexists. eexists. eexists.
  split; [vm_compute; reflexivity|].
  vm_compute. repeat split; reflexivity.
Qed.

(** ** A zero divisor in [PSBPriority]

    Init (slot 0) and its two children are RUNNABLE at tick 100 and have
    never run.  The three steps below happen within that tick. *)
Definition ex_pbs : kstate :=
  mkKstate
    [ slot RUNNABLE 1 None CNull;
      slot RUNNABLE 2 (Some 0%nat) CNull;
      slot RUNNABLE 3 (Some 0%nat) CNull ]
    (Some 0%nat) 4 100 false false None false false [].

(** The state and the continuation of a run that ends in a context switch;
    the state of a run that returns. *)
Definition switched {A} (r : run A) : option (kstate * (kstate -> run A)) :=
  match r with
  | Swtch s k => Some (s, k)
  | _ => None
  end.

Definition returned {A} (r : run A) : option kstate :=
  match r with
  | Ret _ s => Some s
  | _ => None
  end.

(** The scheduler dispatches init, which drops its lock and calls [wait]:
    it has no ZOMBIE child and sleeps.  The scheduler resumes, dispatches
    pid 2, which drops its lock and calls [exit]: that wakes init up.  The
    scheduler resumes. *)
Definition same_tick : option kstate :=
  '(s1, sched1) ← switched (scheduler_PBS None ex_pbs);
  s2 ← returned (release (ProcLock 0) s1);
  '(s3, _) ← switched (wait PBS copyout_ok 1 0 s2);
  s4 ← returned (sched1 s3);
  '(s5, sched2) ← switched (scheduler_PBS (Some 0%nat) s4);
  s6 ← returned (release (ProcLock 1) s5);
  '(s7, _) ← switched (exit PBS 0 s6);
  returned (sched2 s7).

(** C9.  The three steps are possible and the tick counter has not moved.
    Init is then RUNNABLE with both interval markers 0: not fresh, and the
    divisor [running_time + sleeping_time] is 0.  [PSBPriority] has no value
    on that slot, and the next turn of the PBS scheduler, which compares
    init with pid 3, stops on the division. *)
Theorem PSBPriority_zero_divisor_reachable :
  exists s q,
    same_tick = Some s /\ ticks s = ticks ex_pbs /\
    procs s !! 0%nat = Some q /\ state q = RUNNABLE /\
    running_time q = 0 /\ sleeping_time q = 0 /\ ~ fresh q /\
    running_time q + sleeping_time q = 0 /\
    niceness q = None /\ PSBPriority q = None /\
    exists s', scheduler_PBS (Some 1%nat) s = Stop DivByZero s'.
Proof.
  eexists. eexists.
  split; [vm_compute; reflexivity|].
  split; [reflexivity|].
  split; [reflexivity|].
  split; [reflexivity|].
  split; [reflexivity|].
  split; [reflexivity|].
  split; [vm_compute; intros [H _]; discriminate|].
  split; [reflexivity|].
  split; [reflexivity|].
  split; [reflexivity|].
  eexists. vm_compute. reflexivity.
Qed.

(** ** A wakeup while [c->proc] still names the sleeper

    Init sleeps in [wait]; pid 2 (slot 1) is RUNNABLE and no process is
    current. *)
Definition ex_sleep : kstate :=
  mkKstate
    [ slot SLEEPING 1 None (CProc 0);
      set_time_added 30 (slot RUNNABLE 2 (Some 0%nat) CNull) ]
    (Some 0%nat) 3 40 false false None false false [].

(** A turn of the scheduler dispatches pid 2, which drops its lock, takes
    a lock [lk] (here [wait_lock]) and calls [sleep(99, lk)].  The scheduler
    resumes and runs to the end of its turn: the sleeper's lock is free
    again. *)
Definition sleeps_and_scheduler_resumes {A} (pol : policy) (turn : M A) : option kstate :=
  '(s1, sched1) ← switched (turn ex_sleep);
  s2 ← returned (release (ProcLock 1) s1);
  s3 ← returned (acquire WaitLock s2);
  '(s4, _) ← switched (sleep pol (CAddr 99) WaitLock s3);
  returned (sched1 s4).

(** What a [wakeup(99)] issued in state [s] leaves of slot 1. *)
Definition woken (pol : policy) (s : kstate) : option (procstate * chan_t) :=
  s' ← returned (wakeup pol (CAddr 99) s);
  q ← procs s' !! 1%nat;
  Some (state q, chan q).

(** The state in which a wakeup finds the kernel at the end of the
    scheduler's turn: the current process, whether an interrupt can be
    taken, and the lock, state and channel of slot 1. *)
Definition at_turn_end (s : kstate) : option (option nat * run bool * bool * procstate * chan_t) :=
  q ← procs s !! 1%nat;
  Some (cpu_proc s, intr_get s, lock q, state q, chan q).

(** C3.  Under FCFS, PBS and MLFQ the scheduler releases the sleeper's lock
    while [c->proc] still names the sleeper, and interrupts can be taken:
    a [wakeup(99)] issued there (and, under MLFQ, after the [intr_on()] that
    opens the next turn) skips the sleeper, which stays SLEEPING on 99.  The
    same wakeup issued once [c->proc] is cleared makes it RUNNABLE, and so
    does the wakeup at the end of the turn of the DEFAULT scheduler, which
    clears [c->proc] before it releases the lock. *)
Theorem wakeup_skips_sleeper_after_switch :
  (exists s,
     sleeps_and_scheduler_resumes MLFQ (scheduler_MLFQ 2 None 0) = Some s /\
     at_turn_end s = Some (Some 1%nat, Ret true s, false, SLEEPING, CAddr 99) /\
     woken MLFQ s = Some (SLEEPING, CAddr 99) /\
     (exists s', intr_on s = Ret tt s' /\ cpu_proc s' = Some 1%nat /\
                 woken MLFQ s' = Some (SLEEPING, CAddr 99)) /\
     woken MLFQ (set_cpu_proc None s) = Some (RUNNABLE, CAddr 99)) /\
  (exists s,
     sleeps_and_scheduler_resumes PBS (scheduler_PBS None) = Some s /\
     at_turn_end s = Some (Some 1%nat, Ret true s, false, SLEEPING, CAddr 99) /\
     woken PBS s = Some (SLEEPING, CAddr 99) /\
     woken PBS (set_cpu_proc None s) = Some (RUNNABLE, CAddr 99)) /\
  (exists s,
     sleeps_and_scheduler_resumes FCFS (scheduler_FCFS None) = Some s /\
     at_turn_end s = Some (Some 1%nat, Ret true s, false, SLEEPING, CAddr 99) /\
     woken FCFS s = Some (SLEEPING, CAddr 99) /\
     woken FCFS (set_cpu_proc None s) = Some (RUNNABLE, CAddr 99)) /\
  (exists s,
     sleeps_and_scheduler_resumes DEFAULT scheduler_DEFAULT = Some s /\
     at_turn_end s = Some (None, Ret true s, false, SLEEPING, CAddr 99) /\
     woken DEFAULT s = Some (RUNNABLE, CAddr 99)).
Proof.
  split; [|split; [|split]].
  - eexists. split; [vm_compute; reflexivity|].
    split; [reflexivity|]. split; [reflexivity|].
    split; [|reflexivity].
    eexists. split; [reflexivity|]. split; reflexivity.
  - eexists. split; [vm_compute; reflexivity|]. repeat split; reflexivity.
  - eexists. split; [vm_compute; reflexivity|]. repeat split; reflexivity.
  - eexists. split; [vm_compute; reflexivity|]. repeat split; reflexivity.
Qed.


(** ** The enqueue tick 0 under MLFQ

    A process at level 0, enqueued at tick 7, and one at level 2, enqueued
    at tick 6; tick 20, no process is current. *)
Definition ex_mlfq_turns : kstate :=
  mkKstate
    [ set_time_added 7 (slot RUNNABLE 1 None CNull);
      set_priority_number 2 (set_time_added 6 (slot RUNNABLE 2 (Some 0%nat) CNull)) ]
    (Some 0%nat) 3 20 false false None false false [].

(** A turn of the scheduler dispatches pid 1, which drops its lock and
    calls [yield]; the scheduler resumes, ends its turn and starts the
    next one. *)
Definition yields_and_next_turn : option kstate :=
  '(s1, sched1) ← switched (scheduler_MLFQ 2 None 0 ex_mlfq_turns);
  s2 ← returned (release (ProcLock 0) s1);
  '(s3, _) ← switched (yield s2);
  match sched1 s3 with
  | Ret (tbs, rr) s4 => fst <$> switched (scheduler_MLFQ 2 tbs rr s4)
  | _ => None
  end.

(** The dispatch leaves the enqueue tick 0 in the slot of pid 1 and [yield]
    does not stamp it again.  In the next turn the scan of level 0 takes
    that tick for its marker of an empty level: the scheduler switches to
    pid 2, at level 2, while pid 1 is RUNNABLE at level 0.  The selection
    theorem of the MLFQ scheduler leaves such tables out. *)
Example scheduler_MLFQ_passes_over_tick_zero :
  exists s,
    yields_and_next_turn = Some s /\
    cpu_proc s = Some 1%nat /\
    (state <$> procs s) = [RUNNABLE; RUNNING] /\
    (priority_number <$> procs s) = [0; 2].
Proof.
  eexists. split; [vm_compute; reflexivity|].
  vm_compute. repeat split; reflexivity.
Qed.

(** ** Examples for the further properties *)

(** The table [ex_table], the ZOMBIE child being RUNNABLE instead: the
    current process has children and none has exited. *)
Definition ex_family : kstate :=
  upd 2 (set_state RUNNABLE) ex_table.

(** The table [ex_table], the ZOMBIE child having been created at tick 40,
    having run for 20 ticks and exited at tick 90. *)
Definition ex_timed : kstate :=
  upd 2 (fun q => set_etime 90 (set_ctime 40 (set_rtime 20 q))) ex_table.

(** Init alone, asleep, and no current process. *)
Definition ex_idle : kstate :=
  mkKstate [ slot SLEEPING 1 None (CProc 0) ]
    (Some 0%nat) 2 40 false false None false false [].

(** Settles a statement on every slot of a concrete table. *)
Ltac ex_slots Hq :=
  match type of Hq with
  | _ !! ?i = Some _ =>
      repeat (destruct i as [|i];
              [vm_compute in Hq; injection Hq as <-; vm_compute;
               intuition (try congruence; try lia)|]);
      try discriminate
  end.

Lemma wakeup_wakes_the_sleepers_on_chan_witness :
  others_free ex_table /\
  exists s',
    wakeup DEFAULT (CAddr 99) ex_table = Ret tt s' /\
    (state <$> procs s') = [SLEEPING; RUNNING; ZOMBIE; RUNNABLE; RUNNABLE; UNUSED] /\
    klog s' = [EWakeup (CAddr 99)].
Proof.
  assert (Hfree : others_free ex_table) by (apply locks_free_others; ex_free).
  split; [exact Hfree|].
  destruct (wakeup_wakes_the_sleepers_on_chan DEFAULT (CAddr 99) ex_table Hfree)
    as (s' & Hrun & _).
  exists s'. split; [exact Hrun|].
  assert (Hs : s' = match wakeup DEFAULT (CAddr 99) ex_table with
                    | Ret _ x => x | _ => ex_table end)
    by (rewrite Hrun; reflexivity).
  rewrite Hs. vm_compute. split; reflexivity.
Defined.

Lemma yield_gives_up_the_cpu_witness :
  (cpu_proc ex_table = Some 1%nat /\ locks_free ex_table /\
   wait_lock ex_table = false /\ pid_lock ex_table = false) /\
  exists s' kont,
    yield ex_table = Swtch s' kont /\
    (state <$> procs s') = [SLEEPING; RUNNABLE; ZOMBIE; SLEEPING; RUNNABLE; UNUSED] /\
    (lock <$> procs s') = [false; true; false; false; false; false].
Proof.
  assert (Hfree : locks_free ex_table) by ex_free.
  split; [repeat split; exact Hfree|].
  destruct (yield_gives_up_the_cpu ex_table 1%nat _ eq_refl eq_refl Hfree eq_refl eq_refl)
    as (kont & Hrun & _).
  eexists. exists kont. split; [exact Hrun|]. vm_compute. split; reflexivity.
Defined.

Lemma yield_with_a_lock_held_panics_witness :
  (cpu_proc (set_wait_lock true ex_table) = Some 1%nat /\
   some_lock_held (set_wait_lock true ex_table)) /\
  exists s', yield (set_wait_lock true ex_table) = Stop (PanicMsg "sched locks") s'.
Proof.
  assert (Hheld : some_lock_held (set_wait_lock true ex_table)) by (left; reflexivity).
  split; [split; [reflexivity|exact Hheld]|].
  eexists.
  exact (yield_with_a_lock_held_panics (set_wait_lock true ex_table) 1%nat _
           eq_refl eq_refl eq_refl Hheld).
Defined.

Lemma sleep_releases_lk_and_takes_it_back_witness :
  (cpu_proc (set_wait_lock true ex_table) = Some 1%nat /\
   WaitLock <> ProcLock 1 /\
   holding WaitLock (set_wait_lock true ex_table) = true /\
   noff (set_wait_lock true ex_table) = 1) /\
  exists s1 kont,
    sleep DEFAULT (CAddr 7) WaitLock (set_wait_lock true ex_table) = Swtch s1 kont /\
    wait_lock s1 = false /\
    (state <$> procs s1 !! 1%nat) = Some SLEEPING /\
    (chan <$> procs s1 !! 1%nat) = Some (CAddr 7) /\
    (lock <$> procs s1 !! 1%nat) = Some true.
Proof.
  split; [repeat split; discriminate|].
  destruct (sleep_releases_lk_and_takes_it_back DEFAULT (CAddr 7) WaitLock
              (set_wait_lock true ex_table) 1%nat _ eq_refl eq_refl eq_refl)
    as (s1 & kont & q1 & Hrun & Hs & _); [discriminate|reflexivity|reflexivity|].
  exists s1, kont. split; [exact Hrun|]. rewrite Hs. vm_compute.
  repeat split; reflexivity.
Defined.

Lemma wait_sleeps_on_its_own_slot_witness :
  (locks_free ex_family /\ wait_lock ex_family = false /\
   pid_lock ex_family = false /\ cpu_proc ex_family = Some 1%nat) /\
  exists s1 kont,
    wait DEFAULT copyout_ok 2 0 ex_family = Swtch s1 kont /\
    (state <$> procs s1) = [SLEEPING; SLEEPING; RUNNABLE; SLEEPING; RUNNABLE; UNUSED] /\
    (chan <$> procs s1 !! 1%nat) = Some (CProc 1) /\
    wait_lock s1 = false.
Proof.
  assert (Hfree : locks_free ex_family) by ex_free.
  split; [repeat split; exact Hfree|].
  destruct (wait_sleeps_on_its_own_slot DEFAULT copyout_ok 1 0 ex_family 1%nat _
              Hfree eq_refl eq_refl eq_refl eq_refl eq_refl)
    as (s1 & kont & q1 & Hrun & _).
  - exists 2%nat. eexists. split; reflexivity.
  - intros i q Hq [_ Hs]. revert Hs. ex_slots Hq.
  - exists s1, kont. split; [exact Hrun|].
    assert (Hs : s1 = match wait DEFAULT copyout_ok 2 0 ex_family with
                      | Swtch x _ => x | _ => ex_family end)
      by (rewrite Hrun; reflexivity).
    rewrite Hs. vm_compute. repeat split; reflexivity.
Defined.

Lemma waitx_reports_run_and_wait_time_witness :
  (locks_free ex_timed /\ wait_lock ex_timed = false) /\
  exists s',
    waitx DEFAULT copyout_ok 1 0 (0, 0) ex_timed = Ret (3, (20, 30)) s' /\
    (state <$> procs s' !! 2%nat) = Some UNUSED.
Proof.
  assert (Hfree : locks_free ex_timed) by ex_free.
  split; [split; [exact Hfree|reflexivity]|].
  destruct (waitx_reports_run_and_wait_time DEFAULT copyout_ok 0 0 (0, 0) ex_timed
              Hfree eq_refl) as (H & _).
  destruct (H 2%nat
              (set_etime 90 (set_ctime 40 (set_rtime 20
                 (set_xstate 7 (slot ZOMBIE 3 (Some 1%nat) CNull))))) [])
    as (s' & Hrun & Hprocs & _).
  - ex_first.
  - reflexivity.
  - exists s'. split; [exact Hrun|]. rewrite Hprocs. reflexivity.
Defined.

Lemma UpgradePolicy_promotes_by_one_level_witness :
  levels_ok (procs ex_mlfq) /\
  exists s',
    UpgradePolicy (set_ticks 51 ex_mlfq) = Ret tt s' /\
    (priority_number <$> procs s') = [3; 3] /\
    exists s'',
      UpgradePolicy (set_ticks 125 ex_mlfq) = Ret tt s'' /\
      (priority_number <$> procs s'') = [2; 2] /\
      (time_added <$> procs s'') = [125; 125].
Proof.
  assert (Hl : levels_ok (procs ex_mlfq)).
  { intros i q Hq _. ex_slots Hq. }
  split; [exact Hl|].
  destruct (UpgradePolicy_promotes_by_one_level (set_ticks 51 ex_mlfq) Hl)
    as (s' & Hrun & _).
  destruct (UpgradePolicy_promotes_by_one_level (set_ticks 125 ex_mlfq) Hl)
    as (s'' & Hrun' & _).
  exists s'. split; [exact Hrun|].
  assert (Hs : s' = match UpgradePolicy (set_ticks 51 ex_mlfq) with
                    | Ret _ x => x | _ => ex_mlfq end)
    by (rewrite Hrun; reflexivity).
  split; [rewrite Hs; vm_compute; reflexivity|].
  exists s''. split; [exact Hrun'|].
  assert (Hs' : s'' = match UpgradePolicy (set_ticks 125 ex_mlfq) with
                      | Ret _ x => x | _ => ex_mlfq end)
    by (rewrite Hrun'; reflexivity).
  rewrite Hs'. vm_compute. split; reflexivity.
Defined.


Lemma scheduler_turn_without_runnable_slot_witness :
  locks_free ex_idle /\
  scheduler_FCFS None ex_idle = Ret None (set_intr true ex_idle) /\
  scheduler_PBS None ex_idle = Ret None (set_intr true ex_idle) /\
  scheduler_DEFAULT ex_idle = Ret tt (set_intr true ex_idle).
Proof.
  assert (Hfree : locks_free ex_idle) by ex_free.
  split; [exact Hfree|].
  apply (scheduler_turn_without_runnable_slot None ex_idle Hfree).
  intros i q Hq. ex_slots Hq.
Defined.

Lemma scheduler_MLFQ_spins_without_runnable_slot_witness :
  (0 < NPROC ex_idle)%nat /\
  scheduler_MLFQ 5 None 0 ex_idle = Stop OutOfFuel (set_intr true ex_idle).
Proof.
  split; [vm_compute; lia|].
  apply (scheduler_MLFQ_spins_without_runnable_slot 5 None 0 ex_idle).
  - intros i q Hq. ex_slots Hq.
  - vm_compute. lia.
Defined.

Lemma scheduler_DEFAULT_runs_first_runnable_witness :
  locks_free ex_sleep /\
  exists s' kont,
    scheduler_DEFAULT ex_sleep = Swtch s' kont /\
    cpu_proc s' = Some 1%nat /\
    (state <$> procs s') = [SLEEPING; RUNNING] /\
    (lock <$> procs s') = [false; true].
Proof.
  assert (Hfree : locks_free ex_sleep) by ex_free.
  split; [exact Hfree|].
  destruct (scheduler_DEFAULT_runs_first_runnable ex_sleep 1%nat
              (set_time_added 30 (slot RUNNABLE 2 (Some 0%nat) CNull)) Hfree)
    as (kont & Hrun & _).
  - ex_first.
  - eexists. exists kont. split; [exact Hrun|]. vm_compute. repeat split; reflexivity.
Defined.

(** Two processes of equal priority 60, scheduled 2 and 0 times: the second
    is the more urgent. *)
Lemma PcbCompare_orders_lexicographically_witness :
  PSBPriority (set_Times_scheduled 2 blank) = Some 60 /\
  PSBPriority blank = Some 60 /\
  PcbCompare (set_Times_scheduled 2 blank) blank = Some 1 /\
  PcbCompare blank (set_Times_scheduled 2 blank) = Some (-1).
Proof.
  split; [reflexivity|]. split; [reflexivity|].
  destruct (PcbCompare_orders_lexicographically (set_Times_scheduled 2 blank) blank)
    as (_ & H).
  destruct (H 60 60 eq_refl eq_refl) as (_ & Hiff & Hsym & _).
  assert (H1 : PcbCompare (set_Times_scheduled 2 blank) blank = Some 1).
  { apply Hiff. right. split; [reflexivity|]. left. vm_compute. reflexivity. }
  split; [exact H1|exact (Hsym H1)].
Defined.

Lemma scheduler_PBS_picks_most_urgent_witness :
  locks_free ex_pbs /\
  exists s' kont,
    scheduler_PBS None ex_pbs = Swtch s' kont /\
    cpu_proc s' = Some 0%nat /\
    (state <$> procs s') = [RUNNING; RUNNABLE; RUNNABLE] /\
    (Times_scheduled <$> procs s') = [1; 0; 0] /\
    (running_time <$> procs s') = [100; -1; -1].
Proof.
  assert (Hfree : locks_free ex_pbs) by ex_free.
  split; [exact Hfree|].
  destruct (scheduler_PBS_picks_most_urgent None ex_pbs Hfree)
    as (t & qt & s' & kont & Hrun & _).
  - intros i q Hq _. ex_slots Hq.
  - exists 0%nat. eexists. split; reflexivity.
  - exists s', kont. split; [exact Hrun|].
    assert (Hs : s' = match scheduler_PBS None ex_pbs with
                      | Swtch x _ => x | _ => ex_pbs end)
      by (rewrite Hrun; reflexivity).
    rewrite Hs. vm_compute. repeat split; reflexivity.
Defined.

Lemma allocproc_sets_up_first_unused_slot_witness :
  (locks_free ex_table /\ pid_lock ex_table = false /\ 4096 <> 0 /\ 8192 <> 0) /\
  exists s',
    allocproc PBS 4096 8192 ex_table = Ret (Some 5%nat) s' /\
    nextpid s' = 7 /\
    (state <$> procs s' !! 5%nat) = Some USED /\
    (pid <$> procs s' !! 5%nat) = Some 6 /\
    (ctime <$> procs s' !! 5%nat) = Some 100 /\
    (Static_priority <$> procs s' !! 5%nat) = Some 60.
Proof.
  assert (Hfree : locks_free ex_table) by ex_free.
  split; [repeat split; [exact Hfree|discriminate|discriminate]|].
  destruct (allocproc_sets_up_first_unused_slot PBS 4096 8192 ex_table 5%nat blank
              Hfree eq_refl)
    as (s' & q' & Hrun & _); [ex_first|discriminate|discriminate|].
  exists s'. split; [exact Hrun|].
  assert (Hs : s' = match allocproc PBS 4096 8192 ex_table with
                    | Ret _ x => x | _ => ex_table end)
    by (rewrite Hrun; reflexivity).
  rewrite Hs. vm_compute. repeat split; reflexivity.
Defined.

(** The page of the trapframe is there, the page table is not: the page is
    given back and the slot is free again; the pid 6 is not. *)
Lemma allocproc_failure_frees_the_slot_witness :
  (locks_free ex_table /\ pid_lock ex_table = false) /\
  exists s',
    allocproc DEFAULT 4096 0 ex_table = Ret None s' /\
    (state <$> procs s' !! 5%nat) = Some UNUSED /\
    klog s' = [EKfree 4096] /\
    nextpid s' = 7.
Proof.
  assert (Hfree : locks_free ex_table) by ex_free.
  split; [split; [exact Hfree|reflexivity]|].
  destruct (allocproc_failure_frees_the_slot DEFAULT 4096 0 ex_table Hfree eq_refl)
    as (_ & H).
  destruct (H 5%nat blank) as (s' & q' & Hrun & _);
    [ex_first|reflexivity|right; reflexivity|].
  exists s'. split; [exact Hrun|].
  assert (Hs : s' = match allocproc DEFAULT 4096 0 ex_table with
                    | Ret _ x => x | _ => ex_table end)
    by (rewrite Hrun; reflexivity).
  rewrite Hs. vm_compute. repeat split; reflexivity.
Defined.

Lemma update_time_charges_running_slots_witness :
  locks_free ex_table /\
  exists s',
    update_time ex_table = Ret tt s' /\
    (rtime <$> procs s') = [0; 1; 0; 0; 0; 0].
Proof.
  assert (Hfree : locks_free ex_table) by ex_free.
  split; [exact Hfree|].
  destruct (update_time_charges_running_slots ex_table Hfree) as (s' & Hrun & _).
  exists s'. split; [exact Hrun|].
  assert (Hs : s' = match update_time ex_table with
                    | Ret _ x => x | _ => ex_table end)
    by (rewrite Hrun; reflexivity).
  rewrite Hs. vm_compute. reflexivity.
Defined.


(** Collaborators of [fork]: [filedup] and [idup] give back the file and
    the inode they are given, [safestrcpy] the source string. *)
Definition filedup_id (f : Z) : Z := f.
Definition idup_id (ip : Z) : Z := ip.
Definition strcpy_src (dst src : list Z) : list Z := src.

(** The caller (slot 1) of [ex_table]. *)
Definition ex_caller : proc :=
  set_ofile [7; 0] (set_cwd 3 (slot RUNNING 2 (Some 0%nat) CNull)).

Lemma fork_creates_a_runnable_child_witness :
  (locks_free ex_table /\ wait_lock ex_table = false /\ pid_lock ex_table = false /\
   cpu_proc ex_table = Some 1%nat /\ 4096 <> 0 /\ 8192 <> 0 /\ 0 <= 0) /\
  exists s',
    fork DEFAULT filedup_id idup_id strcpy_src 4096 8192 0 ex_table = Ret 6 s' /\
    (state <$> procs s' !! 5%nat) = Some RUNNABLE /\
    (pid <$> procs s' !! 5%nat) = Some 6 /\
    (parent <$> procs s' !! 5%nat) = Some (Some 1%nat) /\
    (ofile <$> procs s' !! 5%nat) = Some [7; 0] /\
    (cwd <$> procs s' !! 5%nat) = Some 3 /\
    (name <$> procs s' !! 5%nat) = Some [105; 110; 0; 0] /\
    nextpid s' = 7.
Proof.
  assert (Hfree : locks_free ex_table) by ex_free.
  split; [repeat split; [exact Hfree|discriminate|discriminate|lia]|].
  destruct (fork_creates_a_runnable_child DEFAULT filedup_id idup_id strcpy_src
              4096 8192 0 ex_table 1%nat ex_caller 5%nat blank
              Hfree eq_refl eq_refl eq_refl eq_refl)
    as (s' & c & Hrun & _);
    [discriminate|ex_first|discriminate|discriminate|lia|left; discriminate|].
  exists s'. split; [exact Hrun|].
  assert (Hs : s' = match fork DEFAULT filedup_id idup_id strcpy_src 4096 8192 0
                            ex_table with
                    | Ret _ x => x | _ => ex_table end)
    by (rewrite Hrun; reflexivity).
  rewrite Hs. vm_compute. repeat split; reflexivity.
Defined.

(** The copy of the parent's memory fails. *)
Lemma fork_failure_gives_the_slot_back_witness :
  (locks_free ex_table /\ wait_lock ex_table = false /\ pid_lock ex_table = false /\
   cpu_proc ex_table = Some 1%nat) /\
  exists s',
    fork DEFAULT filedup_id idup_id strcpy_src 4096 8192 (-1) ex_table = Ret (-1) s' /\
    (state <$> procs s' !! 5%nat) = Some UNUSED /\
    (pid <$> procs s' !! 5%nat) = Some 0 /\
    klog s' = [EKfree 4096; EFreePagetable 8192 0] /\
    nextpid s' = 7.
Proof.
  assert (Hfree : locks_free ex_table) by ex_free.
  split; [repeat split; exact Hfree|].
  destruct (fork_failure_gives_the_slot_back DEFAULT filedup_id idup_id strcpy_src
              4096 8192 (-1) ex_table 1%nat ex_caller
              Hfree eq_refl eq_refl eq_refl eq_refl)
    as (_ & H); [discriminate|].
  destruct (H 5%nat blank) as (s' & c & Hrun & _);
    [ex_first|discriminate|discriminate|lia|].
  exists s'. split; [exact Hrun|].
  assert (Hs : s' = match fork DEFAULT filedup_id idup_id strcpy_src 4096 8192 (-1)
                            ex_table with
                    | Ret _ x => x | _ => ex_table end)
    by (rewrite Hrun; reflexivity).
  rewrite Hs. vm_compute. repeat split; reflexivity.
Defined.

(** The caller of [ex_table] at level 2, having used 3 ticks of its slice. *)
Definition ex_level2 : kstate :=
  upd 1 (fun q => set_no_of_ticks 3 (set_priority_number 2 q)) ex_table.

Lemma fork_yields_below_the_top_level_witness :
  (MLFQ = MLFQ /\ 2 <> 0 /\ locks_free ex_level2 /\ wait_lock ex_level2 = false /\
   pid_lock ex_level2 = false /\ cpu_proc ex_level2 = Some 1%nat) /\
  exists s' kont,
    fork MLFQ filedup_id idup_id strcpy_src 4096 8192 0 ex_level2 = Swtch s' kont /\
    (state <$> procs s') = [SLEEPING; RUNNABLE; ZOMBIE; SLEEPING; RUNNABLE; RUNNABLE] /\
    (no_of_ticks <$> procs s' !! 1%nat) = Some 0 /\
    (lock <$> procs s') = [false; true; false; false; false; false].
Proof.
  assert (Hfree : locks_free ex_level2) by ex_free.
  split; [repeat split; [discriminate|exact Hfree]|].
  destruct (fork_yields_below_the_top_level MLFQ filedup_id idup_id strcpy_src
              4096 8192 0 ex_level2 1%nat
              (set_no_of_ticks 3 (set_priority_number 2 ex_caller)) 5%nat blank
              eq_refl)
    as (s' & kont & c & Hrun & _);
    [discriminate|exact Hfree|reflexivity|reflexivity|reflexivity|reflexivity
    |discriminate|ex_first|discriminate|discriminate|lia|].
  exists s', kont. split; [exact Hrun|].
  assert (Hs : s' = match fork MLFQ filedup_id idup_id strcpy_src 4096 8192 0
                            ex_level2 with
                    | Swtch x _ => x | _ => ex_level2 end)
    by (rewrite Hrun; reflexivity).
  rewrite Hs. vm_compute. repeat split; reflexivity.
Defined.

Lemma fresh_process_has_its_static_priority_witness :
  (PBS = PBS /\ locks_free ex_table) /\
  exists s' q',
    allocproc PBS 4096 8192 ex_table = Ret (Some 5%nat) s' /\
    procs s' !! 5%nat = Some q' /\ PSBPriority q' = Some 60.
Proof.
  assert (Hfree : locks_free ex_table) by ex_free.
  split; [split; [reflexivity|exact Hfree]|].
  destruct (fresh_process_has_its_static_priority PBS ex_table eq_refl Hfree)
    as (H & _).
  apply (H 4096 8192 5%nat blank); [reflexivity|ex_first|discriminate|discriminate].
Defined.

(** Dispatched at tick 10, asleep from tick 40, woken at tick 50: a quarter
    of the time was slept, the niceness is 2. *)
Lemma niceness_is_the_share_of_time_slept_witness :
  (PBS = PBS /\ 0 <= 10 /\ 10 <= 40 /\ 40 <= 50 /\ 50 < 2 ^ 27) /\
  niceness (wake_one PBS (CAddr 7) 50 (asleep PBS (CAddr 7) 40 (pbs_dispatch 10 blank)))
  = Some 2.
Proof.
  split; [repeat split; lia|].
  destruct (niceness_is_the_share_of_time_slept PBS (CAddr 7) 10 40 50 blank eq_refl)
    as (_ & _ & _ & _ & _ & _ & _ & H & _); [lia|lia|lia|lia|].
  rewrite H by lia. reflexivity.
Defined.

(** Init sleeps in [wait]; its child (slot 1) exits with status 5.  The
    scheduler dispatches init, whose [wait] returns the pid 2 and copies the
    status out to the address 64. *)
Lemma exit_hands_its_status_to_the_waiting_parent_witness :
  (cpu_proc ex_family = Some 1%nat /\ initproc ex_family <> Some 1%nat /\
   locks_free ex_family /\ wait_lock ex_family = false /\
   pid_lock ex_family = false /\ 0%nat <> 1%nat) /\
  exists s1 kont,
    exit DEFAULT 5 ex_family = Swtch s1 kont /\
    (state <$> procs s1 !! 0%nat) = Some RUNNABLE /\
    exists s4,
      wait DEFAULT copyout_ok 1 64
        (upd 0 (fun x => set_lock false (set_chan CNull x))
           (set_intena false
              (set_cpu_proc (Some 0%nat)
                 (upd 0 (fun x => set_state RUNNING (set_lock true x))
                    (upd 1 (set_lock false) s1)))))
      = Ret 2 s4 /\
      (state <$> procs s4 !! 1%nat) = Some UNUSED /\
      klog s4 = klog s1 ++ [ECopyout 65537 64 5; EKfree 131074;
                            EFreePagetable 65538 4096].
Proof.
  assert (Hfree : locks_free ex_family) by ex_free.
  split; [repeat split; [discriminate|exact Hfree|discriminate]|].
  destruct (exit_hands_its_status_to_the_waiting_parent DEFAULT copyout_ok 5 0 64
              (fun x => set_state RUNNING (set_lock true x)) false
              ex_family 1%nat ex_caller 0%nat (slot SLEEPING 1 None (CProc 0))
              eq_refl eq_refl)
    as (s1 & kont & Hrun & (y & Hy & Hys) & s4 & Hwait & (z & Hz & Hzs & _) & Hlog);
    [discriminate|exact Hfree|reflexivity|reflexivity|reflexivity|discriminate
    |reflexivity|reflexivity|reflexivity| | |right; vm_compute; discriminate|].
  - intros j x Hx Hs. revert Hs. ex_slots Hx.
  - intros x. split; reflexivity.
  - exists s1, kont. split; [exact Hrun|].
    split; [rewrite Hy, <- Hys; reflexivity|].
    exists s4. split; [exact Hwait|].
    split; [rewrite Hz, <- Hzs; reflexivity|].
    exact Hlog.
Defined.


Lemma allocproc_gives_a_fresh_pid_witness :
  (locks_free ex_table /\ pid_lock ex_table = false /\ pids_below ex_table /\
   - 2 ^ 31 <= nextpid ex_table < 2 ^ 31 - 1) /\
  exists s',
    allocproc DEFAULT 4096 8192 ex_table = Ret (Some 5%nat) s' /\
    (pid <$> procs s') = [1; 2; 3; 4; 5; 6] /\
    nextpid s' = 7.
Proof.
  assert (Hfree : locks_free ex_table) by ex_free.
  assert (Hbelow : pids_below ex_table).
  { intros i q Hq. ex_slots Hq. }
  split; [repeat split; [exact Hfree|exact Hbelow|vm_compute; discriminate]|].
  destruct (allocproc_gives_a_fresh_pid DEFAULT 4096 8192 ex_table 5%nat blank
              Hfree eq_refl)
    as (s' & q' & Hrun & _);
    [ex_first|discriminate|discriminate|exact Hbelow
    |split; vm_compute; [discriminate|reflexivity]|].
  exists s'. split; [exact Hrun|].
  assert (Hs : s' = match allocproc DEFAULT 4096 8192 ex_table with
                    | Ret _ x => x | _ => ex_table end)
    by (rewrite Hrun; reflexivity).
  rewrite Hs. vm_compute. split; reflexivity.
Defined.
